(** * nsm66d and jackpatch66: a shallow embedding

    The session daemon (nsm66d.cpp, nsm66d.hpp) and the JACK patch engine
    (jackpatch66.cpp, jackpatch66.hpp) are rendered as Rocq functions.

    - The daemon's file-scope variables ([s_client_list], [s_gui_address],
      [s_session_path], [s_pending_operation], ...) are the fields of one
      [State] record that every function threads.
    - [s_osc_server->send] appends to the [sent] field, oldest message first.
    - What lies outside the process (files, child processes, the helper
      libraries cfg66 and nsm66 whose sources are not part of the repository)
      is reached through the record [Externals]; every theorem holds for all
      of its instances, and the instance [Demo.demo_ext] is used to run the
      code on concrete inputs.
    - Console logging ([util::info_message] and friends) and the time stamp
      taken by [Client::pending_command] leave no trace in the state and
      are not rendered. *)

From Stdlib Require Import ZArith String Ascii List Bool Lia.
From Stdlib Require Import Permutation Sorted.
From stdpp Require Import base tactics option list strings pretty gmap.
Import ListNotations.
Set Warnings "-register-all".
Local Open Scope string_scope.
Local Open Scope Z_scope.
Local Open Scope list_scope.

(** ** Strings as the C++ code uses them *)

(** [std::string::substr(pos)]: the tail from [pos]; [None] stands for the
    [std::out_of_range] exception thrown when [pos > size()]. *)
Fixpoint substr (s : string) (pos : nat) : option string :=
  match pos, s with
  | O, _ => Some s
  | S p, String _ r => substr r p
  | S _, EmptyString => None
  end.

(** [basename(3)], GNU flavour: what follows the last slash. *)
Fixpoint basename_from (cur s : string) : string :=
  match s with
  | EmptyString => cur
  | String c r =>
      if Ascii.eqb c "/"%char then basename_from EmptyString r
      else basename_from (cur +:+ String c EmptyString) r
  end.

Definition basename (s : string) : string := basename_from EmptyString s.

(** [util::strcompare] of cfg66 answers with a boolean that is true when
    the two strings are equal: the daemon tests a file name with
    [util::strcompare("session.nsm", ...)], jackpatch66 tests an option
    with [util::strcompare(option, "--save")]. *)
Definition strcompare (a b : string) : bool := String.eqb a b.

(** [util::contains(s, part)]: [part] occurs in [s]. *)
Fixpoint contains (s part : string) : bool :=
  String.prefix part s ||
  match s with
  | EmptyString => false
  | String _ r => contains r part
  end.

(** ** Protocol constants (nsm/nsmcodes.hpp of the nsm66 library) *)

Module nsm.

(** [nsm::command]: what a client was last told to do, and the value of
    the pending-operation latch. *)
Inductive command :=
| none | quit | kill | save | open | start | close | duplicate
| new_session.

Definition command_eqb (a b : command) : bool :=
  match a, b with
  | none, none | quit, quit | kill, kill | save, save | open, open
  | start, start | close, close | duplicate, duplicate
  | new_session, new_session => true
  | _, _ => false
  end.

(** [nsm::error]. Modelled from the spec: the error taxonomy of section
    7 gives the names, [ok = 0] and [general = -1]; the header that
    numbers the others is not in the repository, they are counted down
    in the order of the list, [save_failed] being the protocol's -99. *)
Inductive error :=
| ok | general | incompatible_api | blacklisted | launch_failed
| no_such_file | no_session_open | unsaved_changes | not_now
| bad_project | create_failed | session_locked | operation_pending
| save_failed.

Definition error_code (e : error) : Z :=
  match e with
  | ok => 0
  | general => -1
  | incompatible_api => -2
  | blacklisted => -3
  | launch_failed => -4
  | no_such_file => -5
  | no_session_open => -6
  | unsaved_changes => -7
  | not_now => -8
  | bad_project => -9
  | create_failed => -10
  | session_locked => -11
  | operation_pending => -12
  | save_failed => -99
  end.

End nsm.

(** Modelled from the spec: "API version advertised: major=1, minor=2";
    the macro [NSM_API_VERSION_MAJOR] comes from a header of the nsm66
    library. *)
Definition NSM_API_VERSION_MAJOR : Z := 1.

Definition NSMD66_APP_TITLE : string := "Nsmd 66".

(** [osc::osc_msg_handled()]: the value a liblo handler returns for a
    message it has dealt with. *)
Definition osc_msg_handled : Z := 0.

(** ** OSC addresses and messages *)

(** A [lo_address]: host and port, both strings as liblo keeps them. *)
Record lo_address := { lo_host : string; lo_port : string }.

Definition lo_address_get_port (a : lo_address) : string := lo_port a.

Definition lo_address_get_url (a : lo_address) : string :=
  "osc.udp://" +:+ lo_host a +:+ ":" +:+ lo_port a +:+ "/".

(** One OSC argument. A float is carried as its 32-bit pattern: the
    daemon only stores and forwards it. [arg_other] is an argument of a
    type other than [s], [i], [f], with its type character. *)
Inductive lo_arg :=
| arg_s (s : string)
| arg_i (i : Z)
| arg_f (bits : Z)
| arg_other (ty : ascii).

(** A message handed to [s_osc_server->send]. *)
Record osc_out := {
  out_to : option lo_address;       (* None: a null address was passed *)
  out_path : string;
  out_args : list lo_arg
}.

(** ** The client record (class Client of nsm66d.hpp) *)

Record Client := {
  self : nat;                       (* identity of the heap object *)
  m_reply_errcode : Z;
  m_reply_message : string;
  m_pending_command : nsm.command;
  m_gui_visible : bool;
  m_label : string;
  m_addr : option lo_address;       (* None is the null pointer *)
  m_name : string;
  m_exe_path : string;
  m_pid : Z;
  m_progress : Z;                   (* bit pattern of the float *)
  m_active : bool;
  m_client_id : string;
  m_capabilities : string;
  m_dirty : bool;
  m_pre_existing : bool;
  m_status : string;
  m_launch_error : Z;
  m_name_with_id : string
}.

(** [Client::Client (name, exe, id)]; the default constructor is the case
    of three empty strings. *)
Definition new_Client (p : nat) (name exe id : string) : Client :=
  {| self := p; m_reply_errcode := 0; m_reply_message := "";
     m_pending_command := nsm.none; m_gui_visible := true; m_label := "";
     m_addr := None; m_name := name; m_exe_path := exe; m_pid := 0;
     m_progress := 2147483648; m_active := false; m_client_id := id;
     m_capabilities := ""; m_dirty := false; m_pre_existing := false;
     m_status := ""; m_launch_error := 0; m_name_with_id := "" |}.

Definition set_m_pending_command (v : nsm.command) (c : Client) : Client :=
  {| self := self c; m_reply_errcode := m_reply_errcode c;
     m_reply_message := m_reply_message c; m_pending_command := v;
     m_gui_visible := m_gui_visible c; m_label := m_label c;
     m_addr := m_addr c; m_name := m_name c; m_exe_path := m_exe_path c;
     m_pid := m_pid c; m_progress := m_progress c; m_active := m_active c;
     m_client_id := m_client_id c; m_capabilities := m_capabilities c;
     m_dirty := m_dirty c; m_pre_existing := m_pre_existing c;
     m_status := m_status c; m_launch_error := m_launch_error c;
     m_name_with_id := m_name_with_id c |}.

Definition set_m_label (v : string) (c : Client) : Client :=
  {| self := self c; m_reply_errcode := m_reply_errcode c;
     m_reply_message := m_reply_message c;
     m_pending_command := m_pending_command c;
     m_gui_visible := m_gui_visible c; m_label := v;
     m_addr := m_addr c; m_name := m_name c; m_exe_path := m_exe_path c;
     m_pid := m_pid c; m_progress := m_progress c; m_active := m_active c;
     m_client_id := m_client_id c; m_capabilities := m_capabilities c;
     m_dirty := m_dirty c; m_pre_existing := m_pre_existing c;
     m_status := m_status c; m_launch_error := m_launch_error c;
     m_name_with_id := m_name_with_id c |}.

Definition set_m_addr (v : option lo_address) (c : Client) : Client :=
  {| self := self c; m_reply_errcode := m_reply_errcode c;
     m_reply_message := m_reply_message c;
     m_pending_command := m_pending_command c;
     m_gui_visible := m_gui_visible c; m_label := m_label c;
     m_addr := v; m_name := m_name c; m_exe_path := m_exe_path c;
     m_pid := m_pid c; m_progress := m_progress c; m_active := m_active c;
     m_client_id := m_client_id c; m_capabilities := m_capabilities c;
     m_dirty := m_dirty c; m_pre_existing := m_pre_existing c;
     m_status := m_status c; m_launch_error := m_launch_error c;
     m_name_with_id := m_name_with_id c |}.

Definition set_m_name (v : string) (c : Client) : Client :=
  {| self := self c; m_reply_errcode := m_reply_errcode c;
     m_reply_message := m_reply_message c;
     m_pending_command := m_pending_command c;
     m_gui_visible := m_gui_visible c; m_label := m_label c;
     m_addr := m_addr c; m_name := v; m_exe_path := m_exe_path c;
     m_pid := m_pid c; m_progress := m_progress c; m_active := m_active c;
     m_client_id := m_client_id c; m_capabilities := m_capabilities c;
     m_dirty := m_dirty c; m_pre_existing := m_pre_existing c;
     m_status := m_status c; m_launch_error := m_launch_error c;
     m_name_with_id := m_name_with_id c |}.

Definition set_m_exe_path (v : string) (c : Client) : Client :=
  {| self := self c; m_reply_errcode := m_reply_errcode c;
     m_reply_message := m_reply_message c;
     m_pending_command := m_pending_command c;
     m_gui_visible := m_gui_visible c; m_label := m_label c;
     m_addr := m_addr c; m_name := m_name c; m_exe_path := v;
     m_pid := m_pid c; m_progress := m_progress c; m_active := m_active c;
     m_client_id := m_client_id c; m_capabilities := m_capabilities c;
     m_dirty := m_dirty c; m_pre_existing := m_pre_existing c;
     m_status := m_status c; m_launch_error := m_launch_error c;
     m_name_with_id := m_name_with_id c |}.

Definition set_m_pid (v : Z) (c : Client) : Client :=
  {| self := self c; m_reply_errcode := m_reply_errcode c;
     m_reply_message := m_reply_message c;
     m_pending_command := m_pending_command c;
     m_gui_visible := m_gui_visible c; m_label := m_label c;
     m_addr := m_addr c; m_name := m_name c; m_exe_path := m_exe_path c;
     m_pid := v; m_progress := m_progress c; m_active := m_active c;
     m_client_id := m_client_id c; m_capabilities := m_capabilities c;
     m_dirty := m_dirty c; m_pre_existing := m_pre_existing c;
     m_status := m_status c; m_launch_error := m_launch_error c;
     m_name_with_id := m_name_with_id c |}.

Definition set_m_active (v : bool) (c : Client) : Client :=
  {| self := self c; m_reply_errcode := m_reply_errcode c;
     m_reply_message := m_reply_message c;
     m_pending_command := m_pending_command c;
     m_gui_visible := m_gui_visible c; m_label := m_label c;
     m_addr := m_addr c; m_name := m_name c; m_exe_path := m_exe_path c;
     m_pid := m_pid c; m_progress := m_progress c; m_active := v;
     m_client_id := m_client_id c; m_capabilities := m_capabilities c;
     m_dirty := m_dirty c; m_pre_existing := m_pre_existing c;
     m_status := m_status c; m_launch_error := m_launch_error c;
     m_name_with_id := m_name_with_id c |}.

Definition set_m_client_id (v : string) (c : Client) : Client :=
  {| self := self c; m_reply_errcode := m_reply_errcode c;
     m_reply_message := m_reply_message c;
     m_pending_command := m_pending_command c;
     m_gui_visible := m_gui_visible c; m_label := m_label c;
     m_addr := m_addr c; m_name := m_name c; m_exe_path := m_exe_path c;
     m_pid := m_pid c; m_progress := m_progress c; m_active := m_active c;
     m_client_id := v; m_capabilities := m_capabilities c;
     m_dirty := m_dirty c; m_pre_existing := m_pre_existing c;
     m_status := m_status c; m_launch_error := m_launch_error c;
     m_name_with_id := m_name_with_id c |}.

Definition set_m_capabilities (v : string) (c : Client) : Client :=
  {| self := self c; m_reply_errcode := m_reply_errcode c;
     m_reply_message := m_reply_message c;
     m_pending_command := m_pending_command c;
     m_gui_visible := m_gui_visible c; m_label := m_label c;
     m_addr := m_addr c; m_name := m_name c; m_exe_path := m_exe_path c;
     m_pid := m_pid c; m_progress := m_progress c; m_active := m_active c;
     m_client_id := m_client_id c; m_capabilities := v;
     m_dirty := m_dirty c; m_pre_existing := m_pre_existing c;
     m_status := m_status c; m_launch_error := m_launch_error c;
     m_name_with_id := m_name_with_id c |}.

Definition set_m_pre_existing (v : bool) (c : Client) : Client :=
  {| self := self c; m_reply_errcode := m_reply_errcode c;
     m_reply_message := m_reply_message c;
     m_pending_command := m_pending_command c;
     m_gui_visible := m_gui_visible c; m_label := m_label c;
     m_addr := m_addr c; m_name := m_name c; m_exe_path := m_exe_path c;
     m_pid := m_pid c; m_progress := m_progress c; m_active := m_active c;
     m_client_id := m_client_id c; m_capabilities := m_capabilities c;
     m_dirty := m_dirty c; m_pre_existing := v;
     m_status := m_status c; m_launch_error := m_launch_error c;
     m_name_with_id := m_name_with_id c |}.

Definition set_m_status (v : string) (c : Client) : Client :=
  {| self := self c; m_reply_errcode := m_reply_errcode c;
     m_reply_message := m_reply_message c;
     m_pending_command := m_pending_command c;
     m_gui_visible := m_gui_visible c; m_label := m_label c;
     m_addr := m_addr c; m_name := m_name c; m_exe_path := m_exe_path c;
     m_pid := m_pid c; m_progress := m_progress c; m_active := m_active c;
     m_client_id := m_client_id c; m_capabilities := m_capabilities c;
     m_dirty := m_dirty c; m_pre_existing := m_pre_existing c;
     m_status := v; m_launch_error := m_launch_error c;
     m_name_with_id := m_name_with_id c |}.

Definition set_m_launch_error (v : Z) (c : Client) : Client :=
  {| self := self c; m_reply_errcode := m_reply_errcode c;
     m_reply_message := m_reply_message c;
     m_pending_command := m_pending_command c;
     m_gui_visible := m_gui_visible c; m_label := m_label c;
     m_addr := m_addr c; m_name := m_name c; m_exe_path := m_exe_path c;
     m_pid := m_pid c; m_progress := m_progress c; m_active := m_active c;
     m_client_id := m_client_id c; m_capabilities := m_capabilities c;
     m_dirty := m_dirty c; m_pre_existing := m_pre_existing c;
     m_status := m_status c; m_launch_error := v;
     m_name_with_id := m_name_with_id c |}.

Definition set_m_name_with_id (v : string) (c : Client) : Client :=
  {| self := self c; m_reply_errcode := m_reply_errcode c;
     m_reply_message := m_reply_message c;
     m_pending_command := m_pending_command c;
     m_gui_visible := m_gui_visible c; m_label := m_label c;
     m_addr := m_addr c; m_name := m_name c; m_exe_path := m_exe_path c;
     m_pid := m_pid c; m_progress := m_progress c; m_active := m_active c;
     m_client_id := m_client_id c; m_capabilities := m_capabilities c;
     m_dirty := m_dirty c; m_pre_existing := m_pre_existing c;
     m_status := m_status c; m_launch_error := m_launch_error c;
     m_name_with_id := v |}.

(** The inline members of class Client. *)
Definition has_error (c : Client) : bool := negb (m_reply_errcode c =? 0).

Definition reply_pending (c : Client) : bool :=
  negb (nsm.command_eqb (m_pending_command c) nsm.none).

Definition is_dumb_client (c : Client) : bool :=
  String.eqb (m_capabilities c) "".

Definition is_capable_of (c : Client) (capability : string) : bool :=
  contains (m_capabilities c) capability.

(** ** What lies outside the daemon *)

(** A row of the session manifest ([nsm::session_triplets]). *)
Record session_triplet := {
  st_client_name : string;
  st_client_exe : string;
  st_client_id : string
}.

(** A file hierarchy as fts(3) finds it: regular files and directories. *)
Inductive fsnode :=
| fs_file (name : string)
| fs_dir (name : string) (entries : list fsnode).

(** The arguments of [/nsm/server/announce], type signature [sssiii]. *)
Record announce_args := {
  an_client_name : string;
  an_capabilities : string;
  an_executable : string;
  an_api_major : Z;
  an_api_minor : Z;
  an_pid : Z
}.

(** A message that reaches one of the handlers that [add_methods]
    registers: its source and, by path, the arguments its type signature
    admits. [/reply] and [/error] are not among them: their handlers are
    those of [osc::lowrapper] in the nsm66 library, and [add_methods]
    leaves [OSC_HANDLER (reply)] and [OSC_HANDLER (error)] out. *)
Inductive osc_in :=
| in_progress (src : lo_address) (progress : Z)
| in_is_dirty (src : lo_address)
| in_is_clean (src : lo_address)
| in_message (src : lo_address) (priority : Z) (text : string)
| in_gui_is_hidden (src : lo_address)
| in_gui_is_shown (src : lo_address)
| in_label (src : lo_address) (argv : list lo_arg)
| in_gui_announce (src : lo_address)
| in_stop (src : lo_address)
| in_remove (src : lo_address)
| in_resume (src : lo_address)
| in_client_save (src : lo_address)
| in_client_show_optional_gui (src : lo_address)
| in_client_hide_optional_gui (src : lo_address)
| in_ping (src : lo_address) (path : string)
| in_announce (src : lo_address) (a : announce_args)
| in_broadcast (src : lo_address) (argv : list lo_arg)
| in_duplicate (src : lo_address) (name : string)
| in_abort (src : lo_address)
| in_list (src : lo_address)
| in_add (src : lo_address) (executable_name : string)
| in_new (src : lo_address) (name : string)
| in_save (src : lo_address)
| in_open (src : lo_address) (name : string)
| in_close (src : lo_address)
| in_quit (src : lo_address)
| in_null (src : lo_address).

(** The functions of cfg66, nsm66 and the operating system that the two
    programs call. [W] is the state of the outside world; a function that
    changes it returns the new one. *)
Record Externals (W : Type) := {
  (* cfg66: util/strfunctions, util/filefunctions, util/ftswalker *)
  strncompare : string -> string -> bool;
  name_has_path : string -> bool;
  filename_base : string -> string;
  file_exists : string -> W -> bool;
  file_delete : string -> W -> bool * W;
  file_write_lines : string -> list string -> W -> bool * W;
  fts_copy_directory : string -> string -> W -> bool * W;
  (* nsm66: nsm/helpers *)
  mkpath : string -> bool -> W -> bool * W;
  get_lock_file_name : string -> string -> string -> string;
  write_lock_file : string -> string -> string -> W -> bool * W;
  parse_session_lines : string -> W -> list session_triplet;
  generate_client_id : string -> W -> string * W;
  (* the operating system *)
  fork : W -> Z * W;                     (* the value fork() returns here *)
  kill : Z -> Z -> W -> Z * W;
  waitpid_all : W -> list (Z * Z) * W;   (* the (pid, status) pairs that
                                            waitpid(-1, &status, WNOHANG)
                                            yields before it yields <= 0 *)
  read_sigchld : W -> bool * W;          (* the signalfd had a SIGCHLD *)
  fts_open : string -> W -> option fsnode;
  osc_recv : W -> list osc_in * W        (* the messages that have come *)
}.

Arguments strncompare {W}.
Arguments name_has_path {W}.
Arguments filename_base {W}.
Arguments file_exists {W}.
Arguments file_delete {W}.
Arguments file_write_lines {W}.
Arguments fts_copy_directory {W}.
Arguments mkpath {W}.
Arguments get_lock_file_name {W}.
Arguments write_lock_file {W}.
Arguments parse_session_lines {W}.
Arguments generate_client_id {W}.
Arguments fork {W}.
Arguments kill {W}.
Arguments waitpid_all {W}.
Arguments read_sigchld {W}.
Arguments fts_open {W}.
Arguments osc_recv {W}.

Definition SIGKILL : Z := 9.
Definition SIGTERM : Z := 15.

(** [WIFEXITED] and [WEXITSTATUS] of <sys/wait.h>. *)
Definition WIFEXITED (status : Z) : bool := Z.land status 127 =? 0.
Definition WEXITSTATUS (status : Z) : Z := Z.shiftr (Z.land status 65280) 8.

(** ** The daemon's state *)

Record State (W : Type) := {
  s_client_list : list Client;
  s_gui_address : lo_address;
  s_gui_is_active : bool;
  s_session_root : string;
  s_session_path : string;
  s_session_name : string;
  s_lockfile_directory : string;
  s_daemon_file : string;
  s_pending_operation : nsm.command;
  s_list_response_address : option lo_address;
  server_url : string;              (* s_osc_server->url() *)
  next_object : nat;                (* identity of the next new Client *)
  sent : list osc_out;              (* s_osc_server->send, oldest first *)
  world : W
}.

Arguments s_client_list {W}.
Arguments s_gui_address {W}.
Arguments s_gui_is_active {W}.
Arguments s_session_root {W}.
Arguments s_session_path {W}.
Arguments s_session_name {W}.
Arguments s_lockfile_directory {W}.
Arguments s_daemon_file {W}.
Arguments s_pending_operation {W}.
Arguments s_list_response_address {W}.
Arguments server_url {W}.
Arguments next_object {W}.
Arguments sent {W}.
Arguments world {W}.

(** How a call can end other than by returning. *)
Inductive halt :=
| halt_exit (code : Z)              (* exit(code) *)
| halt_throw (what : string)        (* a C++ exception nobody catches *)
| halt_undefined (what : string)    (* undefined behaviour *)
| halt_child.                       (* fork() returned 0: the child *)

Inductive result (W A : Type) :=
| Ok (a : A) (st : State W)
| Halt (h : halt) (st : State W).

Arguments Ok {W A}.
Arguments Halt {W A}.

(** The state a call ends in, however it ends. *)
Definition final {W A : Type} (r : result W A) : State W :=
  match r with
  | Ok _ st => st
  | Halt _ st => st
  end.

Section Daemon.

Context {W : Type}.
Variable ext : Externals W.

(** [osc_wait] is what [s_osc_server->wait (timeout)] and
    [s_osc_server->check ()] do: every message that has arrived is handed
    to its handler, which runs to completion inside the call. *)
Variable osc_wait : State W -> result W unit.

Definition M (A : Type) : Type := State W -> result W A.

Definition ret {A} (a : A) : M A := fun st => Ok a st.

Definition bind {A B} (m : M A) (k : A -> M B) : M B :=
  fun st =>
    match m st with
    | Ok a st' => k a st'
    | Halt h st' => Halt h st'
    end.

Definition lift (f : State W -> State W) : M unit := fun st => Ok tt (f st).

Definition gets {A} (f : State W -> A) : M A := fun st => Ok (f st) st.

Definition stop {A} (h : halt) : M A := fun st => Halt h st.

Notation "'let*' x ':=' m 'in' k" := (bind m (fun x => k))
  (at level 10, x name, m at level 100, k at level 200, only parsing).
Notation "m ;;; k" := (bind m (fun _ => k))
  (at level 200, k at level 200, only parsing).

Definition with_client_list (l : list Client) (st : State W) : State W :=
  {| s_client_list := l; s_gui_address := s_gui_address st;
     s_gui_is_active := s_gui_is_active st;
     s_session_root := s_session_root st;
     s_session_path := s_session_path st;
     s_session_name := s_session_name st;
     s_lockfile_directory := s_lockfile_directory st;
     s_daemon_file := s_daemon_file st;
     s_pending_operation := s_pending_operation st;
     s_list_response_address := s_list_response_address st;
     server_url := server_url st; next_object := next_object st;
     sent := sent st; world := world st |}.

Definition with_session_path (v : string) (st : State W) : State W :=
  {| s_client_list := s_client_list st; s_gui_address := s_gui_address st;
     s_gui_is_active := s_gui_is_active st;
     s_session_root := s_session_root st;
     s_session_path := v;
     s_session_name := s_session_name st;
     s_lockfile_directory := s_lockfile_directory st;
     s_daemon_file := s_daemon_file st;
     s_pending_operation := s_pending_operation st;
     s_list_response_address := s_list_response_address st;
     server_url := server_url st; next_object := next_object st;
     sent := sent st; world := world st |}.

Definition with_session_name (v : string) (st : State W) : State W :=
  {| s_client_list := s_client_list st; s_gui_address := s_gui_address st;
     s_gui_is_active := s_gui_is_active st;
     s_session_root := s_session_root st;
     s_session_path := s_session_path st;
     s_session_name := v;
     s_lockfile_directory := s_lockfile_directory st;
     s_daemon_file := s_daemon_file st;
     s_pending_operation := s_pending_operation st;
     s_list_response_address := s_list_response_address st;
     server_url := server_url st; next_object := next_object st;
     sent := sent st; world := world st |}.

Definition with_pending_operation (v : nsm.command) (st : State W)
  : State W :=
  {| s_client_list := s_client_list st; s_gui_address := s_gui_address st;
     s_gui_is_active := s_gui_is_active st;
     s_session_root := s_session_root st;
     s_session_path := s_session_path st;
     s_session_name := s_session_name st;
     s_lockfile_directory := s_lockfile_directory st;
     s_daemon_file := s_daemon_file st;
     s_pending_operation := v;
     s_list_response_address := s_list_response_address st;
     server_url := server_url st; next_object := next_object st;
     sent := sent st; world := world st |}.

Definition with_list_response_address (v : option lo_address)
  (st : State W) : State W :=
  {| s_client_list := s_client_list st; s_gui_address := s_gui_address st;
     s_gui_is_active := s_gui_is_active st;
     s_session_root := s_session_root st;
     s_session_path := s_session_path st;
     s_session_name := s_session_name st;
     s_lockfile_directory := s_lockfile_directory st;
     s_daemon_file := s_daemon_file st;
     s_pending_operation := s_pending_operation st;
     s_list_response_address := v;
     server_url := server_url st; next_object := next_object st;
     sent := sent st; world := world st |}.

Definition with_next_object (v : nat) (st : State W) : State W :=
  {| s_client_list := s_client_list st; s_gui_address := s_gui_address st;
     s_gui_is_active := s_gui_is_active st;
     s_session_root := s_session_root st;
     s_session_path := s_session_path st;
     s_session_name := s_session_name st;
     s_lockfile_directory := s_lockfile_directory st;
     s_daemon_file := s_daemon_file st;
     s_pending_operation := s_pending_operation st;
     s_list_response_address := s_list_response_address st;
     server_url := server_url st; next_object := v;
     sent := sent st; world := world st |}.

Definition with_sent (v : list osc_out) (st : State W) : State W :=
  {| s_client_list := s_client_list st; s_gui_address := s_gui_address st;
     s_gui_is_active := s_gui_is_active st;
     s_session_root := s_session_root st;
     s_session_path := s_session_path st;
     s_session_name := s_session_name st;
     s_lockfile_directory := s_lockfile_directory st;
     s_daemon_file := s_daemon_file st;
     s_pending_operation := s_pending_operation st;
     s_list_response_address := s_list_response_address st;
     server_url := server_url st; next_object := next_object st;
     sent := v; world := world st |}.

Definition with_world (v : W) (st : State W) : State W :=
  {| s_client_list := s_client_list st; s_gui_address := s_gui_address st;
     s_gui_is_active := s_gui_is_active st;
     s_session_root := s_session_root st;
     s_session_path := s_session_path st;
     s_session_name := s_session_name st;
     s_lockfile_directory := s_lockfile_directory st;
     s_daemon_file := s_daemon_file st;
     s_pending_operation := s_pending_operation st;
     s_list_response_address := s_list_response_address st;
     server_url := server_url st; next_object := next_object st;
     sent := sent st; world := v |}.

(** *** Sending *)

(** [s_osc_server->send (to, path, args...)]. *)
Definition send (to : option lo_address) (path : string)
  (args : list lo_arg)
  (st : State W) : State W :=
  with_sent (sent st ++ [ {| out_to := to; out_path := path;
                             out_args := args |} ]) st.

Definition gui_send (msg s1 s2 : string) (st : State W) : State W :=
  if s_gui_is_active st
  then send (Some (s_gui_address st)) msg [arg_s s1; arg_s s2] st
  else st.

(** [gui_msg (format, ...)]: the formatted text goes to the GUI, if one
    is attached. *)
Definition gui_msg (text : string) (st : State W) : State W :=
  if s_gui_is_active st
  then send (Some (s_gui_address st)) "/nsm/gui/server/message"
         [arg_s text] st
  else st.

(** [error_send] and [error_send_ex] answer the source of [msg]; the
    second rebuilds the address from its URL first, which names the same
    host and port. *)
Definition error_send (src : lo_address) (path : string)
  (errcode : nsm.error) (errmsg : string) (st : State W) : State W :=
  send (Some src) "/error"
    [arg_s path; arg_i (nsm.error_code errcode); arg_s errmsg] st.

Definition error_send_ex := error_send.

Definition reply_send (src : lo_address) (path replymsg : string)
  (st : State W) : State W :=
  send (Some src) "/reply" [arg_s path; arg_s replymsg] st.

Definition reply_send_ex := reply_send.

(** *** The record store *)

Definition get_client_by_pid (pid : Z) (l : list Client) : option Client :=
  List.find (fun c => m_pid c =? pid) l.

(** [s_client_list.remove (c)]: every node that holds the pointer. *)
Definition remove_client (p : nat) (l : list Client) : list Client :=
  List.filter (fun c => negb (Nat.eqb (self c) p)) l.

(** A write through the pointer [c]: the record of that identity is
    replaced. *)
Definition store_client (c : Client) (l : list Client) : list Client :=
  List.map (fun x => if Nat.eqb (self x) (self c) then c else x) l.

Definition store (c : Client) (st : State W) : State W :=
  with_client_list (store_client c (s_client_list st)) st.

(** *** Death of a child process *)

(** [handle_client_process_death (pid)]. In the quit branch the record is
    taken out of the list and deleted, and the three assignments that
    close the function then write to the deleted object. *)
Definition handle_client_process_death (pid : Z) : M unit :=
  fun st =>
    match get_client_by_pid pid (s_client_list st) with
    | None => Ok tt st
    | Some c =>
        let dead_because_we_said :=
          nsm.command_eqb (m_pending_command c) nsm.kill ||
          nsm.command_eqb (m_pending_command c) nsm.quit in
        let st1 :=
          if dead_because_we_said
          then gui_msg ("Client " +:+ m_name_with_id c +:+
                        " terminated by server") st
          else gui_msg ("Client " +:+ m_name_with_id c +:+
                        " terminated itself") st in
        if nsm.command_eqb (m_pending_command c) nsm.quit then
          let c1 := set_m_status "removed" c in
          let st2 :=
            gui_send "/nsm/gui/client/status" (m_client_id c1) (m_status c1)
              st1 in
          Halt (halt_undefined "write to a deleted Client")
            (with_client_list (remove_client (self c) (s_client_list st2))
               st2)
        else
          let c1 :=
            if negb (m_launch_error c =? 0)
            then set_m_label "Launch error!" c
            else set_m_label "" c in
          let c2 := set_m_status "stopped" c1 in
          let st2 :=
            if s_gui_is_active st1
            then gui_send "/nsm/gui/client/status" (m_client_id c2)
                   (m_status c2)
                   (gui_send "/nsm/gui/client/label" (m_client_id c2)
                      (m_label c2) st1)
            else st1 in
          let c3 := set_m_pid 0 (set_m_active false
                      (set_m_pending_command nsm.none c2)) in
          Ok tt (store c3 st2)
    end.

(** The body of the loop of [handle_sigchld] for one reaped child. *)
Definition handle_reaped_child (child : Z * Z) : M unit :=
  let (pid, status) := child in
  lift (fun st =>
          match get_client_by_pid pid (s_client_list st) with
          | Some c =>
              if WIFEXITED status && (WEXITSTATUS status =? 255)
              then store (set_m_launch_error 1 c) st
              else st
          | None => st
          end) ;;;
  handle_client_process_death pid.

(** The children that [waitpid] yields are handled one after the
    other. *)
Fixpoint handle_reaped_children (children : list (Z * Z)) : M unit :=
  match children with
  | [] => ret tt
  | child :: r => handle_reaped_child child ;;; handle_reaped_children r
  end.

(** [handle_sigchld ()]: reap until waitpid has nothing more. *)
Definition handle_sigchld : M unit :=
  fun st =>
    let (children, w) := waitpid_all ext (world st) in
    handle_reaped_children children (with_world w st).

Definition handle_child_signal : M unit :=
  fun st =>
    let (got, w) := read_sigchld ext (world st) in
    if got then handle_sigchld (with_world w st) else Ok tt (with_world w st).


(** *** Lookups *)

(** [address_matches (addr1, addr2)]: the two port strings are compared. *)
Definition address_matches (addr1 addr2 : lo_address) : bool :=
  String.eqb (lo_address_get_port addr1) (lo_address_get_port addr2).

(** What a search of the record store by address comes to. For a record
    whose address is the null pointer, [lo_address_get_port] yields a null
    [char *], and building the [std::string] from it throws
    [std::logic_error]: that is [lookup_null]. *)
Inductive lookup :=
| lookup_found (c : Client)
| lookup_none
| lookup_null.

Fixpoint get_client_by_address (addr : lo_address) (l : list Client)
  : lookup :=
  match l with
  | [] => lookup_none
  | c :: r =>
      match m_addr c with
      | None => lookup_null
      | Some a =>
          if address_matches a addr then lookup_found c
          else get_client_by_address addr r
      end
  end.

Definition isupper (c : ascii) : bool :=
  (65 <=? nat_of_ascii c)%nat && (nat_of_ascii c <=? 90)%nat.

(** [is_a_client_id (s)]: the template "nXXXX". *)
Definition is_a_client_id (s : string) : bool :=
  match s with
  | String c0 (String c1 (String c2 (String c3 (String c4 EmptyString)))) =>
      Ascii.eqb c0 "n"%char &&
      (isupper c1 && isupper c2 && isupper c3 && isupper c4)
  | _ => false
  end.

Definition get_client_by_name (cl : list Client) (name : string)
  : option Client :=
  List.find (fun c => String.eqb (m_name c) name) cl.

Definition get_client_by_id (cl : list Client) (id : string)
  : option Client :=
  if is_a_client_id id
  then List.find (fun c => String.eqb (m_client_id c) id) cl
  else get_client_by_name cl id.

Definition get_client_by_name_and_id (cl : list Client) (name id : string)
  : option Client :=
  List.find
    (fun c => String.eqb (m_client_id c) id && String.eqb (m_name c) name)
    cl.

Definition client_by_name (name : string) (cl : list Client)
  : option Client :=
  List.find (fun c => String.eqb (m_name c) name) cl.

Definition clients_have_errors (st : State W) : bool :=
  List.existsb (fun c => m_active c && has_error c) (s_client_list st).

Definition replies_still_pending (st : State W) : bool :=
  List.existsb (fun c => m_active c && reply_pending c) (s_client_list st).

Definition number_of_reponsive_clients (st : State W) : nat :=
  List.length
    (List.filter (fun c => m_active c || negb (m_launch_error c =? 0))
       (s_client_list st)).

(** *** Loops over the record store *)

(** [for (auto & c : s_client_list) body (c)] for a body that writes to
    the record it is given and to other globals, but neither adds to nor
    removes from the list. *)
Fixpoint for_each (body : Client -> State W -> Client * State W)
  (l : list Client) (st : State W) : list Client * State W :=
  match l with
  | [] => ([], st)
  | c :: r =>
      let (c', st1) := body c st in
      let (r', st2) := for_each body r st1 in
      (c' :: r', st2)
  end.

Definition for_each_client (body : Client -> State W -> Client * State W)
  (st : State W) : State W :=
  let (l, st') := for_each body (s_client_list st) st in
  with_client_list l st'.

(** *** Liveness probe and waiting *)

Definition process_is_running (pid : Z) (st : State W) : bool * State W :=
  let (rc, w) := kill ext pid 0 (world st) in
  (rc =? 0, with_world w st).

(** [purge_dead_clients ()] walks a copy of the list of pointers. A
    pointer whose object has been deleted in the meantime would be
    dereferenced all the same. *)
Fixpoint purge_dead_clients_from (tmp : list nat) : M unit :=
  match tmp with
  | [] => ret tt
  | p :: r =>
      let* cur := gets (fun st =>
               List.find (fun c => Nat.eqb (self c) p) (s_client_list st)) in
      match cur with
      | None => stop (halt_undefined "use of a deleted Client")
      | Some c =>
          (if negb (m_pid c =? 0) then
             fun st =>
               let (running, st1) := process_is_running (m_pid c) st in
               if running then Ok tt st1
               else handle_client_process_death (m_pid c) st1
           else ret tt) ;;;
          purge_dead_clients_from r
      end
  end.

Definition purge_dead_clients : M unit :=
  let* tmp := gets (fun st => List.map self (s_client_list st)) in
  purge_dead_clients_from tmp.

(** [wait (timeout)]. *)
Definition wait : M unit :=
  handle_child_signal ;;;
  osc_wait ;;;
  purge_dead_clients.

Fixpoint wait_for_announce_loop (slices : nat) (active : nat) : M nat :=
  match slices with
  | O => ret active
  | S k =>
      wait ;;;
      let* now_active := gets number_of_reponsive_clients in
      let* size := gets (fun st => List.length (s_client_list st)) in
      if Nat.eqb size now_active then ret now_active
      else wait_for_announce_loop k now_active
  end.

(** [wait_for_announce ()]: 5000 ms in slices of 100 ms. *)
Definition wait_for_announce : M unit :=
  lift (gui_msg "Waiting for announcements from clients") ;;;
  let* active := wait_for_announce_loop 50 0 in
  let* size := gets (fun st => List.length (s_client_list st)) in
  lift (gui_msg ("Done. " +:+ pretty active +:+ " out of " +:+ pretty size
                 +:+ " clients announced (or failed to launch) "
                 +:+ "within the initialization grace period")).

Fixpoint wait_for_replies_loop (slices : nat) : M unit :=
  match slices with
  | O => ret tt
  | S k =>
      wait ;;;
      let* pending := gets replies_still_pending in
      if pending then wait_for_replies_loop k else ret tt
  end.

(** [wait_for_replies ()]: 60 s in slices of 100 ms. *)
Definition wait_for_replies : M unit :=
  lift (gui_msg "Waiting for clients to reply to commands") ;;;
  wait_for_replies_loop 600 ;;;
  lift (gui_msg "Done waiting").

(** *** Commands to one client *)

Definition get_client_project_path (session_path : string) (c : Client)
  : string :=
  session_path +:+ "/" +:+ m_name c +:+ "." +:+ m_client_id c.

Definition push_back (c : Client) (st : State W) : State W :=
  with_client_list (s_client_list st ++ [c]) st.

(** [launch (executable, clientid)]. The record is the one of that id, or
    a new one at the end of the list. When [fork] answers 0 the caller is
    the child, which goes on to [execvp]: the daemon's story ends there. *)
Definition launch (executable clientid : string) : M bool :=
  fun st =>
    let (c, st1) :=
      match get_client_by_id (s_client_list st) clientid with
      | Some c => (c, st)
      | None =>
          let base := basename executable in
          let (id, w) :=
            if String.eqb clientid ""
            then generate_client_id ext "n----" (world st)
            else (clientid, world st) in
          let c := new_Client (next_object st) base executable id in
          let c := set_m_name_with_id (m_name c +:+ "." +:+ m_client_id c) c
          in
          (c, push_back c
                (with_next_object (S (next_object st)) (with_world w st)))
      end in
    let (pid, w) := fork ext (world st1) in
    let st2 := with_world w st1 in
    if pid =? 0 then Halt halt_child st2
    else
      let c := set_m_pending_command nsm.start c in
      let c := set_m_pid pid c in
      let c := set_m_launch_error 0 c in
      let c := set_m_status "launch" c in
      let st3 := store c st2 in
      let st3 :=
        gui_send "/nsm/gui/client/new" (m_client_id c) (m_exe_path c) st3 in
      let st3 :=
        gui_send "/nsm/gui/client/status" (m_client_id c) (m_status c) st3
      in
      let st3 := gui_send "/nsm/gui/client/label" (m_client_id c) "" st3 in
      Ok true st3.

Definition command_client_to_save (c : Client) (st : State W)
  : Client * State W :=
  if m_active c then
    let st := send (m_addr c) "/nsm/client/save" [] st in
    let c := set_m_pending_command nsm.save c in
    let c := set_m_status "save" c in
    (c, gui_send "/nsm/gui/client/status" (m_client_id c) (m_status c) st)
  else if is_dumb_client c && (m_pid c >? 0) then
    let c := set_m_status "noop" c in
    (c, gui_send "/nsm/gui/client/status" (m_client_id c) (m_status c) st)
  else (c, st).

Definition command_client_to_switch (new_client_id : string) (c : Client)
  (st : State W) : Client * State W :=
  let old_client_id := m_client_id c in
  let c := set_m_client_id new_client_id c in
  let client_project_path :=
    get_client_project_path (s_session_path st) c in
  let full_client_id := m_name c +:+ "." +:+ m_client_id c in
  let st :=
    send (m_addr c) "/nsm/client/open"
      [arg_s client_project_path; arg_s (s_session_name st);
       arg_s full_client_id] st in
  let c := set_m_pending_command nsm.open c in
  let c := set_m_status "switch" c in
  let st :=
    gui_send "/nsm/gui/client/status" (m_client_id c) (m_status c) st in
  (c, gui_send "/nsm/gui/client/switch" old_client_id (m_client_id c) st).

Definition send_signal (pid sig : Z) (st : State W) : State W :=
  with_world (snd (kill ext pid sig (world st))) st.

Definition command_client_to_stop (c : Client) (st : State W)
  : Client * State W :=
  let st := gui_msg ("Stopping client " +:+ m_name_with_id c) st in
  if m_pid c >? 0 then
    let c := set_m_pending_command nsm.kill c in
    let st := send_signal (m_pid c) SIGTERM st in
    let c := set_m_status "stopped" c in
    (c, gui_send "/nsm/gui/client/status" (m_client_id c) (m_status c) st)
  else (c, st).

Definition command_client_to_quit (c : Client) (st : State W)
  : Client * State W :=
  if m_active c then
    let c := set_m_pending_command nsm.quit c in
    let st := send_signal (m_pid c) SIGTERM st in
    let c := set_m_status "quit" c in
    (c, gui_send "/nsm/gui/client/status" (m_client_id c) (m_status c) st)
  else if is_dumb_client c then
    if m_pid c >? 0 then
      let c := set_m_status "quit" c in
      let st :=
        gui_send "/nsm/gui/client/status" (m_client_id c) (m_status c) st in
      let c := set_m_pending_command nsm.quit c in
      (c, send_signal (m_pid c) SIGTERM st)
    else
      let c := set_m_status "removed" c in
      (c, gui_send "/nsm/gui/client/status" (m_client_id c) (m_status c) st)
  else (c, st).

Definition tell_client_session_is_loaded (c : Client) (st : State W)
  : Client * State W :=
  if m_active c
  then (c, send (m_addr c) "/nsm/client/session_is_loaded" [] st)
  else (c, st).

Definition tell_all_clients_session_is_loaded (st : State W) : State W :=
  for_each_client tell_client_session_is_loaded st.

(** *** Loops that erase while they iterate *)

(** [purge_inactive_clients ()]: after [i = erase (i)] the iterator is on
    the element that followed, and the [++i] of the loop steps over it;
    when the erased element was the last one, [++i] is applied to
    [end ()]. The result is the list of the records that stay. *)
Fixpoint purge_inactive_clients_from (l : list Client)
  : M (list Client) :=
  match l with
  | [] => ret []
  | c :: r =>
      if negb (m_active c) then
        let c := set_m_status "removed" c in
        lift (gui_send "/nsm/gui/client/status" (m_client_id c)
                (m_status c)) ;;;
        match r with
        | [] => stop (halt_undefined "increment of end()")
        | skipped :: r' =>
            let* kept := purge_inactive_clients_from r' in
            ret (skipped :: kept)
        end
      else
        let* kept := purge_inactive_clients_from r in
        ret (c :: kept)
  end.

Definition purge_inactive_clients : M unit :=
  let* l := gets s_client_list in
  let* kept := purge_inactive_clients_from l in
  lift (with_client_list kept).

(** [clear_clients ()]: the same loop, erasing whatever it visits. *)
Fixpoint clear_clients_from (l : list Client) : M (list Client) :=
  match l with
  | [] => ret []
  | _ :: [] => stop (halt_undefined "increment of end()")
  | _ :: skipped :: r' =>
      let* kept := clear_clients_from r' in
      ret (skipped :: kept)
  end.

Definition clear_clients : M unit :=
  let* l := gets s_client_list in
  let* kept := clear_clients_from l in
  lift (with_client_list kept).

(** *** Announce *)

(** The slot a launched client is expected to fill. *)
Definition expected_slot (exe : string) (l : list Client) : option Client :=
  List.find
    (fun ci =>
       String.eqb (m_exe_path ci) exe && negb (m_active ci) &&
       nsm.command_eqb (m_pending_command ci) nsm.start)
    l.

Definition ack_expected : string :=
  "Ack'ed as NSM client (started ourselves)".

Definition ack_outside : string :=
  "Ack'ed as NSM client (registered itself from the outside)".

(** [OSC_HANDLER (announce)]. The handler is registered for the type
    signature [sssiii], so [argc >= 6] holds whenever it runs. *)
Definition osc_announce (src : lo_address) (a : announce_args) : M Z :=
  fun st =>
    let path := "/nsm/server/announce" in
    let st := gui_msg ("Announce from " +:+ an_client_name a) st in
    if String.eqb (s_session_path st) "" then
      Ok osc_msg_handled
        (error_send src path nsm.no_session_open
           "No session open for this application to join" st)
    else
      let slot := expected_slot (an_executable a) (s_client_list st) in
      let expected_client :=
        match slot with Some _ => true | None => false end in
      let (c, st) :=
        match slot with
        | Some ci => (ci, st)
        | None =>
            let c := new_Client (next_object st) "" "" "" in
            let c := set_m_exe_path (an_executable a) c in
            let (id, w) := generate_client_id ext "n----" (world st) in
            (set_m_client_id id c,
             with_next_object (S (next_object st)) (with_world w st))
        end in
      if an_api_major a >? NSM_API_VERSION_MAJOR then
        Ok osc_msg_handled
          (error_send src path nsm.incompatible_api
             "Server is using an incompatible API version" st)
      else
        let c := set_m_pid (an_pid a) c in
        let c := set_m_capabilities (an_capabilities a) c in
        let c := set_m_addr (Some src) c in
        let c := set_m_name (an_client_name a) c in
        let c := set_m_active true c in
        let c := set_m_name_with_id (m_name c +:+ "." +:+ m_client_id c) c in
        let st := if expected_client then st else push_back c st in
        let st :=
          send (Some src) "/reply"
            [arg_s path;
             arg_s (if expected_client then ack_expected else ack_outside);
             arg_s NSMD66_APP_TITLE;
             arg_s ":server-control:broadcast:optional-gui:"] st in
        let c := set_m_status "open" c in
        let st :=
          if s_gui_is_active st then
            let st :=
              gui_send "/nsm/gui/client/new" (m_client_id c) (m_name c) st
            in
            let st :=
              gui_send "/nsm/gui/client/status" (m_client_id c)
                (m_status c) st in
            if is_capable_of c ":optional-gui:"
            then send (Some (s_gui_address st))
                   "/nsm/gui/client/has_optional_gui"
                   [arg_s (m_client_id c)] st
            else st
          else st in
        let full_client_id := m_name c +:+ "." +:+ m_client_id c in
        let client_project_path :=
          get_client_project_path (s_session_path st) c in
        let st :=
          send (Some src) "/nsm/client/open"
            [arg_s client_project_path; arg_s (s_session_name st);
             arg_s full_client_id] st in
        let c := set_m_pending_command nsm.open c in
        Ok osc_msg_handled (store c st).

(** *** Saving *)

Definition session_file_line (c : Client) : string :=
  m_name c +:+ ":" +:+ m_exe_path c +:+ ":" +:+ m_client_id c.

(** [save_session_file ()]: 0 when the manifest was written, 1 when not. *)
Definition save_session_file (st : State W) : Z * State W :=
  let sessionfile := s_session_path st +:+ "/session.nsm" in
  let textlist := List.map session_file_line (s_client_list st) in
  let (result, w) := file_write_lines ext sessionfile textlist (world st) in
  (if result then 0 else 1, with_world w st).

(** The fan-out of [command_all_clients_to_save]. *)
Definition save_fan_out (st : State W) : State W :=
  for_each_client command_client_to_save st.

Definition command_all_clients_to_save : M unit :=
  fun st =>
    if negb (String.eqb (s_session_path st) "") then
      let st := gui_msg "Commanding attached clients to save" st in
      let (save_error, st) := save_session_file st in
      if save_error =? 1 then
        Ok tt
          (gui_msg ("The session file is write-protected; " +:+
                    "will not forward save command to clients") st)
      else wait_for_replies (save_fan_out st)
    else Ok tt st.

(** *** Waiting for clients to die *)

Definition dumb_clients_are_alive (st : State W) : bool :=
  List.existsb (fun c => is_dumb_client c && (m_pid c >? 0))
    (s_client_list st).

Definition killed_clients_are_alive (st : State W) : bool :=
  List.existsb
    (fun c =>
       (nsm.command_eqb (m_pending_command c) nsm.quit ||
        nsm.command_eqb (m_pending_command c) nsm.kill) &&
       (m_pid c >? 0))
    (s_client_list st).

Definition sigkill_the_living (c : Client) (st : State W)
  : Client * State W :=
  if m_pid c >? 0 then (c, send_signal (m_pid c) SIGKILL st) else (c, st).

(** [wait_for_killed_clients_to_die ()]: ten rounds of one second, then
    SIGKILL to every record that still has a PID. *)
Fixpoint wait_for_killed_clients_loop (rounds : nat) : M unit :=
  match rounds with
  | O => lift (for_each_client sigkill_the_living)
  | S k =>
      let* alive := gets killed_clients_are_alive in
      if negb alive then ret tt
      else
        handle_child_signal ;;;
        purge_dead_clients ;;;
        osc_wait ;;;
        wait_for_killed_clients_loop k
  end.

Definition wait_for_killed_clients_to_die : M unit :=
  wait_for_killed_clients_loop 10.

(** *** Closing a session *)

Definition delete_lock_file (filename : string) (st : State W) : State W :=
  with_world (snd (file_delete ext filename (world st))) st.

Definition current_lock_file (st : State W) : string :=
  get_lock_file_name ext (s_lockfile_directory st) (s_session_name st)
    (s_session_path st).

Definition close_session : M unit :=
  let* path := gets s_session_path in
  if negb (String.eqb path "") then
    lift (for_each_client command_client_to_quit) ;;;
    wait_for_killed_clients_to_die ;;;
    purge_inactive_clients ;;;
    clear_clients ;;;
    lift (fun st => delete_lock_file (current_lock_file st) st) ;;;
    lift (with_session_path "") ;;;
    lift (with_session_name "") ;;;
    lift (gui_send "/nsm/gui/session/name" "" "")
  else ret tt.

(** *** Loading a session *)

Definition path_is_valid (path : string) : bool := negb (contains path "..").

Definition session_already_exists (relativepath : string) (st : State W)
  : bool :=
  file_exists ext
    (s_session_root st +:+ "/" +:+ relativepath +:+ "/session.nsm")
    (world st).

Definition set_name (name : string) (st : State W) : State W :=
  with_session_name (filename_base ext name) st.

(** [parse_session_file (sessionfile)]: one new record per row. *)
Fixpoint clients_of_rows (next : nat) (rows : list session_triplet)
  : list Client :=
  match rows with
  | [] => []
  | row :: r =>
      set_m_name_with_id (st_client_name row +:+ "." +:+ st_client_id row)
        (new_Client next (st_client_name row) (st_client_exe row)
           (st_client_id row))
      :: clients_of_rows (S next) r
  end.

Definition parse_session_file (sessionfile : string) (st : State W)
  : list Client * State W :=
  let lineitems := parse_session_lines ext sessionfile (world st) in
  (clients_of_rows (next_object st) lineitems,
   with_next_object (next_object st + List.length lineitems)%nat st).

(** How many instances of each client name the new session needs
    ([client_map], a [std::map<std::string, int>]). *)
Definition count_instances (newclients : list Client) : gmap string Z :=
  fold_left
    (fun (clmap : gmap string Z) nc =>
       match clmap !! m_name nc with
       | Some n => <[m_name nc := n + 1]> clmap
       | None => <[m_name nc := 1]> clmap
       end)
    newclients ∅.

(** The loop that tells the unneeded and the non-switchable to quit. *)
Fixpoint quit_unneeded (clmap : gmap string Z) (l : list Client)
  (st : State W) : list Client * State W :=
  match l with
  | [] => ([], st)
  | c :: r =>
      let switchable := is_capable_of c ":switch:" in
      match clmap !! m_name c with
      | Some n =>
          if negb switchable then
            let (c', st1) := command_client_to_quit c st in
            let (r', st2) := quit_unneeded clmap r st1 in
            (c' :: r', st2)
          else
            let clmap' := <[m_name c := n - 1]> clmap in
            let (c', st1) :=
              if n <=? 0 then command_client_to_quit c st else (c, st) in
            let (r', st2) := quit_unneeded clmap' r st1 in
            (c' :: r', st2)
      | None =>
          let (c', st1) := command_client_to_quit c st in
          let (r', st2) := quit_unneeded clmap r st1 in
          (c' :: r', st2)
      end
  end.

Definition mark_pre_existing (c : Client) (st : State W)
  : Client * State W :=
  (set_m_pre_existing true c, st).

(** The body of the loop over the rows of the new session: switch a
    record that is already there, or launch. *)
Definition switch_or_launch (nc : Client) : M unit :=
  fun st =>
    let c :=
      match get_client_by_name_and_id (s_client_list st) (m_name nc)
              (m_client_id nc) with
      | Some c => Some c
      | None => client_by_name (m_name nc) (s_client_list st)
      end in
    match c with
    | Some c =>
        if m_pre_existing c && negb (reply_pending c) then
          let (c', st') := command_client_to_switch (m_client_id nc) c st in
          Ok tt (store c' st')
        else (launch (m_exe_path nc) (m_client_id nc) ;;; ret tt) st
    | None => (launch (m_exe_path nc) (m_client_id nc) ;;; ret tt) st
    end.

Fixpoint switch_or_launch_all (newclients : list Client) : M unit :=
  match newclients with
  | [] => ret tt
  | nc :: r => switch_or_launch nc ;;; switch_or_launch_all r
  end.

(** What [load_session_file] does once the lock check has passed. *)
Definition load_unlocked_session (path relativepath sessionlock : string)
  : M nsm.error :=
  fun st =>
    let sessionfile := path +:+ "/session.nsm" in
    let (newclients, st) := parse_session_file sessionfile st in
    match newclients with
    | [] => Ok nsm.create_failed st
    | _ :: _ =>
        let st := with_session_path path st in
        let clmap := count_instances newclients in
        let (l, st) := quit_unneeded clmap (s_client_list st) st in
        let st := with_client_list l st in
        (wait_for_killed_clients_to_die ;;;
         purge_inactive_clients ;;;
         lift (for_each_client mark_pre_existing) ;;;
         switch_or_launch_all newclients ;;;
         wait_for_announce ;;;
         wait_for_replies ;;;
         lift tell_all_clients_session_is_loaded ;;;
         lift (fun st =>
                 with_world
                   (snd (write_lock_file ext sessionlock (s_session_path st)
                           (server_url st) (world st))) st) ;;;
         lift (fun st =>
                 if s_gui_is_active st
                 then gui_send "/nsm/gui/session/name" (s_session_name st)
                        relativepath st
                 else st) ;;;
         ret nsm.ok) st
    end.

(** The lock of the session that is open is given up before another
    session is looked at ("already in a session: this is a switch, or a
    load during duplicate"). *)
Definition release_own_lock (st : State W) : State W :=
  let havepath := negb (String.eqb (s_session_path st) "") in
  let havename := negb (String.eqb (s_session_name st) "") in
  if havepath && havename
  then delete_lock_file (current_lock_file st) st
  else st.

(** [load_session_file (path)]. *)
Definition load_session_file (path : string) : M nsm.error :=
  fun st =>
    match substr path (String.length (s_session_root st) + 1) with
    | None => Halt (halt_throw "std::out_of_range") st
    | Some relativepath =>
        if negb (session_already_exists relativepath st)
        then Ok nsm.no_such_file st
        else
          let st := release_own_lock st in
          let st := set_name path st in
          let sessionlock :=
            get_lock_file_name ext (s_lockfile_directory st)
              (s_session_name st) path in
          if file_exists ext sessionlock (world st)
          then Ok nsm.session_locked st
          else load_unlocked_session path relativepath sessionlock st
    end.

(** *** The handlers of the orchestration requests *)

Definition dquote : string := String (Ascii.ascii_of_nat 34) EmptyString.

Definition latch_is_free (st : State W) : bool :=
  nsm.command_eqb (s_pending_operation st) nsm.none.

(** The refusal every orchestration handler opens with. *)
Definition refuse_pending (src : lo_address) (path : string) : M Z :=
  lift (error_send_ex src path nsm.operation_pending "An operation pending")
  ;;; ret osc_msg_handled.

(** A reply, the latch released, the message handled. *)
Definition abandon (src : lo_address) (path : string) (code : nsm.error)
  (text : string) : M Z :=
  lift (error_send_ex src path code text) ;;;
  lift (with_pending_operation nsm.none) ;;;
  ret osc_msg_handled.

(** [OSC_HANDLER (save)]. *)
Definition osc_save (src : lo_address) : M Z :=
  let path := "/nsm/server/save" in
  let* free := gets latch_is_free in
  if negb free then refuse_pending src path
  else
    let* session := gets s_session_path in
    if String.eqb session "" then
      abandon src path nsm.no_session_open "No session to save"
    else
      command_all_clients_to_save ;;;
      lift (reply_send_ex src path "Saved") ;;;
      lift (with_pending_operation nsm.none) ;;;
      ret osc_msg_handled.

(** [OSC_HANDLER (duplicate)], registered for one string. *)
Definition osc_duplicate (src : lo_address) (name : string) : M Z :=
  let path := "/nsm/server/duplicate" in
  let* free := gets latch_is_free in
  if negb free then refuse_pending src path
  else
    lift (with_pending_operation nsm.duplicate) ;;;
    let* session := gets s_session_path in
    if String.eqb session "" then
      abandon src path nsm.no_session_open "No session to save"
    else if negb (path_is_valid name) then
      abandon src path nsm.create_failed "Invalid session name"
    else
    let* exists_already := gets (session_already_exists name) in
    if exists_already then
      abandon src path nsm.create_failed "Session name already exists"
    else
      command_all_clients_to_save ;;;
      let* errors := gets clients_have_errors in
      if errors then
        abandon src path nsm.general "Some clients could not save"
      else
        let* root := gets s_session_root in
        let spath := root +:+ "/" +:+ name in
        lift (fun st =>
                with_world (snd (mkpath ext spath false (world st))) st) ;;;
        lift (fun st =>
                with_world
                  (snd (fts_copy_directory ext (s_session_path st) spath
                          (world st))) st) ;;;
        lift (fun st =>
                if s_gui_is_active st
                then send (Some (s_gui_address st))
                       "/nsm/gui/session/session" [arg_s name] st
                else st) ;;;
        let* err := load_session_file spath in
        match err with
        | nsm.ok =>
            lift (reply_send_ex src path "Loaded") ;;;
            lift (reply_send_ex src path "Duplicated") ;;;
            lift (with_pending_operation nsm.none) ;;;
            ret osc_msg_handled
        | _ =>
            lift (error_send_ex src path nsm.no_such_file "No such file") ;;;
            lift (with_pending_operation nsm.none) ;;;
            ret (-1)
        end.

(** [OSC_HANDLER (newsrv)], registered for one string. The relative path
    told to the GUI is cut out of [path], the OSC path of the request. *)
Definition osc_newsrv (src : lo_address) (name : string) : M Z :=
  let path := "/nsm/server/new" in
  let* free := gets latch_is_free in
  if negb free then refuse_pending src path
  else
    lift (with_pending_operation nsm.new_session) ;;;
    if negb (path_is_valid name) then
      abandon src path nsm.create_failed "Invalid session name"
    else
    let* exists_already := gets (session_already_exists name) in
    if exists_already then
      abandon src path nsm.create_failed "Session name already exists"
    else
      let* session := gets s_session_path in
      (if negb (String.eqb session "")
       then command_all_clients_to_save ;;; close_session
       else ret tt) ;;;
      lift (gui_msg ("Creating new session " +:+ dquote +:+ name +:+ dquote))
      ;;;
      let* root := gets s_session_root in
      let spath := root +:+ "/" +:+ name in
      let* made := (fun st =>
                      let (made, w) := mkpath ext spath true (world st) in
                      Ok made (with_world w st)) in
      if negb made then
        abandon src path nsm.create_failed
          "Could not create session directory"
      else
        lift (with_session_path spath) ;;;
        lift (set_name spath) ;;;
        lift (fun st =>
                with_world
                  (snd (write_lock_file ext (current_lock_file st)
                          (s_session_path st) (server_url st) (world st)))
                  st) ;;;
        lift (reply_send_ex src path "Created.") ;;;
        let* gui := gets s_gui_is_active in
        (if gui then
           lift (gui_send "/nsm/gui/session/session" name "") ;;;
           match substr path (String.length root + 1) with
           | None => stop (halt_throw "std::out_of_range")
           | Some relativepath =>
               lift (fun st =>
                       gui_send "/nsm/gui/session/name" (s_session_name st)
                         relativepath st)
           end
         else ret tt) ;;;
        lift (fun st => snd (save_session_file st)) ;;;
        lift (reply_send_ex src path "Session created") ;;;
        lift (with_pending_operation nsm.none) ;;;
        ret osc_msg_handled.

Definition load_error_text (err : nsm.error) : string :=
  match err with
  | nsm.create_failed => "Could not create session file"
  | nsm.session_locked => "Session is locked by another process"
  | nsm.no_such_file => "The named session does not exist"
  | _ => "Unknown error"
  end.

(** The opening of [OSC_HANDLER (open)], once the latch was found free:
    the latch is taken and, when a session is open, its clients are told
    to save. The answer is false when some client reported an error. *)
Definition open_saves_first : M bool :=
  lift (with_pending_operation nsm.open) ;;;
  let* session := gets s_session_path in
  if negb (String.eqb session "") then
    command_all_clients_to_save ;;;
    let* errors := gets clients_have_errors in
    ret (negb errors)
  else ret true.

(** [OSC_HANDLER (open)], registered for one string. *)
Definition osc_open (src : lo_address) (name : string) : M Z :=
  let path := "/nsm/server/open" in
  lift (gui_msg ("Opening session " +:+ name)) ;;;
  let* free := gets latch_is_free in
  if negb free then refuse_pending src path
  else
    let* saved := open_saves_first in
    if negb saved then
      abandon src path nsm.general "Some clients could not save"
    else
      let* root := gets s_session_root in
      let spath := root +:+ "/" +:+ name in
      let* err := load_session_file spath in
      (match err with
       | nsm.ok => lift (reply_send_ex src path "Loaded")
       | _ => lift (error_send_ex src path err (load_error_text err))
       end) ;;;
      lift (with_pending_operation nsm.none) ;;;
      ret osc_msg_handled.

(** [handle_signal_clean_exit (sig)]. *)
Definition handle_signal_clean_exit : M Z :=
  close_session ;;;
  lift (fun st =>
          with_world (snd (file_delete ext (s_daemon_file st) (world st)))
            st) ;;;
  stop (halt_exit 0).

(** [OSC_HANDLER (quit)]. *)
Definition osc_quit : M Z :=
  close_session ;;; handle_signal_clean_exit.

(** [OSC_HANDLER (abort)]. *)
Definition osc_abort (src : lo_address) : M Z :=
  let path := "/nsm/server/abort" in
  let* free := gets latch_is_free in
  if negb free then refuse_pending src path
  else
    lift (with_pending_operation nsm.close) ;;;
    let* session := gets s_session_path in
    if String.eqb session "" then
      abandon src path nsm.no_session_open "No session to abort"
    else
      lift (gui_msg "Commanding clients to quit") ;;;
      close_session ;;;
      lift (reply_send_ex src path "Aborted") ;;;
      lift (with_pending_operation nsm.none) ;;;
      ret osc_msg_handled.

(** [OSC_HANDLER (close)]. *)
Definition osc_close (src : lo_address) : M Z :=
  let path := "/nsm/server/close" in
  let* free := gets latch_is_free in
  if negb free then refuse_pending src path
  else
    lift (with_pending_operation nsm.close) ;;;
    let* session := gets s_session_path in
    if String.eqb session "" then
      abandon src path nsm.no_session_open "No session to close"
    else
      command_all_clients_to_save ;;;
      lift (gui_msg "Commanding clients to close") ;;;
      close_session ;;;
      lift (reply_send_ex src path "Closed") ;;;
      lift (with_pending_operation nsm.none) ;;;
      ret osc_msg_handled.

(** *** Listing the sessions *)

(** The values of <fts.h>; ordinals, which the handler tests with [&]. *)
Definition FTS_D : Z := 1.
Definition FTS_DP : Z := 6.
Definition FTS_F : Z := 8.

(** What the handler reads of an [FTSENT]. An entry is identified by its
    path: the pre-order and the post-order visit of a directory hand out
    the same structure, and [fts_parent] of a file is the structure of
    the directory that holds it. *)
Record FTSENT := {
  fts_info : Z;
  fts_path : string;
  fts_name : string;
  fts_parent : string
}.

Definition node_name (n : fsnode) : string :=
  match n with
  | fs_file name => name
  | fs_dir name _ => name
  end.

Definition node_info (n : fsnode) : Z :=
  match n with
  | fs_file _ => FTS_F
  | fs_dir _ _ => FTS_D
  end.

Definition strcmp (a b : string) : Z :=
  match String.compare a b with
  | Lt => -1
  | Eq => 0
  | Gt => 1
  end.

Definition fts_comparer_to_process_files_before_dirs (first second : fsnode)
  : Z :=
  if negb (Z.land (node_info first) FTS_F =? 0) then -1
  else if negb (Z.land (node_info second) FTS_F =? 0) then 1
  else strcmp (node_name first) (node_name second).

(** The order fts gives to the entries of one directory: they are sorted
    with the comparison function. *)
Fixpoint fts_insert (x : fsnode) (l : list fsnode) : list fsnode :=
  match l with
  | [] => [x]
  | y :: r =>
      if fts_comparer_to_process_files_before_dirs x y <=? 0
      then x :: y :: r
      else y :: fts_insert x r
  end.

Definition fts_sort (l : list fsnode) : list fsnode :=
  fold_right fts_insert [] l.

Fixpoint fts_order (n : fsnode) : fsnode :=
  match n with
  | fs_file name => fs_file name
  | fs_dir name entries => fs_dir name (fts_sort (List.map fts_order entries))
  end.

(** The loop around [fts_read]: a directory is handed to [visit] before
    its entries (as [FTS_D]) and after them (as [FTS_DP]); when the first
    visit asks for [FTS_SKIP] the entries are left out. [visit] threads
    the local variables of the caller. *)
Fixpoint fts_walk {A : Type} (visit : FTSENT -> A -> M (A * bool))
  (parent path : string) (n : fsnode) (acc : A) : M A :=
  match n with
  | fs_file name =>
      let* r := visit {| fts_info := FTS_F; fts_path := path;
                         fts_name := name; fts_parent := parent |} acc in
      ret (fst r)
  | fs_dir name entries =>
      let* r := visit {| fts_info := FTS_D; fts_path := path;
                         fts_name := name; fts_parent := parent |} acc in
      let* acc :=
        (if snd r then ret (fst r)
         else
           (fix entries_walk (l : list fsnode) (acc : A) : M A :=
              match l with
              | [] => ret acc
              | e :: rest =>
                  let* acc :=
                    fts_walk visit path (path +:+ "/" +:+ node_name e) e acc
                  in
                  entries_walk rest acc
              end) entries (fst r)) in
      let* r := visit {| fts_info := FTS_DP; fts_path := path;
                         fts_name := name; fts_parent := parent |} acc in
      ret (fst r)
  end.

Definition same_entry (a : option string) (b : string) : bool :=
  match a with
  | Some p => String.eqb p b
  | None => false
  end.

(** The body of the loop of [OSC_HANDLER (list)] for one entry;
    [currentsession] is the local variable of that name, [path] the OSC
    path of the request. The answer carries the tail of [path]. *)
Definition list_visit (path : string) (ent : FTSENT)
  (currentsession : option string) : M (option string * bool) :=
  if negb (Z.land (fts_info ent) FTS_D =? 0) then
    match currentsession with
    | Some _ => ret (currentsession, true)
    | None => ret (currentsession, false)
    end
  else if negb (Z.land (fts_info ent) FTS_DP =? 0) then
    if same_entry currentsession (fts_path ent)
    then ret (None, false)
    else ret (currentsession, false)
  else if negb (Z.land (fts_info ent) FTS_F =? 0) then
    if strcompare "session.nsm" (basename (fts_path ent)) then
      let* root := gets s_session_root in
      match substr path (String.length root + 1) with
      | None => stop (halt_throw "std::out_of_range")
      | Some rest =>
          lift (fun st =>
                  send (s_list_response_address st) "/reply"
                    [arg_s "/nsm/server/list"; arg_s rest] st) ;;;
          ret (Some (fts_parent ent), false)
      end
    else ret (currentsession, false)
  else ret (currentsession, false).

(** [OSC_HANDLER (list)]. *)
Definition osc_list (src : lo_address) : M Z :=
  let path := "/nsm/server/list" in
  lift (gui_msg "Listing sessions") ;;;
  lift (with_list_response_address (Some src)) ;;;
  let* root := gets s_session_root in
  let* tree := gets (fun st => fts_open ext root (world st)) in
  match tree with
  | None => stop (halt_exit 1)
  | Some t =>
      fts_walk (list_visit path) "" root (fts_order t) None ;;;
      lift (fun st =>
              send (s_list_response_address st) "/reply"
                [arg_s "/nsm/server/list"; arg_s ""] st) ;;;
      ret osc_msg_handled
  end.

(** *** Broadcast *)

(** The arguments that are copied: those of type [s], [i] and [f]. *)
Definition forwarded (a : lo_arg) : bool :=
  match a with
  | arg_s _ | arg_i _ | arg_f _ => true
  | arg_other _ => false
  end.

Definition relay_to_client (sender_url to_path : string)
  (new_args : list lo_arg) (c : Client) (st : State W) : Client * State W :=
  match m_addr c with
  | None => (c, st)
  | Some a =>
      if strcompare sender_url (lo_address_get_url a)
      then (c, send (Some a) to_path new_args st)
      else (c, st)
  end.

(** [OSC_HANDLER (broadcast)]. The first argument is the target path, a
    string; a message without one is not for this handler. *)
Definition osc_broadcast (src : lo_address) (argv : list lo_arg) : M Z :=
  let path := "/nsm/server/broadcast" in
  match argv with
  | arg_s to_path :: rest =>
      if negb (strncompare ext to_path "/nsm/") then ret osc_msg_handled
      else
        let new_args := List.filter forwarded rest in
        let sender_url := lo_address_get_url src in
        lift (for_each_client (relay_to_client sender_url to_path new_args))
        ;;;
        lift (fun st =>
                if s_gui_is_active st then
                  if strcompare (lo_address_get_url (s_gui_address st))
                       sender_url
                  then send (Some (s_gui_address st)) path
                         (arg_s to_path :: new_args) st
                  else st
                else st) ;;;
        ret osc_msg_handled
  | _ => ret (-1)
  end.

(** *** Replies of the clients *)

(** The record of the sender of a message. The handlers of [/reply] and
    [/error] that follow are defined in the daemon, but [add_methods]
    does not register them: no message is routed to them by
    [dispatch]. *)
Definition client_of_source (src : lo_address) : M (option Client) :=
  let* l := gets s_client_list in
  match get_client_by_address src l with
  | lookup_found c => ret (Some c)
  | lookup_none => ret None
  | lookup_null => stop (halt_throw "std::logic_error")
  end.





(** *** The GUI connection *)

Definition with_gui_address (v : lo_address) (st : State W) : State W :=
  {| s_client_list := s_client_list st; s_gui_address := v;
     s_gui_is_active := s_gui_is_active st;
     s_session_root := s_session_root st;
     s_session_path := s_session_path st;
     s_session_name := s_session_name st;
     s_lockfile_directory := s_lockfile_directory st;
     s_daemon_file := s_daemon_file st;
     s_pending_operation := s_pending_operation st;
     s_list_response_address := s_list_response_address st;
     server_url := server_url st; next_object := next_object st;
     sent := sent st; world := world st |}.

Definition with_gui_is_active (v : bool) (st : State W) : State W :=
  {| s_client_list := s_client_list st; s_gui_address := s_gui_address st;
     s_gui_is_active := v;
     s_session_root := s_session_root st;
     s_session_path := s_session_path st;
     s_session_name := s_session_name st;
     s_lockfile_directory := s_lockfile_directory st;
     s_daemon_file := s_daemon_file st;
     s_pending_operation := s_pending_operation st;
     s_list_response_address := s_list_response_address st;
     server_url := server_url st; next_object := next_object st;
     sent := sent st; world := world st |}.

(** A message for the GUI, sent when one is attached
    ([if (s_gui_is_active) s_osc_server->send (s_gui_address, ...)]). *)
Definition to_gui (path : string) (args : list lo_arg) (st : State W)
  : State W :=
  if s_gui_is_active st then send (Some (s_gui_address st)) path args st
  else st.

(** What [announce_gui] tells the GUI about one record. *)
Definition gui_client_report (c : Client) (st : State W) : State W :=
  let gui := Some (s_gui_address st) in
  let st :=
    send gui "/nsm/gui/client/new"
      [arg_s (m_client_id c); arg_s (m_exe_path c)] st in
  let st :=
    if negb (String.eqb (m_status c) "")
    then send gui "/nsm/gui/client/status"
           [arg_s (m_client_id c); arg_s (m_status c)] st
    else st in
  let st :=
    if is_capable_of c ":optional-gui:"
    then send gui "/nsm/gui/client/has_optional_gui"
           [arg_s (m_client_id c)] st
    else st in
  let st :=
    if negb (String.eqb (m_label c) "")
    then send gui "/nsm/gui/client/label"
           [arg_s (m_client_id c); arg_s (m_label c)] st
    else st in
  if m_active c
  then send gui "/nsm/gui/client/new"
         [arg_s (m_client_id c); arg_s (m_name c)] st
  else st.

(** [announce_gui (url, is_reply)]. The address is given in the place of
    its URL, from which the function builds it first. *)
Definition announce_gui (addr : lo_address) (is_reply : bool) : M unit :=
  lift (with_gui_address addr) ;;;
  lift (with_gui_is_active true) ;;;
  lift (fun st =>
          send (Some (s_gui_address st))
            (if is_reply then "/nsm/gui/gui_announce"
             else "/nsm/gui/server_announce")
            [arg_s "hi"] st) ;;;
  lift (fun st =>
          send (Some (s_gui_address st)) "/nsm/gui/session/root"
            [arg_s (s_session_root st)] st) ;;;
  let* name := gets s_session_name in
  if String.eqb name "" then
    lift (fun st =>
            send (Some (s_gui_address st)) "/nsm/gui/session/name"
              [arg_s ""; arg_s ""] st)
  else
    lift (fun st =>
            fold_left (fun s c => gui_client_report c s) (s_client_list st)
              st) ;;;
    let* path := gets s_session_path in
    let* root := gets s_session_root in
    match substr path (String.length root + 1) with
    | None => stop (halt_throw "std::out_of_range")
    | Some relativepath =>
        lift (fun st =>
                send (Some (s_gui_address st)) "/nsm/gui/session/name"
                  [arg_s (s_session_name st); arg_s relativepath] st)
    end.

(** [OSC_HANDLER (gui_announce)]. *)
Definition osc_gui_announce (src : lo_address) : M Z :=
  announce_gui src true ;;; ret osc_msg_handled.

(** [OSC_HANDLER (ping)]: [path] is the OSC path of the request. *)
Definition osc_ping (src : lo_address) (path : string) : M Z :=
  lift (send (Some src) "/reply" [arg_s path]) ;;; ret osc_msg_handled.

(** *** What the clients tell about themselves *)

Definition set_m_progress (v : Z) (c : Client) : Client :=
  {| self := self c; m_reply_errcode := m_reply_errcode c;
     m_reply_message := m_reply_message c;
     m_pending_command := m_pending_command c;
     m_gui_visible := m_gui_visible c; m_label := m_label c;
     m_addr := m_addr c; m_name := m_name c; m_exe_path := m_exe_path c;
     m_pid := m_pid c; m_progress := v; m_active := m_active c;
     m_client_id := m_client_id c; m_capabilities := m_capabilities c;
     m_dirty := m_dirty c; m_pre_existing := m_pre_existing c;
     m_status := m_status c; m_launch_error := m_launch_error c;
     m_name_with_id := m_name_with_id c |}.

Definition set_m_dirty (v : bool) (c : Client) : Client :=
  {| self := self c; m_reply_errcode := m_reply_errcode c;
     m_reply_message := m_reply_message c;
     m_pending_command := m_pending_command c;
     m_gui_visible := m_gui_visible c; m_label := m_label c;
     m_addr := m_addr c; m_name := m_name c; m_exe_path := m_exe_path c;
     m_pid := m_pid c; m_progress := m_progress c; m_active := m_active c;
     m_client_id := m_client_id c; m_capabilities := m_capabilities c;
     m_dirty := v; m_pre_existing := m_pre_existing c;
     m_status := m_status c; m_launch_error := m_launch_error c;
     m_name_with_id := m_name_with_id c |}.

Definition set_m_gui_visible (v : bool) (c : Client) : Client :=
  {| self := self c; m_reply_errcode := m_reply_errcode c;
     m_reply_message := m_reply_message c;
     m_pending_command := m_pending_command c;
     m_gui_visible := v; m_label := m_label c;
     m_addr := m_addr c; m_name := m_name c; m_exe_path := m_exe_path c;
     m_pid := m_pid c; m_progress := m_progress c; m_active := m_active c;
     m_client_id := m_client_id c; m_capabilities := m_capabilities c;
     m_dirty := m_dirty c; m_pre_existing := m_pre_existing c;
     m_status := m_status c; m_launch_error := m_launch_error c;
     m_name_with_id := m_name_with_id c |}.

(** A [bool] handed to [send] travels as an [int]. *)
Definition arg_of_bool (b : bool) : lo_arg := arg_i (if b then 1 else 0).

(** The pattern the informational handlers share: the record of the
    source is looked up, written, and the GUI is told. *)
Definition client_tells (src : lo_address) (write : Client -> Client)
  (gui_path : string) (gui_args : Client -> list lo_arg) : M Z :=
  let* found := client_of_source src in
  match found with
  | Some c =>
      let c := write c in
      lift (store c) ;;;
      lift (to_gui gui_path (arg_s (m_client_id c) :: gui_args c)) ;;;
      ret osc_msg_handled
  | None => ret osc_msg_handled
  end.

(** [OSC_HANDLER (progress)], for a message that carries a float. *)
Definition osc_progress (src : lo_address) (progress : Z) : M Z :=
  client_tells src (set_m_progress progress) "/nsm/gui/client/progress"
    (fun c => [arg_f (m_progress c)]).

(** [OSC_HANDLER (is_dirty)] and [OSC_HANDLER (is_clean)]. *)
Definition osc_is_dirty (src : lo_address) : M Z :=
  client_tells src (set_m_dirty true) "/nsm/gui/client/dirty"
    (fun c => [arg_of_bool (m_dirty c)]).

Definition osc_is_clean (src : lo_address) : M Z :=
  client_tells src (set_m_dirty false) "/nsm/gui/client/dirty"
    (fun c => [arg_of_bool (m_dirty c)]).

(** [OSC_HANDLER (gui_is_hidden)] and [OSC_HANDLER (gui_is_shown)]. *)
Definition osc_gui_is_hidden (src : lo_address) : M Z :=
  client_tells src (set_m_gui_visible false) "/nsm/gui/client/gui_visible"
    (fun c => [arg_of_bool (m_gui_visible c)]).

Definition osc_gui_is_shown (src : lo_address) : M Z :=
  client_tells src (set_m_gui_visible true) "/nsm/gui/client/gui_visible"
    (fun c => [arg_of_bool (m_gui_visible c)]).

(** [OSC_HANDLER (message)], for an integer and a string. *)
Definition osc_message (src : lo_address) (priority : Z) (text : string)
  : M Z :=
  let* found := client_of_source src in
  match found with
  | Some c =>
      lift (to_gui "/nsm/gui/client/message"
              [arg_s (m_client_id c); arg_i priority; arg_s text]) ;;;
      ret osc_msg_handled
  | None => ret osc_msg_handled
  end.

(** The type signature of a list of arguments. *)
Definition typespec (argv : list lo_arg) : string :=
  string_of_list_ascii
    (List.map
       (fun a =>
          match a with
          | arg_s _ => "s"%char
          | arg_i _ => "i"%char
          | arg_f _ => "f"%char
          | arg_other ty => ty
          end)
       argv).

(** [OSC_HANDLER (label)]. The handler looks at the number of arguments
    first, at the record of the source next, and at the type signature
    last. *)
Definition osc_label (src : lo_address) (argv : list lo_arg) : M Z :=
  match argv with
  | [] => ret (-1)
  | a :: _ =>
      let* found := client_of_source src in
      match found with
      | Some c =>
          if negb (strcompare (typespec argv) "s") then ret (-1)
          else
            match a with
            | arg_s text =>
                let c := set_m_label text c in
                lift (store c) ;;;
                lift (to_gui "/nsm/gui/client/label"
                        [arg_s (m_client_id c); arg_s (m_label c)]) ;;;
                ret osc_msg_handled
            | _ => ret (-1)
            end
      | None => ret osc_msg_handled
      end
  end.

(** *** What the GUI asks for one client *)

(** [OSC_HANDLER (stop)]. *)
Definition osc_stop (src : lo_address) : M Z :=
  let* found := client_of_source src in
  match found with
  | Some c =>
      lift (fun st =>
              let (c', st') := command_client_to_stop c st in
              store c' st') ;;;
      lift (to_gui "/reply" [arg_s "Client stopped"]) ;;;
      ret osc_msg_handled
  | None =>
      lift (to_gui "/error" [arg_i (-10); arg_s "No such client."]) ;;;
      ret osc_msg_handled
  end.

(** [OSC_HANDLER (remove)]. *)
Definition osc_remove (src : lo_address) : M Z :=
  let* found := client_of_source src in
  match found with
  | Some c =>
      if (m_pid c =? 0) && negb (m_active c) then
        let c := set_m_status "removed" c in
        lift (store c) ;;;
        lift (gui_send "/nsm/gui/client/status" (m_client_id c)
                (m_status c)) ;;;
        lift (fun st =>
                with_client_list (remove_client (self c) (s_client_list st))
                  st) ;;;
        lift (to_gui "/reply" [arg_s "Client removed"]) ;;;
        ret osc_msg_handled
      else ret osc_msg_handled
  | None =>
      lift (to_gui "/error" [arg_i (-10); arg_s "No such client"]) ;;;
      ret osc_msg_handled
  end.

(** [OSC_HANDLER (resume)]. *)
Definition osc_resume (src : lo_address) : M Z :=
  let* found := client_of_source src in
  match found with
  | Some c =>
      if (m_pid c =? 0) && negb (m_active c) then
        launch (m_exe_path c) (m_client_id c) ;;; ret osc_msg_handled
      else ret osc_msg_handled
  | None => ret osc_msg_handled
  end.

(** [OSC_HANDLER (client_save)]. *)
Definition osc_client_save (src : lo_address) : M Z :=
  let* found := client_of_source src in
  match found with
  | Some c =>
      if m_active c then
        lift (fun st =>
                let (c', st') := command_client_to_save c st in
                store c' st') ;;;
        ret osc_msg_handled
      else ret osc_msg_handled
  | None => ret osc_msg_handled
  end.

(** [OSC_HANDLER (client_show_optional_gui)] and
    [OSC_HANDLER (client_hide_optional_gui)]. *)
Definition osc_client_show_optional_gui (src : lo_address) : M Z :=
  let* found := client_of_source src in
  match found with
  | Some c =>
      if m_active c then
        lift (send (m_addr c) "/nsm/client/show_optional_gui" []) ;;;
        ret osc_msg_handled
      else ret osc_msg_handled
  | None => ret osc_msg_handled
  end.

Definition osc_client_hide_optional_gui (src : lo_address) : M Z :=
  let* found := client_of_source src in
  match found with
  | Some c =>
      if m_active c then
        lift (send (m_addr c) "/nsm/client/hide_optional_gui" []) ;;;
        ret osc_msg_handled
      else ret osc_msg_handled
  | None => ret osc_msg_handled
  end.

(** *** Launching on request *)

(** [OSC_HANDLER (add)], for a message that carries the name of an
    executable. The call [launch (clientname, NULL)] binds the null
    pointer to a [const std::string &]: the string is built from it, which
    throws [std::logic_error] before [launch] is entered. *)
Definition osc_add (src : lo_address) (clientname : string) : M Z :=
  let path := "/nsm/server/add" in
  let* session_path := gets s_session_path in
  if String.eqb session_path "" then
    lift (error_send src path nsm.no_session_open
            "Cannot add to session because no session is loaded") ;;;
    ret osc_msg_handled
  else if name_has_path ext clientname then
    lift (error_send src path nsm.launch_failed
            "Paths not permitted; clients must be in $PATH") ;;;
    ret osc_msg_handled
  else stop (halt_throw "std::logic_error").

(** [OSC_HANDLER (null)]: a warning on the console. *)
Definition osc_null : M Z := ret osc_msg_handled.

(** *** The method table *)

(** [add_methods ()]: the handler that each message is handed to. *)
Definition dispatch (m : osc_in) : M Z :=
  match m with
  | in_progress src progress => osc_progress src progress
  | in_is_dirty src => osc_is_dirty src
  | in_is_clean src => osc_is_clean src
  | in_message src priority text => osc_message src priority text
  | in_gui_is_hidden src => osc_gui_is_hidden src
  | in_gui_is_shown src => osc_gui_is_shown src
  | in_label src argv => osc_label src argv
  | in_gui_announce src => osc_gui_announce src
  | in_stop src => osc_stop src
  | in_remove src => osc_remove src
  | in_resume src => osc_resume src
  | in_client_save src => osc_client_save src
  | in_client_show_optional_gui src => osc_client_show_optional_gui src
  | in_client_hide_optional_gui src => osc_client_hide_optional_gui src
  | in_ping src path => osc_ping src path
  | in_announce src a => osc_announce src a
  | in_broadcast src argv => osc_broadcast src argv
  | in_duplicate src name => osc_duplicate src name
  | in_abort src => osc_abort src
  | in_list src => osc_list src
  | in_add src executable_name => osc_add src executable_name
  | in_new src name => osc_newsrv src name
  | in_save src => osc_save src
  | in_open src name => osc_open src name
  | in_close src => osc_close src
  | in_quit _ => osc_quit
  | in_null _ => osc_null
  end.

Fixpoint dispatch_all (ms : list osc_in) : M unit :=
  match ms with
  | [] => ret tt
  | m :: r => dispatch m ;;; dispatch_all r
  end.
End Daemon.

(** ** The server loop

    [s_osc_server->wait] hands the arrived messages to the handlers, and
    a handler that waits calls it again from inside: [depth] bounds that
    nesting. At depth 0 the call returns at once, what has arrived stays
    queued. *)
Fixpoint osc_server_wait {W : Type} (ext : Externals W) (depth : nat)
  (st : State W) : result W unit :=
  match depth with
  | O => Ok tt st
  | S d =>
      let (ms, w) := osc_recv ext (world st) in
      dispatch_all ext (osc_server_wait ext d) ms (with_world w st)
  end.

(** * jackpatch66: the patch engine *)

Module jackpatch.

(** [client_port], [patch_record], [port_record] of jackpatch66.hpp. *)
Record client_port := { client : string; port : string }.

Record patch_record := {
  pr_src : client_port;
  pr_dst : client_port;
  pr_active : bool
}.

Record port_record := { port_name : string }.

Definition EEXIST : Z := 17.

(** The JACK library as the engine meets it. [J] is the state of the
    JACK graph. [extract_client_port] is [nsm::extract_client_port] of
    the nsm66 library: the client and the port of a full port name. *)
Record Jack (J : Type) := {
  jack_connect : string -> string -> J -> Z * J;
  extract_client_port : string -> option (string * string)
}.

Arguments jack_connect {J}.
Arguments extract_client_port {J}.

(** The globals of jackpatch66.cpp that the engine works on, and the
    record of the calls made to [jack_connect], oldest first. *)
Record Engine (J : Type) := {
  g_patch_list : list patch_record;
  g_known_ports : list port_record;
  connect_calls : list (string * string);
  jack : J
}.

Arguments g_patch_list {J}.
Arguments g_known_ports {J}.
Arguments connect_calls {J}.
Arguments jack {J}.

Section Patches.

Context {J : Type}.
Variable lib : Jack J.

Definition make_client_port_name (cp : client_port) : string :=
  client cp +:+ ":" +:+ port cp.

Definition set_pr_active (b : bool) (pr : patch_record) : patch_record :=
  {| pr_src := pr_src pr; pr_dst := pr_dst pr; pr_active := b |}.

Definition with_patch_list (l : list patch_record) (e : Engine J)
  : Engine J :=
  {| g_patch_list := l; g_known_ports := g_known_ports e;
     connect_calls := connect_calls e; jack := jack e |}.

Definition with_known_ports (l : list port_record) (e : Engine J)
  : Engine J :=
  {| g_patch_list := g_patch_list e; g_known_ports := l;
     connect_calls := connect_calls e; jack := jack e |}.

Definition enqueue (p : patch_record) (e : Engine J) : Engine J :=
  with_patch_list (g_patch_list e ++ [p]) e.

Definition enqueue_known_port (portname : string) (e : Engine J)
  : Engine J :=
  with_known_ports (g_known_ports e ++ [ {| port_name := portname |} ]) e.

(** [find_known_port (portname)]: the name when it is known, the empty
    string when it is not. *)
Fixpoint find_known_port_in (portname : string) (l : list port_record)
  : string :=
  match l with
  | [] => ""
  | pr :: r =>
      if String.eqb (port_name pr) portname then port_name pr
      else find_known_port_in portname r
  end.

Definition find_known_port (portname : string) (e : Engine J) : string :=
  find_known_port_in portname (g_known_ports e).

(** [::jack_connect (jackpatch_client (), src, dst)]. *)
Definition call_jack_connect (srcport dstport : string) (e : Engine J)
  : Z * Engine J :=
  let (rc, j) := jack_connect lib srcport dstport (jack e) in
  (rc, {| g_patch_list := g_patch_list e;
          g_known_ports := g_known_ports e;
          connect_calls := connect_calls e ++ [(srcport, dstport)];
          jack := j |}).

(** [connect_path (pr)]. *)
Definition connect_path (pr : patch_record) (e : Engine J)
  : patch_record * Engine J :=
  if pr_active pr then (pr, e)
  else
    let srcport := make_client_port_name (pr_src pr) in
    let dstport := make_client_port_name (pr_dst pr) in
    let srcmatch := negb (String.eqb (find_known_port srcport e) "") in
    let dstmatch := negb (String.eqb (find_known_port dstport e) "") in
    if negb srcmatch || negb dstmatch then (pr, e)
    else
      let (rc, e) := call_jack_connect srcport dstport e in
      if (rc =? 0) || (rc =? EEXIST)
      then (set_pr_active true pr, e)
      else (set_pr_active false pr, e).

Definition inactivate_path (pr : patch_record) (e : Engine J)
  : patch_record * Engine J :=
  (set_pr_active false pr, e).

(** The loop of [do_for_matching_patches]: [func] is applied to the
    records one of whose ends is the given client and port. *)
Fixpoint for_matching (client port : string)
  (func : patch_record -> Engine J -> patch_record * Engine J)
  (l : list patch_record) (e : Engine J) : list patch_record * Engine J :=
  match l with
  | [] => ([], e)
  | pr :: r =>
      let srcmatch :=
        String.eqb client (jackpatch.client (pr_src pr)) &&
        String.eqb port (jackpatch.port (pr_src pr)) in
      let dstmatch :=
        String.eqb client (jackpatch.client (pr_dst pr)) &&
        String.eqb port (jackpatch.port (pr_dst pr)) in
      let (pr', e1) := if srcmatch || dstmatch then func pr e else (pr, e) in
      let (r', e2) := for_matching client port func r e1 in
      (pr' :: r', e2)
  end.

Definition do_for_matching_patches (fullportname : string)
  (func : patch_record -> Engine J -> patch_record * Engine J)
  (e : Engine J) : Engine J :=
  match extract_client_port lib fullportname with
  | Some (client, port) =>
      let (l, e') := for_matching client port func (g_patch_list e) e in
      with_patch_list l e'
  | None => e
  end.

Definition inactivate_patch (portname : string) (e : Engine J) : Engine J :=
  do_for_matching_patches portname inactivate_path e.

Definition activate_patch (portname : string) (e : Engine J) : Engine J :=
  do_for_matching_patches portname connect_path e.

(** [handle_new_port (portname)]. *)
Definition handle_new_port (portname : string) (e : Engine J) : Engine J :=
  activate_patch portname (enqueue_known_port portname e).

(** [remove_known_port (portname)]: the first record of that name goes. *)
Fixpoint erase_first (portname : string) (l : list port_record)
  : list port_record :=
  match l with
  | [] => []
  | pr :: r =>
      if String.eqb (port_name pr) portname then r
      else pr :: erase_first portname r
  end.

Definition remove_known_port (portname : string) (e : Engine J) : Engine J :=
  inactivate_patch portname
    (with_known_ports (erase_first portname (g_known_ports e)) e).

(** The two ends of a record, which no operation of the engine changes. *)
Definition ends (pr : patch_record) : client_port * client_port :=
  (pr_src pr, pr_dst pr).

Definition known (portname : string) (e : Engine J) : Prop :=
  In portname (List.map port_name (g_known_ports e)).

(** *** The ports that are there at the start *)

(** [check_for_new_ports] is not rendered: each record it works on comes
    from [dequeue_new_port], which reads [pnr_length] bytes from the
    ring buffer into a new [port_notification_record], and
    [port_registration_callback] has set [pnr_length] to the length of
    the port name plus the size of the record plus one: the read runs
    past the end of the record. *)

(** [jack_get_ports (client, NULL, NULL, 0)]: the names of the ports of
    the graph, or the null pointer. *)
Variable jack_get_ports : J -> option (list string).

(** [register_prexisting_ports ()]. *)
Definition register_prexisting_ports (e : Engine J) : Engine J :=
  match jack_get_ports (jack e) with
  | Some ports => fold_left (fun e p => handle_new_port p e) ports e
  | None => e
  end.

(** *** Reading the patch file *)

(** [clear_all_patches ()]. *)
Definition clear_all_patches (e : Engine J) : Engine J :=
  with_patch_list [] e.

(** [nsm::patch_direction], and what [nsm::process_patch] of the nsm66
    library makes of a line: the direction and the four names. *)
Inductive patch_direction :=
| direction_error
| direction_left
| direction_right
| direction_duplex
| direction_other.

Record patch_line := {
  pl_dir : patch_direction;
  pl_leftc : string;
  pl_leftp : string;
  pl_rightc : string;
  pl_rightp : string
}.

Variable nsm_process_patch : string -> patch_line.

(** [patch_record pr;] leaves [pr.pr_active] without a value, and
    [enqueue (pr)] copies the record before [pr.pr_active = false] is
    reached. [unset k] is what that flag happens to hold in the record
    that is enqueued when the list has [k] records: every record has a
    flag of its own. *)
Variable unset : nat -> bool.

Definition patch_between (active : bool)
  (src_client src_port dst_client dst_port : string) : patch_record :=
  {| pr_src := {| client := src_client; port := src_port |};
     pr_dst := {| client := dst_client; port := dst_port |};
     pr_active := active |}.

(** [enqueue] of a record between the two ends whose flag was never
    set. *)
Definition enqueue_unset (src_client src_port dst_client dst_port : string)
  (e : Engine J) : Engine J :=
  enqueue
    (patch_between (unset (List.length (g_patch_list e)))
       src_client src_port dst_client dst_port) e.

(** [process_patch (patch)]. *)
Definition process_patch (patch : string) (e : Engine J)
  : bool * Engine J :=
  let l := nsm_process_patch patch in
  match pl_dir l with
  | direction_error => (false, e)
  | direction_left =>
      (true,
       enqueue_unset (pl_rightc l) (pl_rightp l) (pl_leftc l) (pl_leftp l)
         e)
  | direction_right =>
      (true,
       enqueue_unset (pl_leftc l) (pl_leftp l) (pl_rightc l) (pl_rightp l)
         e)
  | direction_duplex =>
      (true,
       enqueue_unset (pl_leftc l) (pl_leftp l) (pl_rightc l) (pl_rightp l)
         (enqueue_unset (pl_rightc l) (pl_rightp l) (pl_leftc l)
            (pl_leftp l) e))
  | direction_other => (false, e)
  end.

(** [util::file_read_lines (file, lines)]: the lines, or nothing when the
    file cannot be read. *)
Variable file_read_lines : string -> option (list string).

(** [read_config (file)]: [result] is assigned anew for every line. *)
Definition read_config (file : string) (e : Engine J) : bool * Engine J :=
  match file_read_lines file with
  | Some lines =>
      fold_left (fun (acc : bool * Engine J) buf => process_patch buf (snd acc))
        lines (true, clear_all_patches e)
  | None => (false, e)
  end.

(** *** Saving the connections *)

(** [jack_get_ports (client, NULL, NULL, JackPortIsOutput)],
    [jack_port_by_name] (true when the port is there) and
    [jack_port_get_all_connections]. *)
Variable jack_get_output_ports : J -> option (list string).
Variable jack_port_by_name : string -> J -> bool.
Variable jack_port_get_all_connections : string -> J -> option (list string).

(** [util::investigate ()], the debugging flag. *)
Variable investigate : bool.

(** The line of a connection from [src] to [dst]. *)
Definition patch_text (src dst : string) : string :=
  if investigate
  then "'" +:+ src +:+ "' |> '" +:+ dst +:+ "'" +:+ String "010"%char ""
  else src +:+ " |> " +:+ dst +:+ String "010"%char "".

(** The first loop of [snapshot]: the lines of the patches one of whose
    ports is no longer in the graph. *)
Definition remembered (e : Engine J) : list string :=
  flat_map
    (fun pr =>
       let src_client_port := make_client_port_name (pr_src pr) in
       let dst_client_port := make_client_port_name (pr_dst pr) in
       let remember_this_connection :=
         if negb (jack_port_by_name src_client_port (jack e)) then true
         else negb (jack_port_by_name dst_client_port (jack e)) in
       if remember_this_connection
       then [patch_text src_client_port dst_client_port]
       else [])
    (g_patch_list e).

(** The second loop: the lines are made patches again, up to the first
    that cannot be. *)
Fixpoint process_remembered (table : list string) (e : Engine J)
  : Engine J :=
  match table with
  | [] => e
  | r :: rest =>
      let (ok, e') := process_patch r e in
      if ok then process_remembered rest e' else e'
  end.

(** The connections of one output port: each is put into the table and
    made a patch, up to the first that cannot be. *)
Fixpoint save_connections (jport : string) (connections : list string)
  (acc : list string * Engine J) : list string * Engine J :=
  match connections with
  | [] => acc
  | c :: rest =>
      let s := patch_text jport c in
      let (ok, e') := process_patch s (snd acc) in
      if ok then save_connections jport rest (fst acc ++ [s], e')
      else (fst acc ++ [s], e')
  end.

(** The third loop, over the output ports. *)
Definition save_port (acc : list string * Engine J) (jport : string)
  : list string * Engine J :=
  if jack_port_by_name jport (jack (snd acc)) then
    match jack_port_get_all_connections jport (jack (snd acc)) with
    | Some connections => save_connections jport connections acc
    | None => acc
    end
  else acc.

(** [std::sort] of the table. *)
Fixpoint insert_line (s : string) (l : list string) : list string :=
  match l with
  | [] => [s]
  | x :: r => if String.leb s x then s :: x :: r else x :: insert_line s r
  end.

Definition sort_lines (l : list string) : list string :=
  fold_right insert_line [] l.

(** [snapshot (file)]: the answer, the engine afterwards, and the lines
    handed to [util::file_write_lines] when it was called; [written] is
    what that call answers. *)
Definition snapshot (written : string -> list string -> bool)
  (file : string) (e : Engine J)
  : bool * option (list string) * Engine J :=
  match jack_get_output_ports (jack e) with
  | None => (false, None, e)
  | Some jports =>
      let table := remembered e in
      let e := clear_all_patches e in
      let e := process_remembered table e in
      let (table, e) := fold_left save_port jports (table, e) in
      let table := sort_lines table in
      (written file table, Some table, e)
  end.
End Patches.

End jackpatch.

(** * A small world to run the code in *)

Module Demo.

(** Files are known by their path, and those that were written by their
    lines; child processes by what [waitpid] and [kill] will say; the
    network by the batches of messages that successive calls of
    [osc_recv] find. *)
Record outside := {
  files : list string;
  write_protected : list string;
  contents : list (string * list string);
  tree : option fsnode;
  inbox : list (list osc_in);
  reaped : list (Z * Z);
  gone : list Z;
  next_pid : Z;
  ids : list string
}.

Definition mem (p : string) (l : list string) : bool :=
  List.existsb (String.eqb p) l.

Definition with_files (l : list string) (w : outside) : outside :=
  {| files := l; write_protected := write_protected w;
     contents := contents w; tree := tree w; inbox := inbox w;
     reaped := reaped w; gone := gone w; next_pid := next_pid w;
     ids := ids w |}.

Definition with_contents (l : list (string * list string)) (w : outside)
  : outside :=
  {| files := files w; write_protected := write_protected w;
     contents := l; tree := tree w; inbox := inbox w;
     reaped := reaped w; gone := gone w; next_pid := next_pid w;
     ids := ids w |}.

Definition without (p : string) (l : list (string * list string))
  : list (string * list string) :=
  List.filter (fun e => negb (String.eqb p (fst e))) l.

Definition add_file (p : string) (w : outside) : outside :=
  if mem p (files w) then w else with_files (files w ++ [p]) w.

Definition demo_delete (p : string) (w : outside) : bool * outside :=
  (mem p (files w),
   with_contents (without p (contents w))
     (with_files (List.filter (fun q => negb (String.eqb p q)) (files w))
        w)).

(** A file that is written holds the lines from then on. *)
Definition demo_write (p : string) (lines : list string) (w : outside)
  : bool * outside :=
  if mem p (write_protected w) then (false, w)
  else (true, with_contents ((p, lines) :: without p (contents w))
                (add_file p w)).

Fixpoint demo_lines (p : string) (l : list (string * list string))
  : list string :=
  match l with
  | [] => []
  | (q, lines) :: r => if String.eqb p q then lines else demo_lines p r
  end.

(** The fields of a line, which colons keep apart. *)
Fixpoint fields (acc s : string) : list string :=
  match s with
  | EmptyString => [acc]
  | String c r =>
      if Ascii.eqb c ":"%char then acc :: fields "" r
      else fields (acc +:+ String c EmptyString) r
  end.

(** The rows of a manifest: the lines that have the three fields
    name, executable and id. *)
Definition demo_row (line : string) : list session_triplet :=
  match fields "" line with
  | [name; exe; id] =>
      [ {| st_client_name := name; st_client_exe := exe;
           st_client_id := id |} ]
  | _ => []
  end.

Definition demo_rows (p : string) (l : list (string * list string))
  : list session_triplet :=
  flat_map demo_row (demo_lines p l).

Definition demo_id (w : outside) : string * outside :=
  match ids w with
  | [] => ("nAAAA", w)
  | id :: r =>
      (id, {| files := files w; write_protected := write_protected w;
              contents := contents w; tree := tree w; inbox := inbox w;
              reaped := reaped w; gone := gone w; next_pid := next_pid w;
              ids := r |})
  end.

Definition demo_fork (w : outside) : Z * outside :=
  (next_pid w,
   {| files := files w; write_protected := write_protected w;
      contents := contents w; tree := tree w; inbox := inbox w;
      reaped := reaped w; gone := gone w; next_pid := next_pid w + 1;
      ids := ids w |}).

Definition demo_kill (pid sig : Z) (w : outside) : Z * outside :=
  (if List.existsb (Z.eqb pid) (gone w) then -1 else 0, w).

Definition demo_waitpid (w : outside) : list (Z * Z) * outside :=
  (reaped w,
   {| files := files w; write_protected := write_protected w;
      contents := contents w; tree := tree w; inbox := inbox w;
      reaped := []; gone := gone w; next_pid := next_pid w;
      ids := ids w |}).

Definition demo_sigchld (w : outside) : bool * outside :=
  (match reaped w with [] => false | _ :: _ => true end, w).

Definition demo_recv (w : outside) : list osc_in * outside :=
  match inbox w with
  | [] => ([], w)
  | batch :: r =>
      (batch,
       {| files := files w; write_protected := write_protected w;
          contents := contents w; tree := tree w; inbox := r;
          reaped := reaped w; gone := gone w; next_pid := next_pid w;
          ids := ids w |})
  end.

(** The reading of [util::strncompare (a, b)] as "[a] starts with [b],
    neither being empty". *)
Definition starts_with (a b : string) : bool :=
  negb (String.eqb a "") && negb (String.eqb b "") && String.prefix b a.

Definition demo_lock_name (dir name path : string) : string :=
  dir +:+ "/" +:+ name +:+ "@" +:+ path.

(** The world's functions, for a given reading of [util::strncompare]. *)
Definition demo_ext_with (cmp : string -> string -> bool) : Externals outside :=
  {| strncompare := cmp;
     name_has_path := fun name => contains name "/";
     filename_base := basename;
     file_exists := fun p w => mem p (files w);
     file_delete := demo_delete;
     file_write_lines := demo_write;
     fts_copy_directory := fun _ _ w => (true, w);
     mkpath := fun _ _ w => (true, w);
     get_lock_file_name := demo_lock_name;
     write_lock_file := fun lock _ _ w => (true, add_file lock w);
     parse_session_lines := fun p w => demo_rows p (contents w);
     generate_client_id := fun _ w => demo_id w;
     fork := demo_fork;
     kill := demo_kill;
     waitpid_all := demo_waitpid;
     read_sigchld := demo_sigchld;
     fts_open := fun _ w => tree w;
     osc_recv := demo_recv |}.

Definition demo_ext : Externals outside := demo_ext_with starts_with.

Definition empty_world : outside :=
  {| files := []; write_protected := []; contents := []; tree := None;
     inbox := []; reaped := []; gone := []; next_pid := 4242; ids := [] |}.

(** Addresses. *)
Definition gui_addr : lo_address :=
  {| lo_host := "localhost"; lo_port := "9000" |}.
Definition addr_a : lo_address :=
  {| lo_host := "localhost"; lo_port := "15001" |}.
Definition addr_b : lo_address :=
  {| lo_host := "localhost"; lo_port := "15002" |}.
Definition addr_ctl : lo_address :=
  {| lo_host := "localhost"; lo_port := "16000" |}.

(** A daemon that has just started: no session, no client, no GUI. *)
Definition idle (w : outside) : State outside :=
  {| s_client_list := []; s_gui_address := gui_addr;
     s_gui_is_active := false; s_session_root := "/data/nsm";
     s_session_path := ""; s_session_name := "";
     s_lockfile_directory := "/run/nsm"; s_daemon_file := "/run/nsm/d/1";
     s_pending_operation := nsm.none; s_list_response_address := None;
     server_url := "osc.udp://localhost:11000/"; next_object := 0%nat;
     sent := []; world := w |}.

(** The same with the session [/data/nsm/Song] open. *)
Definition in_song (clients : list Client) (w : outside) : State outside :=
  {| s_client_list := clients; s_gui_address := gui_addr;
     s_gui_is_active := false; s_session_root := "/data/nsm";
     s_session_path := "/data/nsm/Song"; s_session_name := "Song";
     s_lockfile_directory := "/run/nsm"; s_daemon_file := "/run/nsm/d/1";
     s_pending_operation := nsm.none; s_list_response_address := None;
     server_url := "osc.udp://localhost:11000/";
     next_object := List.length clients; sent := []; world := w |}.

Definition with_gui (st : State outside) : State outside :=
  {| s_client_list := s_client_list st; s_gui_address := gui_addr;
     s_gui_is_active := true; s_session_root := s_session_root st;
     s_session_path := s_session_path st;
     s_session_name := s_session_name st;
     s_lockfile_directory := s_lockfile_directory st;
     s_daemon_file := s_daemon_file st;
     s_pending_operation := s_pending_operation st;
     s_list_response_address := s_list_response_address st;
     server_url := server_url st; next_object := next_object st;
     sent := sent st; world := world st |}.

(** A client that has announced itself from [addr]. *)
Definition announced (p : nat) (name id : string) (addr : lo_address)
  (pid : Z) : Client :=
  set_m_status "ready"
    (set_m_name_with_id (name +:+ "." +:+ id)
       (set_m_active true
          (set_m_addr (Some addr)
             (set_m_capabilities ":switch:"
                (set_m_pid pid (new_Client p name name id)))))).

(** A client that was launched and has not announced itself. *)
Definition launched (p : nat) (exe id : string) (pid : Z) : Client :=
  set_m_status "launch"
    (set_m_pending_command nsm.start
       (set_m_name_with_id (exe +:+ "." +:+ id)
          (set_m_pid pid (new_Client p exe exe id)))).

(** *** What a run shows *)

Definition returned {A : Type} (r : result outside A) : option A :=
  match r with
  | Ok a _ => Some a
  | Halt _ _ => None
  end.

Definition halted {A : Type} (r : result outside A) : option halt :=
  match r with
  | Ok _ _ => None
  | Halt h _ => Some h
  end.

Definition reply_to (to : lo_address) (path text : string) : osc_out :=
  {| out_to := Some to; out_path := "/reply";
     out_args := [arg_s path; arg_s text] |}.

(** *** Scenes *)

Definition two_clients : list Client :=
  [announced 0 "seq66" "nAAAA" addr_a 100;
   announced 1 "synth" "nBBBB" addr_b 101].

(** An active client and one that was launched, has a PID and has not
    announced itself. *)
Definition mixed_clients : list Client :=
  [announced 0 "seq66" "nAAAA" addr_a 100;
   launched 1 "xterm" "nCCCC" 101].

(** The session root of scenario 4 of the specification, with a session
    nested below [B/C] in addition. *)
Definition session_tree : fsnode :=
  fs_dir "nsm"
    [ fs_dir "B"
        [ fs_dir "D" [fs_file "session.nsm"];
          fs_dir "C"
            [fs_dir "takes" [fs_file "session.nsm"];
             fs_file "session.nsm"] ];
      fs_file "README";
      fs_dir "A" [fs_file "session.nsm"; fs_file "notes.txt"] ].

Definition world_with_tree : outside :=
  {| files := []; write_protected := []; contents := [];
     tree := Some session_tree; inbox := []; reaped := []; gone := [];
     next_pid := 4242; ids := [] |}.

(** A session root whose path is longer than an OSC path. *)
Definition far_root (st : State outside) : State outside :=
  {| s_client_list := s_client_list st; s_gui_address := s_gui_address st;
     s_gui_is_active := s_gui_is_active st;
     s_session_root := "/home/user/.local/share/nsm";
     s_session_path := s_session_path st;
     s_session_name := s_session_name st;
     s_lockfile_directory := s_lockfile_directory st;
     s_daemon_file := s_daemon_file st;
     s_pending_operation := s_pending_operation st;
     s_list_response_address := s_list_response_address st;
     server_url := server_url st; next_object := next_object st;
     sent := sent st; world := world st |}.

(** While the daemon waits for the first time, a save request from
    [addr_b] arrives. *)
Definition world_second_request : outside :=
  {| files := ["/data/nsm/Song/session.nsm"]; write_protected := [];
     contents := []; tree := None; inbox := [[in_save addr_b]];
     reaped := []; gone := []; next_pid := 4242; ids := [] |}.

Definition song_lock : string :=
  demo_lock_name "/run/nsm" "Song" "/data/nsm/Song".

(** The session Song exists and its lock file is there. *)
Definition world_locked : outside :=
  {| files := ["/data/nsm/Song/session.nsm"; song_lock];
     write_protected := [];
     contents := [("/data/nsm/Song/session.nsm", ["seq66:qseq66:nWXYZ"])];
     tree := None; inbox := []; reaped := []; gone := [];
     next_pid := 4242; ids := [] |}.


(** The id generator will say nWXYZ. *)
Definition world_ids : outside :=
  {| files := []; write_protected := []; contents := []; tree := None;
     inbox := []; reaped := []; gone := []; next_pid := 4242;
     ids := ["nWXYZ"] |}.

(** The announce of scenario 1 of the specification. *)
Definition seq66_announce : announce_args :=
  {| an_client_name := "seq66";
     an_capabilities := ":switch:optional-gui:";
     an_executable := "qseq66";
     an_api_major := 1; an_api_minor := 2; an_pid := 4242 |}.

(** The same from a client built against a later protocol. *)
Definition newer_announce : announce_args :=
  {| an_client_name := "seq66";
     an_capabilities := ":switch:optional-gui:";
     an_executable := "qseq66";
     an_api_major := 2; an_api_minor := 0; an_pid := 4242 |}.

(** *** A JACK graph *)

(** The graph is the list of the connections made; a connection made
    twice is refused with EEXIST, a connection to the port named "bad" is
    refused with -1. *)
Definition demo_connect (src dst : string) (g : list (string * string))
  : Z * list (string * string) :=
  if String.eqb dst "nowhere:bad" then (-1, g)
  else if List.existsb
            (fun c => String.eqb (fst c) src && String.eqb (snd c) dst) g
  then (jackpatch.EEXIST, g)
  else (0, g ++ [(src, dst)]).

(** A full port name is cut at its first colon. *)
Fixpoint cut_at_colon (acc s : string) : option (string * string) :=
  match s with
  | EmptyString => None
  | String c r =>
      if Ascii.eqb c ":"%char then Some (acc, r)
      else cut_at_colon (acc +:+ String c EmptyString) r
  end.

Definition demo_jack : jackpatch.Jack (list (string * string)) :=
  {| jackpatch.jack_connect := demo_connect;
     jackpatch.extract_client_port := cut_at_colon "" |}.

(** Scenario 5 of the specification: the patch
    [seq66:midi_out |> fluidsynth:midi_in] is saved, and only
    [seq66:midi_out] is live. *)
Definition saved_patch : jackpatch.patch_record :=
  {| jackpatch.pr_src :=
       {| jackpatch.client := "seq66"; jackpatch.port := "midi_out" |};
     jackpatch.pr_dst :=
       {| jackpatch.client := "fluidsynth"; jackpatch.port := "midi_in" |};
     jackpatch.pr_active := false |}.

Definition engine_at_startup : jackpatch.Engine (list (string * string)) :=
  {| jackpatch.g_patch_list := [saved_patch];
     jackpatch.g_known_ports :=
       [ {| jackpatch.port_name := "seq66:midi_out" |} ];
     jackpatch.connect_calls := [];
     jackpatch.jack := [] |}.

(** *** More scenes *)

(** A client that has announced itself from [addr] and was stopped
    since. *)
Definition stopped (p : nat) (name id : string) (addr : lo_address)
  : Client :=
  set_m_status "stopped"
    (set_m_active false (announced p name id addr 0)).

(** Two clients that were launched and are gone, before one that
    runs. *)
Definition two_gone_one_running : list Client :=
  [launched 0 "xterm" "nCCCC" 0;
   launched 1 "jackpatch66" "nDDDD" 0;
   announced 2 "seq66" "nAAAA" addr_a 100].

(** A client that runs and one that was stopped. *)
Definition one_stopped : list Client :=
  [announced 0 "seq66" "nAAAA" addr_a 100;
   stopped 1 "synth" "nBBBB" addr_b].

(** The process 101 is gone, and [waitpid] has not been asked yet. *)
Definition world_child_gone : outside :=
  {| files := []; write_protected := []; contents := []; tree := None;
     inbox := []; reaped := [(101, 0)]; gone := [101]; next_pid := 4242;
     ids := [] |}.

(** Three clients were launched and none has announced itself; the last
    two run the same executable. *)
Definition expecting : list Client :=
  [launched 0 "xterm" "nCCCC" 101;
   launched 1 "qseq66" "nWXYZ" 4242;
   launched 2 "qseq66" "nQQQQ" 4243].


(** A client that runs, and one that was told to quit and whose process
    has the PID 101. *)
Definition told_to_quit : list Client :=
  [announced 0 "seq66" "nAAAA" addr_a 100;
   set_m_pending_command nsm.quit (announced 1 "synth" "nBBBB" addr_b 101)].

End Demo.

(** * The vocabulary of the properties *)




(** [/nsm/client/open] as the announce handler sends it to [src] for the
    record [c] in the session of [path] and [name]. *)
Definition open_message (src : lo_address) (path name : string)
  (c : Client) : osc_out :=
  {| out_to := Some src;
     out_path := "/nsm/client/open";
     out_args :=
       [arg_s (path +:+ "/" +:+ m_name c +:+ "." +:+ m_client_id c);
        arg_s name;
        arg_s (m_name c +:+ "." +:+ m_client_id c)] |}.

(** An [/error] reply to [src] for the request [path]. *)
Definition error_message (src : lo_address) (path : string)
  (code : nsm.error) (text : string) : osc_out :=
  {| out_to := Some src;
     out_path := "/error";
     out_args := [arg_s path; arg_i (nsm.error_code code); arg_s text] |}.

(** [m] is an [/error] reply to [src] that carries [code]. *)
Definition is_error_reply (src : lo_address) (code : nsm.error)
  (m : osc_out) : Prop :=
  exists path text, m = error_message src path code text.

(** A reply of the list handler to [to]: the request path and [text]. *)
Definition list_reply (to : option lo_address) (text : string) : osc_out :=
  {| out_to := to; out_path := "/reply";
     out_args := [arg_s "/nsm/server/list"; arg_s text] |}.

(** Induction over a hierarchy, with the hypothesis for every entry of a
    directory. *)
Fixpoint fsnode_rect_nested (P : fsnode -> Prop)
  (Hfile : forall name, P (fs_file name))
  (Hdir : forall name entries, Forall P entries -> P (fs_dir name entries))
  (n : fsnode) : P n :=
  match n with
  | fs_file name => Hfile name
  | fs_dir name entries =>
      Hdir name entries
        ((fix all (l : list fsnode) : Forall P l :=
            match l with
            | [] => @List.Forall_nil fsnode P
            | e :: r =>
                @List.Forall_cons fsnode P e r
                  (fsnode_rect_nested P Hfile Hdir e) (all r)
            end) entries)
  end.

(** * More of the vocabulary *)

(** ** The daemon *)

(** What [clear_clients] leaves of a list: every second record. *)
Fixpoint every_second {A : Type} (l : list A) : list A :=
  match l with
  | _ :: x :: r => x :: every_second r
  | _ => []
  end.

Definition resets {W A : Type} (m : State W -> result W A) : Prop :=
  forall st a st', m st = Ok a st' -> s_pending_operation st' = nsm.none.

Definition keeps_latch {W A : Type} (m : State W -> result W A) : Prop :=
  forall st a st',
    m st = Ok a st' -> s_pending_operation st' = s_pending_operation st.

(** A record that has no address stands in the list before any record
    whose address has the port of [addr]. *)
Definition silent_record_first (addr : lo_address) (l : list Client)
  : Prop :=
  exists before c after,
    l = before ++ c :: after /\ m_addr c = None /\
    forall x, In x before ->
      exists a, m_addr x = Some a /\ lo_port a <> lo_port addr.

(** A run that ends early ends as the child of a [fork]: nothing is
    thrown. *)
Definition halts_as_child {W A : Type} (m : State W -> result W A)
  : Prop :=
  forall st h st', m st = Halt h st' -> h = halt_child.

(** The sender of a message whose handler begins with the lookup of the
    record of the sender, [get_client_by_address
    (lo_message_get_source (msg))]. The handler of [label] looks at the
    number of arguments before. *)
Definition sender_looked_up (m : osc_in) : option lo_address :=
  match m with
  | in_progress src _ | in_is_dirty src | in_is_clean src
  | in_message src _ _ | in_gui_is_hidden src | in_gui_is_shown src
  | in_label src (_ :: _)
  | in_stop src | in_remove src | in_resume src | in_client_save src
  | in_client_show_optional_gui src
  | in_client_hide_optional_gui src => Some src
  | _ => None
  end.

(** A message to the GUI at [gui]. *)
Definition gui_message (gui : lo_address) (path : string)
  (args : list lo_arg) : osc_out :=
  {| out_to := Some gui; out_path := path; out_args := args |}.

(** What the orchestration reads of a record: all but what the record
    shows of the client (progress, dirtiness, visibility of its GUI,
    label). *)
Definition control_view (c : Client) :=
  (self c, m_pending_command c, m_active c, m_pid c, m_addr c,
   m_client_id c, m_name c, m_exe_path c, m_status c,
   (m_reply_errcode c, m_reply_message c, m_launch_error c,
    m_capabilities c, m_pre_existing c, m_name_with_id c)).

(** A handler that only takes note: the records keep what the
    orchestration reads of them, at most one message goes out, to the
    GUI, and nothing else changes. *)
Definition takes_note {W : Type} (handler : State W -> result W Z) : Prop :=
  forall st rc st',
    List.NoDup (List.map self (s_client_list st)) ->
    handler st = Ok rc st' ->
    List.map control_view (s_client_list st')
      = List.map control_view (s_client_list st) /\
    exists ms,
      st' = with_sent (sent st ++ ms)
              (with_client_list (s_client_list st') st) /\
      (List.length ms <= 1)%nat /\
      forall m, In m ms ->
        s_gui_is_active st = true /\ out_to m = Some (s_gui_address st).

(** The PIDs that the records of [l] hold. *)
Definition pids_held (l : list Client) : list Z :=
  List.map m_pid (List.filter (fun c => negb (m_pid c =? 0)) l).

(** ** The walk over the session root *)

Definition is_file (n : fsnode) : bool :=
  match n with
  | fs_file _ => true
  | fs_dir _ _ => false
  end.

Definition is_dir (n : fsnode) : bool := negb (is_file n).

(** A regular file whose name is [session.nsm]. *)
Definition is_session_file (n : fsnode) : bool :=
  match n with
  | fs_file name => strcompare "session.nsm" (basename name)
  | fs_dir _ _ => false
  end.

(** The sessions of a hierarchy that no other session lies above: a
    directory that holds a [session.nsm] counts (once for each such
    file), and what lies below it does not. *)
Fixpoint sessions_found (n : fsnode) : nat :=
  match n with
  | fs_file _ => 0%nat
  | fs_dir _ entries =>
      let own := List.length (List.filter is_session_file entries) in
      if (0 <? own)%nat then own
      else list_sum (List.map sessions_found entries)
  end.

Section WalkEntries.

Context {W A : Type}.
Variable visit : FTSENT -> A -> State W -> result W (A * bool).
Variable path : string.

(** The loop of [fts_walk] over the entries of one directory. *)
Fixpoint walk_entries (l : list fsnode) (acc : A)
  : State W -> result W A :=
  match l with
  | [] => ret acc
  | e :: rest =>
      bind (fts_walk visit path (path +:+ "/" +:+ node_name e) e acc)
        (fun acc => walk_entries rest acc)
  end.

End WalkEntries.

(** [k] replies to a list request, each with [text], have been sent. *)
Definition with_replies {W : Type} (text : string) (k : nat)
  (st : State W) : State W :=
  with_sent
    (sent st ++ List.repeat (list_reply (s_list_response_address st) text) k)
    st.

(** The order of two entries by their names, as [strcmp] has it. *)
Definition name_le (a b : fsnode) : Prop :=
  strcmp (node_name a) (node_name b) <= 0.

(** The entries of a directory that are session files. *)
Definition own (l : list fsnode) : nat :=
  List.length (List.filter is_session_file l).

(** ** The patch engine *)

Module jackprops.
Import jackpatch.

(** The two full port names of a patch, as [connect_path] hands them to
    [jack_connect]. *)
Definition patch_names (pr : patch_record) : string * string :=
  (make_client_port_name (pr_src pr), make_client_port_name (pr_dst pr)).

(** One of the ends of [pr] is the client and port given. *)
Definition ends_at (client port : string) (pr : patch_record) : bool :=
  (String.eqb client (jackpatch.client (pr_src pr)) &&
   String.eqb port (jackpatch.port (pr_src pr)))
  || (String.eqb client (jackpatch.client (pr_dst pr)) &&
      String.eqb port (jackpatch.port (pr_dst pr))).

(** The port [p] is among those that [jack_get_ports] lists for the
    graph [j]. *)
Definition listed {J : Type} (jack_get_ports : J -> option (list string))
  (p : string) (j : J) : Prop :=
  exists ports, jack_get_ports j = Some ports /\ In p ports.

(** How many records of the known ports carry the name [p]. *)
Definition copies {J : Type} (p : string) (e : Engine J) : nat :=
  List.length
    (List.filter (fun r => String.eqb (port_name r) p) (g_known_ports e)).

(** The line is one that [process_patch] makes patches of. *)
Definition line_parses (nsm_process_patch : string -> patch_line)
  (buf : string) : bool :=
  match pl_dir (nsm_process_patch buf) with
  | direction_left | direction_right | direction_duplex => true
  | direction_error | direction_other => false
  end.

(** The ends of the patches that a line stands for. *)
Definition ends_of_line (nsm_process_patch : string -> patch_line)
  (buf : string) : list (client_port * client_port) :=
  let l := nsm_process_patch buf in
  let left := {| client := pl_leftc l; port := pl_leftp l |} in
  let right := {| client := pl_rightc l; port := pl_rightp l |} in
  match pl_dir l with
  | direction_left => [(right, left)]
  | direction_right => [(left, right)]
  | direction_duplex => [(right, left); (left, right)]
  | direction_error | direction_other => []
  end.

(** Two lines in the order of [std::sort]. *)
Definition line_le (a b : string) : Prop := String.leb a b = true.

(** What a patch list that was read holds besides its own records. *)
Definition same_graph {J : Type} (e e' : Engine J) : Prop :=
  g_known_ports e' = g_known_ports e /\
  connect_calls e' = connect_calls e /\ jack e' = jack e.

(** A line of a connection that is in the graph of [j]. *)
Definition live_line {J : Type} (jack_port_by_name : string -> J -> bool)
  (jack_port_get_all_connections : string -> J -> option (list string))
  (investigate : bool) (j : J) (jports : list string) (line : string)
  : Prop :=
  exists jport c connections,
    In jport jports /\ jack_port_by_name jport j = true /\
    jack_port_get_all_connections jport j = Some connections /\
    In c connections /\ line = patch_text investigate jport c.

End jackprops.
(** * Properties *)

(** Projections of a state that was built with the setters. *)
Ltac state_simpl :=
  cbn [s_client_list s_gui_address s_gui_is_active s_session_root
       s_session_path s_session_name s_lockfile_directory s_daemon_file
       s_pending_operation s_list_response_address server_url next_object
       sent world send with_sent with_client_list with_world
       with_next_object with_session_path with_session_name
       with_pending_operation with_list_response_address store push_back
       error_send reply_send error_send_ex reply_send_ex].

Ltac state_simpl_in H :=
  cbn [s_client_list s_gui_address s_gui_is_active s_session_root
       s_session_path s_session_name s_lockfile_directory s_daemon_file
       s_pending_operation s_list_response_address server_url next_object
       sent world send with_sent with_client_list with_world
       with_next_object with_session_path with_session_name
       with_pending_operation with_list_response_address store push_back
       error_send reply_send error_send_ex reply_send_ex] in H.

(** Fields of a record that was built with the setters. *)
Ltac client_simpl :=
  cbn [self m_reply_errcode m_reply_message m_pending_command
       m_gui_visible m_label m_addr m_name m_exe_path m_pid m_progress
       m_active m_client_id m_capabilities m_dirty m_pre_existing m_status
       m_launch_error m_name_with_id new_Client
       set_m_pending_command set_m_label set_m_addr set_m_name set_m_exe_path
       set_m_pid set_m_active set_m_client_id set_m_capabilities
       set_m_pre_existing set_m_status set_m_launch_error
       set_m_name_with_id].

Section DaemonFacts.

Context {W : Type}.
Variable ext : Externals W.
Variable osc_wait : State W -> result W unit.

(** *** Facts about the store and about sending *)

Lemma client_list_send to path args (st : State W) :
  s_client_list (send to path args st) = s_client_list st.
Proof. reflexivity. Qed.

Lemma client_list_gui_send msg s1 s2 (st : State W) :
  s_client_list (gui_send msg s1 s2 st) = s_client_list st.
Proof. unfold gui_send. destruct (s_gui_is_active st); reflexivity. Qed.

Lemma client_list_gui_msg text (st : State W) :
  s_client_list (gui_msg text st) = s_client_list st.
Proof. unfold gui_msg. destruct (s_gui_is_active st); reflexivity. Qed.

Lemma gui_is_active_gui_send msg s1 s2 (st : State W) :
  s_gui_is_active (gui_send msg s1 s2 st) = s_gui_is_active st.
Proof.
  unfold gui_send. destruct (s_gui_is_active st) eqn:E; simpl; congruence.
Qed.

Lemma gui_is_active_gui_msg text (st : State W) :
  s_gui_is_active (gui_msg text st) = s_gui_is_active st.
Proof.
  unfold gui_msg. destruct (s_gui_is_active st) eqn:E; simpl; congruence.
Qed.

Lemma get_client_by_pid_Some pid l c :
  get_client_by_pid pid l = Some c -> In c l /\ m_pid c = pid.
Proof.
  unfold get_client_by_pid. intros H.
  apply List.find_some in H. destruct H as [Hin Hpid].
  split; [exact Hin | now apply Z.eqb_eq].
Qed.

Lemma in_remove_client p l x :
  In x (remove_client p l) <-> In x l /\ self x <> p.
Proof.
  unfold remove_client. rewrite List.filter_In.
  rewrite Bool.negb_true_iff, Nat.eqb_neq. reflexivity.
Qed.

Lemma in_store_client c l x :
  In x (store_client c l) ->
  x = c \/ (In x l /\ self x <> self c).
Proof.
  unfold store_client. rewrite List.in_map_iff.
  intros [y [Hy Hin]].
  destruct (Nat.eqb (self y) (self c)) eqn:E.
  - left. symmetry. exact Hy.
  - right. subst x. split; [exact Hin | now apply Nat.eqb_neq].
Qed.

Lemma store_client_in c c0 l :
  In c0 l -> self c0 = self c -> In c (store_client c l).
Proof.
  intros Hin Hself. unfold store_client. apply List.in_map_iff.
  exists c0. split; [| exact Hin].
  rewrite Hself, Nat.eqb_refl. reflexivity.
Qed.


Lemma command_eqb_eq a b : nsm.command_eqb a b = true <-> a = b.
Proof. destruct a, b; simpl; split; congruence. Qed.

Lemma command_eqb_neq a b : nsm.command_eqb a b = false <-> a <> b.
Proof. destruct a, b; simpl; split; congruence. Qed.

Lemma error_code_inj a b : nsm.error_code a = nsm.error_code b -> a = b.
Proof. destruct a, b; simpl; intros H; try reflexivity; discriminate H. Qed.

(** A write through the pointer that [get_client_by_pid] returned leaves
    the search with the written record, as long as its PID stays. *)
Lemma get_client_by_pid_store pid l c c' :
  get_client_by_pid pid l = Some c ->
  self c' = self c -> m_pid c' = pid ->
  get_client_by_pid pid (store_client c' l) = Some c'.
Proof.
  unfold get_client_by_pid. intros Hfind Hself Hpid.
  induction l as [| x r IH]; simpl in *; [discriminate |].
  destruct (Nat.eqb (self x) (self c')) eqn:Ex.
  - subst pid. rewrite Z.eqb_refl. reflexivity.
  - destruct (m_pid x =? pid) eqn:Ep.
    + injection Hfind as ->. rewrite Hself, Nat.eqb_refl in Ex. discriminate.
    + apply IH. exact Hfind.
Qed.


(** What [handle_client_process_death] makes of the record it found:
    with the quit command pending the record is taken out and the
    function goes on to write to it; otherwise the record is settled. *)
Lemma process_death_outcome pid (st : State W) c :
  get_client_by_pid pid (s_client_list st) = Some c ->
  (m_pending_command c = nsm.quit ->
   exists st',
     handle_client_process_death pid st
       = Halt (halt_undefined "write to a deleted Client") st' /\
     s_client_list st' = remove_client (self c) (s_client_list st))
  /\
  (m_pending_command c <> nsm.quit ->
   exists st' c',
     handle_client_process_death pid st = Ok tt st' /\
     s_client_list st' = store_client c' (s_client_list st) /\
     self c' = self c /\ m_pending_command c' = nsm.none /\
     m_active c' = false /\ m_pid c' = 0 /\ m_status c' = "stopped").
Proof.
  intros Hfind. unfold handle_client_process_death. rewrite Hfind.
  split.
  - intros Hq. rewrite Hq. cbn [nsm.command_eqb orb].
    eexists. split; [reflexivity |]. cbn [s_client_list with_client_list].
    rewrite client_list_gui_send. rewrite client_list_gui_msg.
    reflexivity.
  - intros Hq. apply command_eqb_neq in Hq. rewrite Hq.
    rewrite Bool.orb_false_r.
    eexists. eexists. split; [reflexivity |]. split.
    + unfold store. simpl.
      match goal with
      | |- context [s_client_list (if ?b then _ else _)] =>
          destruct b
      end;
      repeat first
        [ rewrite client_list_gui_send | rewrite client_list_gui_msg ];
      destruct (nsm.command_eqb (m_pending_command c) nsm.kill);
      rewrite client_list_gui_msg; reflexivity.
    + destruct (negb (m_launch_error c =? 0)); simpl; auto.
Qed.


(** *** Lookup by address *)

Lemma address_matches_port a b :
  address_matches a b = true <-> lo_port a = lo_port b.
Proof. unfold address_matches, lo_address_get_port. apply String.eqb_eq. Qed.


(** *** The save fan-out *)

Lemma with_sent_with_sent a b (st : State W) :
  with_sent a (with_sent b st) = with_sent a st.
Proof. reflexivity. Qed.

Lemma send_is_with_sent to path args (st : State W) :
  send to path args st =
  with_sent (sent st ++ [ {| out_to := to; out_path := path;
                             out_args := args |} ]) st.
Proof. reflexivity. Qed.

Lemma with_sent_same (st : State W) : with_sent (sent st) st = st.
Proof. destruct st; reflexivity. Qed.


Lemma gui_msg_adds text (st : State W) :
  exists ms,
    gui_msg text st = with_sent (sent st ++ ms) st /\
    forall m, In m ms ->
      out_to m = Some (s_gui_address st) /\
      out_path m = "/nsm/gui/server/message".
Proof.
  unfold gui_msg. destruct (s_gui_is_active st).
  - eexists. split; [apply send_is_with_sent |].
    intros m [<- | []]. simpl. auto.
  - exists []. rewrite app_nil_r, with_sent_same. split; [reflexivity |].
    intros m [].
Qed.





(** *** Announce *)

Lemma store_client_fresh c l :
  (forall x, In x l -> self x <> self c) -> store_client c l = l.
Proof.
  intros H. unfold store_client. induction l as [| x r IH]; simpl.
  - reflexivity.
  - rewrite IH by (intros y Hy; apply H; now right).
    destruct (Nat.eqb (self x) (self c)) eqn:E; [| reflexivity].
    apply Nat.eqb_eq in E. exfalso. apply (H x); [now left | exact E].
Qed.

Lemma store_client_app c l1 l2 :
  store_client c (l1 ++ l2) = store_client c l1 ++ store_client c l2.
Proof. unfold store_client. apply List.map_app. Qed.

Lemma expected_slot_Some exe l ci :
  expected_slot exe l = Some ci ->
  In ci l /\ m_exe_path ci = exe /\ m_active ci = false /\
  m_pending_command ci = nsm.start.
Proof.
  unfold expected_slot. intros H. apply List.find_some in H.
  destruct H as [Hin H].
  apply Bool.andb_true_iff in H. destruct H as [H Hp].
  apply Bool.andb_true_iff in H. destruct H as [He Ha].
  repeat split.
  - exact Hin.
  - now apply String.eqb_eq.
  - now apply Bool.negb_true_iff.
  - now apply command_eqb_eq.
Qed.

(** The slot is the first record of the list that has the executable, is
    not active and has the start command pending. *)
Lemma expected_slot_first exe before ci after :
  m_exe_path ci = exe -> m_active ci = false ->
  m_pending_command ci = nsm.start ->
  (forall x, In x before ->
     ~ (m_exe_path x = exe /\ m_active x = false /\
        m_pending_command x = nsm.start)) ->
  expected_slot exe (before ++ ci :: after) = Some ci.
Proof.
  intros Hexe Hactive Hstart Hbefore. unfold expected_slot.
  induction before as [| x r IH]; cbn [app List.find].
  - rewrite Hexe, String.eqb_refl, Hactive, Hstart. reflexivity.
  - destruct (String.eqb (m_exe_path x) exe && negb (m_active x) &&
              nsm.command_eqb (m_pending_command x) nsm.start) eqn:E.
    + exfalso. apply (Hbefore x); [now left |].
      apply Bool.andb_true_iff in E. destruct E as [E Hs].
      apply Bool.andb_true_iff in E. destruct E as [He Ha].
      apply String.eqb_eq in He. apply Bool.negb_true_iff in Ha.
      apply command_eqb_eq in Hs. auto.
    + apply IH. intros y Hy. apply Hbefore. now right.
Qed.

Lemma expected_slot_none exe l :
  (forall x, In x l ->
     ~ (m_exe_path x = exe /\ m_active x = false /\
        m_pending_command x = nsm.start)) ->
  expected_slot exe l = None.
Proof.
  intros Hnone. unfold expected_slot.
  destruct (List.find _ l) as [x |] eqn:E; [| reflexivity].
  exfalso. apply List.find_some in E. destruct E as [Hin E].
  apply (Hnone x Hin).
  apply Bool.andb_true_iff in E. destruct E as [E Hs].
  apply Bool.andb_true_iff in E. destruct E as [He Ha].
  apply String.eqb_eq in He. apply Bool.negb_true_iff in Ha.
  apply command_eqb_eq in Hs. auto.
Qed.

(** What an accepted announce does, by the slot that the search of the
    handler comes to. *)
Lemma announce_accepted_slot (src : lo_address) (a : announce_args)
  (st : State W) :
  s_session_path st <> "" ->
  an_api_major a <= NSM_API_VERSION_MAJOR ->
  exists st' c ms,
    osc_announce ext src a st = Ok osc_msg_handled st' /\
    In c (s_client_list st') /\
    m_active c = true /\ m_pending_command c = nsm.open /\
    m_name c = an_client_name a /\ m_addr c = Some src /\
    m_pid c = an_pid a /\ m_capabilities c = an_capabilities a /\
    match expected_slot (an_executable a) (s_client_list st) with
    | Some ci =>
        self c = self ci /\ m_client_id c = m_client_id ci /\
        m_exe_path c = an_executable a /\
        s_client_list st' = store_client c (s_client_list st)
    | None =>
        self c = next_object st /\
        m_client_id c = fst (generate_client_id ext "n----" (world st)) /\
        m_exe_path c = an_executable a /\
        ((forall x, In x (s_client_list st) -> self x <> next_object st) ->
         s_client_list st' = s_client_list st ++ [c])
    end /\
    sent st' =
      (sent st ++ ms) ++
      [open_message src (s_session_path st) (s_session_name st) c].
Proof.
  intros Hopen Hmajor.
  assert (Hne : String.eqb (s_session_path st) "" = false)
    by now apply String.eqb_neq.
  assert (Hle : (an_api_major a >? NSM_API_VERSION_MAJOR) = false).
  { rewrite Z.gtb_ltb. apply Z.ltb_ge. exact Hmajor. }
  unfold osc_announce.
  destruct (gui_msg_adds ("Announce from " +:+ an_client_name a) st)
    as [ms0 [Hs0 _]].
  rewrite Hs0. state_simpl. rewrite Hne.
  destruct (expected_slot (an_executable a) (s_client_list st))
    as [ci |] eqn:Eslot.
  - destruct (expected_slot_Some _ _ _ Eslot) as [Hin [Hexe _]].
    rewrite Hle. unfold gui_send. state_simpl.
    destruct (s_gui_is_active st) eqn:Eg; state_simpl; rewrite ?Eg;
      state_simpl;
      [destruct (is_capable_of _ _); state_simpl |];
      (eexists; eexists; eexists;
       split; [reflexivity |];
       state_simpl; client_simpl;
       split; [apply store_client_in with (c0 := ci);
               [exact Hin | reflexivity] |];
       repeat (split; [reflexivity |]);
       split; [repeat (split; [reflexivity || exact Hexe |]); reflexivity |];
       unfold open_message, get_client_project_path; client_simpl;
       f_equal; repeat rewrite <- app_assoc; reflexivity).
  - destruct (generate_client_id ext "n----" (world st)) as [id w] eqn:Eid.
    cbn [fst]. rewrite Hle. unfold gui_send. state_simpl.
    destruct (s_gui_is_active st) eqn:Eg; state_simpl; rewrite ?Eg;
      state_simpl;
      [destruct (is_capable_of _ _); state_simpl |];
      (eexists; eexists; eexists;
       split; [reflexivity |];
       state_simpl; client_simpl;
       split;
       [ rewrite store_client_app; apply in_or_app; right;
         unfold store_client; cbn [List.map self]; client_simpl;
         rewrite Nat.eqb_refl; left; reflexivity |];
       repeat (split; [reflexivity |]);
       split;
       [ repeat (split; [reflexivity |]);
         intros Hfresh; rewrite store_client_app;
         (rewrite store_client_fresh by exact Hfresh);
         unfold store_client; cbn [List.map self]; client_simpl;
         rewrite Nat.eqb_refl; reflexivity |];
       unfold open_message, get_client_project_path; client_simpl;
       f_equal; repeat rewrite <- app_assoc; reflexivity).
Qed.

(** C4. An announce that is accepted (a session is open and the major
    version is not above the daemon's) ends with a record in the list
    that is active and has pending command open, under the announced
    name, address, PID, capabilities and executable. When the list
    holds a record with the same executable that is not active and has
    the start command pending, the first such record is the one: it
    keeps its identity, its id and its place, and no record is added.
    When the list holds no such record, the record is a new one at the
    end of the list, with a generated id. The last message sent is
    [/nsm/client/open] to the announcer, with the project path
    session/name.id, the session name and the full id name.id. *)
Theorem announce_accepted (src : lo_address) (a : announce_args)
  (st : State W) :
  s_session_path st <> "" ->
  an_api_major a <= NSM_API_VERSION_MAJOR ->
  exists st' c ms,
    osc_announce ext src a st = Ok osc_msg_handled st' /\
    In c (s_client_list st') /\
    m_active c = true /\ m_pending_command c = nsm.open /\
    m_name c = an_client_name a /\ m_addr c = Some src /\
    m_pid c = an_pid a /\ m_capabilities c = an_capabilities a /\
    m_exe_path c = an_executable a /\
    (forall before ci after,
       s_client_list st = before ++ ci :: after ->
       m_exe_path ci = an_executable a -> m_active ci = false ->
       m_pending_command ci = nsm.start ->
       (forall x, In x before ->
          ~ (m_exe_path x = an_executable a /\ m_active x = false /\
             m_pending_command x = nsm.start)) ->
       self c = self ci /\ m_client_id c = m_client_id ci /\
       s_client_list st' = store_client c (s_client_list st)) /\
    ((forall x, In x (s_client_list st) ->
        ~ (m_exe_path x = an_executable a /\ m_active x = false /\
           m_pending_command x = nsm.start)) ->
     self c = next_object st /\
     m_client_id c = fst (generate_client_id ext "n----" (world st)) /\
     ((forall x, In x (s_client_list st) -> self x <> next_object st) ->
      s_client_list st' = s_client_list st ++ [c])) /\
    sent st' =
      (sent st ++ ms) ++
      [open_message src (s_session_path st) (s_session_name st) c].
Proof.
  intros Hopen Hmajor.
  destruct (announce_accepted_slot src a st Hopen Hmajor)
    as [st' [c [ms [Hrun [Hin [Hactive [Hpending [Hname [Haddr [Hpid
          [Hcaps [Hslot Hsent]]]]]]]]]]]].
  exists st', c, ms.
  repeat (split; [assumption |]).
  split; [| split; [| split; [| exact Hsent]]].
  - destruct (expected_slot _ _); destruct Hslot as [_ [_ [H _]]];
      exact H.
  - intros before ci after Hlist Hexe Hinactive Hstart Hbefore.
    rewrite Hlist in Hslot.
    rewrite (expected_slot_first _ _ _ _ Hexe Hinactive Hstart Hbefore)
      in Hslot.
    rewrite <- Hlist in Hslot. destruct Hslot as [H1 [H2 [_ H4]]].
    split; [exact H1 | split; [exact H2 | exact H4]].
  - intros Hnone. rewrite (expected_slot_none _ _ Hnone) in Hslot.
    destruct Hslot as [H1 [H2 [_ H4]]].
    split; [exact H1 | split; [exact H2 | exact H4]].
Qed.

(** C5, as amended. While a session is open, an announce whose major
    version exceeds the daemon's is answered with an [/error] reply that
    carries incompatible_api, sent to the announcer as the last message,
    and the client list is what it was: no record has become active and
    none has been added. *)
Theorem announce_incompatible_api (src : lo_address) (a : announce_args)
  (st : State W) :
  s_session_path st <> "" ->
  an_api_major a > NSM_API_VERSION_MAJOR ->
  exists st',
    osc_announce ext src a st = Ok osc_msg_handled st' /\
    s_client_list st' = s_client_list st /\
    sent st' =
      sent (gui_msg ("Announce from " +:+ an_client_name a) st) ++
      [error_message src "/nsm/server/announce" nsm.incompatible_api
         "Server is using an incompatible API version"].
Proof.
  intros Hopen Hmajor.
  assert (Hne : String.eqb (s_session_path st) "" = false)
    by now apply String.eqb_neq.
  assert (Hgt : (an_api_major a >? NSM_API_VERSION_MAJOR) = true).
  { rewrite Z.gtb_ltb. apply Z.ltb_lt. lia. }
  unfold osc_announce.
  destruct (gui_msg_adds ("Announce from " +:+ an_client_name a) st)
    as [ms0 [Hs0 _]].
  rewrite Hs0. state_simpl. rewrite Hne.
  destruct (expected_slot (an_executable a) (s_client_list st)) as [ci |].
  - rewrite Hgt. eexists. split; [reflexivity |]. state_simpl.
    split; reflexivity.
  - destruct (generate_client_id ext "n----" (world st)) as [id w].
    rewrite Hgt. eexists. split; [reflexivity |]. state_simpl.
    split; reflexivity.
Qed.

(** Whatever the version, an announce that meets no open session changes
    no record and is answered with no_session_open. *)
Lemma announce_without_session (src : lo_address) (a : announce_args)
  (st : State W) :
  s_session_path st = "" ->
  exists st',
    osc_announce ext src a st = Ok osc_msg_handled st' /\
    s_client_list st' = s_client_list st /\
    sent st' =
      sent (gui_msg ("Announce from " +:+ an_client_name a) st) ++
      [error_message src "/nsm/server/announce" nsm.no_session_open
         "No session open for this application to join"].
Proof.
  intros Hclosed. unfold osc_announce.
  destruct (gui_msg_adds ("Announce from " +:+ an_client_name a) st)
    as [ms0 [Hs0 _]].
  rewrite Hs0. state_simpl. rewrite Hclosed. cbn [String.eqb].
  eexists. split; [reflexivity |]. state_simpl. split; reflexivity.
Qed.

(** *** Broadcast *)

(** [for_each] with a body that leaves the records alone. *)
Lemma relay_loop_spec sender_url to_path new_args l (st : State W) :
  exists ms,
    snd (for_each (relay_to_client sender_url to_path new_args) l st) =
      with_sent (sent st ++ ms) st /\
    fst (for_each (relay_to_client sender_url to_path new_args) l st) = l /\
    forall m, In m ms ->
      exists c a,
        In c l /\ m_addr c = Some a /\
        lo_address_get_url a = sender_url /\
        m = {| out_to := Some a; out_path := to_path;
               out_args := new_args |}.
Proof.
  revert st. induction l as [| c r IH]; intros st.
  - exists []. simpl. rewrite app_nil_r, with_sent_same.
    split; [reflexivity | split; [reflexivity | intros m []]].
  - simpl.
    assert (Hstep : exists ms1,
               relay_to_client sender_url to_path new_args c st =
                 (c, with_sent (sent st ++ ms1) st) /\
               forall m, In m ms1 ->
                 exists a, m_addr c = Some a /\
                   lo_address_get_url a = sender_url /\
                   m = {| out_to := Some a; out_path := to_path;
                          out_args := new_args |}).
    { unfold relay_to_client. destruct (m_addr c) as [a |] eqn:Ea.
      - destruct (strcompare sender_url (lo_address_get_url a)) eqn:Ec.
        + eexists. split; [reflexivity |].
          intros m [<- | []]. exists a. repeat split.
          symmetry. now apply String.eqb_eq.
        + exists []. rewrite app_nil_r, with_sent_same.
          split; [reflexivity | intros m []].
      - exists []. rewrite app_nil_r, with_sent_same.
        split; [reflexivity | intros m []]. }
    destruct Hstep as [ms1 [E1 Hall1]]. rewrite E1.
    destruct (IH (with_sent (sent st ++ ms1) st)) as [ms2 [Hs2 [Hl2 Hall2]]].
    destruct (for_each _ r _) as [r' st2]. cbn [fst snd] in *.
    subst st2 r'. exists (ms1 ++ ms2). state_simpl.
    split; [now rewrite app_assoc |]. split; [reflexivity |].
    intros m Hm. apply in_app_or in Hm. destruct Hm as [Hm | Hm].
    + destruct (Hall1 m Hm) as [a [Ha [Hu ->]]].
      exists c, a. simpl. auto.
    + destruct (Hall2 m Hm) as [x [a [Hx [Ha [Hu ->]]]]].
      exists x, a. simpl. auto.
Qed.

(** Whatever [util::strncompare] answers, every message a broadcast
    request makes the daemon send goes to an address whose URL is the
    URL of the sender of the request: to the originator, and to nobody
    else. *)
Lemma broadcast_reaches_only_the_sender (src : lo_address)
  (argv : list lo_arg) (st : State W) :
  exists rc st' ms,
    osc_broadcast ext src argv st = Ok rc st' /\
    sent st' = sent st ++ ms /\
    forall m, In m ms ->
      exists a, out_to m = Some a /\
                lo_address_get_url a = lo_address_get_url src.
Proof.
  unfold osc_broadcast.
  assert (Hnone : forall rc, exists rc' st' ms,
             @Ok W Z rc st = Ok rc' st' /\ sent st' = sent st ++ ms /\
             forall m, In m ms ->
               exists a, out_to m = Some a /\
                         lo_address_get_url a = lo_address_get_url src).
  { intros rc. exists rc, st, []. rewrite app_nil_r.
    split; [reflexivity | split; [reflexivity | intros m []]]. }
  destruct argv as [| [to_path | i | bits | ty] rest]; try apply Hnone.
  destruct (strncompare ext to_path "/nsm/"); cbn [negb]; [| apply Hnone].
  unfold bind, lift, ret, for_each_client.
  destruct (relay_loop_spec (lo_address_get_url src) to_path
              (List.filter forwarded rest) (s_client_list st) st)
    as [ms1 [Hs1 [Hl1 Hall1]]].
  destruct (for_each _ (s_client_list st) st) as [l' st1].
  cbn [fst snd] in *. subst l' st1. state_simpl.
  destruct (s_gui_is_active st);
    [destruct (strcompare (lo_address_get_url (s_gui_address st))
                 (lo_address_get_url src)) eqn:Eg |].
  - eexists. eexists. eexists. split; [reflexivity |]. state_simpl.
    split; [rewrite <- app_assoc; reflexivity |].
    intros m Hm. apply in_app_or in Hm. destruct Hm as [Hm | [<- | []]].
    + destruct (Hall1 m Hm) as [c [a [_ [_ [Hu ->]]]]].
      exists a. auto.
    + exists (s_gui_address st). split; [reflexivity |].
      now apply String.eqb_eq.
  - eexists. eexists. exists ms1. split; [reflexivity |]. state_simpl.
    split; [reflexivity |].
    intros m Hm. destruct (Hall1 m Hm) as [c [a [_ [_ [Hu ->]]]]].
    exists a. auto.
  - eexists. eexists. exists ms1. split; [reflexivity |]. state_simpl.
    split; [reflexivity |].
    intros m Hm. destruct (Hall1 m Hm) as [c [a [_ [_ [Hu ->]]]]].
    exists a. auto.
Qed.

(** *** Locked sessions *)

Lemma latch_gui_msg text (st : State W) :
  s_pending_operation (gui_msg text st) = s_pending_operation st.
Proof. unfold gui_msg. destruct (s_gui_is_active st); reflexivity. Qed.

Lemma release_own_lock_frame (st : State W) :
  exists w, release_own_lock ext st = with_world w st.
Proof.
  unfold release_own_lock, delete_lock_file.
  destruct (negb (String.eqb (s_session_path st) "") &&
            negb (String.eqb (s_session_name st) "")).
  - eexists. reflexivity.
  - exists (world st). destruct st; reflexivity.
Qed.

(** C8, as amended. A load of a session that exists, whose lock file is
    there once the daemon has given up the lock of the session it has
    open itself, returns session_locked to its caller: the daemon goes
    on, with the records, the session path and the messages sent as they
    were. An open request whose load is this one is answered with an
    [/error] reply that carries session_locked, and the latch is free
    again. *)
Theorem locked_session_is_refused (path relativepath : string)
  (st : State W) :
  substr path (String.length (s_session_root st) + 1) = Some relativepath ->
  session_already_exists ext relativepath st = true ->
  let st1 := set_name ext path (release_own_lock ext st) in
  file_exists ext
    (get_lock_file_name ext (s_lockfile_directory st)
       (filename_base ext path) path)
    (world st1) = true ->
  (load_session_file ext osc_wait path st = Ok nsm.session_locked st1 /\
   s_client_list st1 = s_client_list st /\
   s_session_path st1 = s_session_path st /\
   sent st1 = sent st)
  /\
  (forall (src : lo_address) (name : string) (st0 : State W),
     s_pending_operation st0 = nsm.none ->
     open_saves_first ext osc_wait
       (gui_msg ("Opening session " +:+ name) st0) = Ok true st ->
     path = s_session_root st +:+ "/" +:+ name ->
     exists st',
       osc_open ext osc_wait src name st0 = Ok osc_msg_handled st' /\
       sent st' =
         sent st ++
         [error_message src "/nsm/server/open" nsm.session_locked
            "Session is locked by another process"] /\
       s_client_list st' = s_client_list st /\
       s_pending_operation st' = nsm.none).
Proof.
  intros Hsub Hexists st1 Hlock.
  destruct (release_own_lock_frame st) as [w Hw].
  assert (Hload :
            load_session_file ext osc_wait path st =
            Ok nsm.session_locked st1).
  { unfold load_session_file. rewrite Hsub, Hexists. cbn [negb].
    fold st1.
    replace (s_lockfile_directory st1) with (s_lockfile_directory st)
      by (subst st1; rewrite Hw; reflexivity).
    replace (s_session_name st1) with (filename_base ext path)
      by (subst st1; rewrite Hw; reflexivity).
    rewrite Hlock. reflexivity. }
  assert (Hframe :
            s_client_list st1 = s_client_list st /\
            s_session_path st1 = s_session_path st /\
            sent st1 = sent st).
  { subst st1. rewrite Hw. repeat split. }
  split; [split; [exact Hload | exact Hframe] |].
  intros src name st0 Hfree Hpre Hpath.
  unfold osc_open, bind, lift, gets, ret, latch_is_free.
  rewrite latch_gui_msg, Hfree. cbn [nsm.command_eqb negb].
  rewrite Hpre. cbn [negb].
  rewrite <- Hpath, Hload.
  eexists. split; [reflexivity |]. state_simpl.
  destruct Hframe as [Hl [_ Hs]].
  rewrite Hs, Hl. repeat split.
Qed.

(** *** The pending-operation latch *)

(** While the latch is taken, each of the orchestration requests is
    answered with operation_pending and changes nothing else. *)
Lemma orchestration_refused_while_pending (src : lo_address)
  (name : string) (st : State W) :
  s_pending_operation st <> nsm.none ->
  let refused path st :=
    Ok osc_msg_handled
      (send (Some src) "/error"
         [arg_s path; arg_i (nsm.error_code nsm.operation_pending);
          arg_s "An operation pending"] st) in
  osc_save ext osc_wait src st = refused "/nsm/server/save" st /\
  osc_open ext osc_wait src name st =
    refused "/nsm/server/open" (gui_msg ("Opening session " +:+ name) st) /\
  osc_newsrv ext osc_wait src name st = refused "/nsm/server/new" st /\
  osc_duplicate ext osc_wait src name st =
    refused "/nsm/server/duplicate" st /\
  osc_close ext osc_wait src st = refused "/nsm/server/close" st /\
  osc_abort ext osc_wait src st = refused "/nsm/server/abort" st.
Proof.
  intros Hbusy refused.
  assert (Hl : latch_is_free st = false).
  { unfold latch_is_free. now apply command_eqb_neq. }
  assert (Hl' : forall text, latch_is_free (gui_msg text st) = false).
  { intros text. unfold latch_is_free. rewrite latch_gui_msg. exact Hl. }
  unfold osc_save, osc_open, osc_newsrv, osc_duplicate, osc_close, osc_abort,
    refuse_pending, bind, gets, lift, ret.
  rewrite Hl, Hl'. cbn [negb]. repeat split.
Qed.

(** The save handler does its work without touching the latch: when the
    latch is free and a session is open, the clients are told to save in
    the very state the request arrived in, and the latch is written only
    after the reply. *)
Lemma save_leaves_the_latch_free (src : lo_address) (st : State W) :
  s_pending_operation st = nsm.none ->
  s_session_path st <> "" ->
  osc_save ext osc_wait src st =
  match command_all_clients_to_save ext osc_wait st with
  | Ok _ st' =>
      Ok osc_msg_handled
        (with_pending_operation nsm.none
           (reply_send_ex src "/nsm/server/save" "Saved" st'))
  | Halt h st' => Halt h st'
  end.
Proof.
  intros Hfree Hopen.
  unfold osc_save, bind, gets, lift, ret, latch_is_free.
  rewrite Hfree. cbn [nsm.command_eqb negb].
  apply String.eqb_neq in Hopen. rewrite Hopen.
  destruct (command_all_clients_to_save ext osc_wait st); reflexivity.
Qed.

(** The close handler, for comparison, takes the latch first. *)
Lemma close_takes_the_latch (src : lo_address) (st : State W) :
  s_pending_operation st = nsm.none ->
  s_session_path st <> "" ->
  osc_close ext osc_wait src st =
  match command_all_clients_to_save ext osc_wait
          (with_pending_operation nsm.close st) with
  | Ok _ st' =>
      match close_session ext osc_wait
              (gui_msg "Commanding clients to close" st') with
      | Ok _ st'' =>
          Ok osc_msg_handled
            (with_pending_operation nsm.none
               (reply_send_ex src "/nsm/server/close" "Closed" st''))
      | Halt h st'' => Halt h st''
      end
  | Halt h st' => Halt h st'
  end.
Proof.
  intros Hfree Hopen.
  unfold osc_close, bind, gets, lift, ret, latch_is_free.
  rewrite Hfree. cbn [nsm.command_eqb negb]. state_simpl.
  apply String.eqb_neq in Hopen. rewrite Hopen.
  destruct (command_all_clients_to_save ext osc_wait _); [| reflexivity].
  destruct (close_session ext osc_wait _); reflexivity.
Qed.

(** *** Listing *)

(** While the hierarchy is walked the state only gains replies, and each
    of them carries [text]. *)
Definition only_replies (text : option string) (st st' : State W) : Prop :=
  exists ms,
    st' = with_sent (sent st ++ ms) st /\
    forall m, In m ms ->
      exists t,
        text = Some t /\ m = list_reply (s_list_response_address st) t.

Lemma only_replies_refl text (st : State W) : only_replies text st st.
Proof.
  exists []. rewrite app_nil_r, with_sent_same.
  split; [reflexivity | intros m []].
Qed.

Lemma only_replies_trans text (st1 st2 st3 : State W) :
  only_replies text st1 st2 -> only_replies text st2 st3 ->
  only_replies text st1 st3.
Proof.
  intros [ms1 [-> H1]] [ms2 [-> H2]]. exists (ms1 ++ ms2). state_simpl.
  split; [now rewrite app_assoc |].
  intros m Hm. apply in_app_or in Hm. destruct Hm as [Hm | Hm]; auto.
Qed.

Lemma final_bind {A B} (m : M A) (k : A -> M B) (st : State W) :
  final (bind m k st) =
  match m st with
  | Ok a st1 => final (k a st1)
  | Halt _ st1 => st1
  end.
Proof. unfold bind. destruct (m st); reflexivity. Qed.

(** One entry of the walk: at most one reply, with the tail of the
    request path. *)
Lemma list_visit_replies path text ent cur (st : State W) :
  substr path (String.length (s_session_root st) + 1) = text ->
  only_replies text st (final (list_visit path ent cur st)).
Proof.
  intros Htext. unfold list_visit.
  destruct (negb (Z.land (fts_info ent) FTS_D =? 0)).
  { destruct cur; apply only_replies_refl. }
  destruct (negb (Z.land (fts_info ent) FTS_DP =? 0)).
  { destruct (same_entry cur (fts_path ent)); apply only_replies_refl. }
  destruct (negb (Z.land (fts_info ent) FTS_F =? 0));
    [| apply only_replies_refl].
  destruct (strcompare "session.nsm" (basename (fts_path ent)));
    [| apply only_replies_refl].
  unfold bind, gets, lift, ret. rewrite Htext.
  destruct text as [t |]; cbn [final]; [| apply only_replies_refl].
  eexists. split; [apply send_is_with_sent |].
  intros m [<- | []]. exists t. split; reflexivity.
Qed.

Lemma list_visit_keeps_root path ent cur (st : State W) :
  s_session_root (final (list_visit path ent cur st)) = s_session_root st.
Proof.
  unfold list_visit.
  destruct (negb (Z.land (fts_info ent) FTS_D =? 0)).
  { destruct cur; reflexivity. }
  destruct (negb (Z.land (fts_info ent) FTS_DP =? 0)).
  { destruct (same_entry cur (fts_path ent)); reflexivity. }
  destruct (negb (Z.land (fts_info ent) FTS_F =? 0)); [| reflexivity].
  destruct (strcompare "session.nsm" (basename (fts_path ent)));
    [| reflexivity].
  unfold bind, gets, lift, ret.
  destruct (substr path _); reflexivity.
Qed.

(** The whole walk, for any hierarchy. *)
Lemma fts_walk_replies path text (n : fsnode) :
  forall parent p cur (st : State W),
    substr path (String.length (s_session_root st) + 1) = text ->
    only_replies text st
      (final (fts_walk (list_visit path) parent p n cur st)).
Proof.
  induction n as [name | name entries IH] using fsnode_rect_nested;
    intros parent p cur st Htext.
  - cbn [fts_walk]. rewrite final_bind.
    pose proof (list_visit_replies path text
                  {| fts_info := FTS_F; fts_path := p; fts_name := name;
                     fts_parent := parent |} cur st Htext) as Hv.
    destruct (list_visit path _ cur st) as [r st1 | h st1]; exact Hv.
  - cbn [fts_walk]. rewrite final_bind.
    pose proof (list_visit_replies path text
                  {| fts_info := FTS_D; fts_path := p; fts_name := name;
                     fts_parent := parent |} cur st Htext) as Hv.
    destruct (list_visit path _ cur st) as [[cur1 skip] st1 | h st1];
      [| exact Hv].
    cbn [final] in Hv. cbn [fst snd].
    assert (Htext1 :
              substr path (String.length (s_session_root st1) + 1)
              = text).
    { destruct Hv as [ms [-> _]]. exact Htext. }
    assert (Haddr1 : s_list_response_address st1
                     = s_list_response_address st).
    { destruct Hv as [ms [-> _]]. reflexivity. }
    apply only_replies_trans with (st2 := st1); [exact Hv |].
    rewrite final_bind.
    assert (Hentries :
              forall l cur0 (st0 : State W),
                Forall (fun e =>
                          forall parent p cur (st : State W),
                            substr path
                              (String.length (s_session_root st) + 1)
                            = text ->
                            only_replies text st
                              (final (fts_walk (list_visit path) parent p e
                                        cur st))) l ->
                substr path (String.length (s_session_root st0) + 1)
                = text ->
                only_replies text st0
                  (final
                     ((fix entries_walk (l : list fsnode)
                         (acc : option string) : M (option string) :=
                         match l with
                         | [] => ret acc
                         | e :: rest =>
                             bind (fts_walk (list_visit path) p
                                     (p +:+ "/" +:+ node_name e) e acc)
                               (fun acc => entries_walk rest acc)
                         end) l cur0 st0))).
    { induction l as [| e rest IHl]; intros cur0 st0 Hall Ht0.
      - apply only_replies_refl.
      - inversion Hall as [| ? ? He Hrest]; subst.
        rewrite final_bind.
        pose proof (He p (p +:+ "/" +:+ node_name e) cur0 st0 Ht0) as H1.
        destruct (fts_walk (list_visit path) p _ e cur0 st0)
          as [cur2 st2 | h st2]; [| exact H1].
        cbn [final] in H1.
        apply only_replies_trans with (st2 := st2); [exact H1 |].
        apply IHl; [exact Hrest |].
        destruct H1 as [ms [-> _]]. exact Ht0. }
    set (walked :=
           (if skip then ret cur1
            else
              (fix entries_walk (l : list fsnode) (acc : option string)
                 : M (option string) :=
                 match l with
                 | [] => ret acc
                 | e :: rest =>
                     bind (fts_walk (list_visit path) p
                             (p +:+ "/" +:+ node_name e) e acc)
                       (fun acc => entries_walk rest acc)
                 end) entries cur1) st1).
    assert (Hwalked : only_replies text st1 (final walked)).
    { subst walked. destruct skip.
      - apply only_replies_refl.
      - apply Hentries; [exact IH | exact Htext1]. }
    destruct walked as [cur3 st3 | h st3]; [| exact Hwalked].
    cbn [final] in Hwalked.
    apply only_replies_trans with (st2 := st3); [exact Hwalked |].
    rewrite final_bind.
    assert (Htext3 :
              substr path (String.length (s_session_root st3) + 1)
              = text).
    { destruct Hwalked as [ms [-> _]]. exact Htext1. }
    pose proof (list_visit_replies path text
                  {| fts_info := FTS_DP; fts_path := p; fts_name := name;
                     fts_parent := parent |} cur3 st3 Htext3) as Hv3.
    destruct (list_visit path _ cur3 st3) as [r st4 | h st4]; exact Hv3.
Qed.

(** Whatever the hierarchy below the session root holds, the answers to a
    list request are decided by the request alone: each of them is the
    terminator or carries the tail of the request path, cut at the length
    of the session root plus one. *)
Lemma list_replies_ignore_the_hierarchy (src : lo_address) (st : State W) :
  exists ms,
    sent (final (osc_list ext src st)) =
      sent (gui_msg "Listing sessions" st) ++ ms /\
    forall m, In m ms ->
      m = list_reply (Some src) "" \/
      exists t,
        substr "/nsm/server/list" (String.length (s_session_root st) + 1)
        = Some t /\
        m = list_reply (Some src) t.
Proof.
  unfold osc_list.
  destruct (gui_msg_adds "Listing sessions" st) as [ms0 [Hs0 _]].
  unfold bind at 1, lift at 1. unfold bind at 1, lift at 1.
  unfold bind at 1, gets at 1. unfold bind at 1, gets at 1.
  rewrite Hs0. state_simpl.
  set (st1 := with_list_response_address (Some src)
                (with_sent (sent st ++ ms0) st)).
  destruct (fts_open ext (s_session_root st) (world st)) as [t |].
  - rewrite final_bind.
    pose proof (fts_walk_replies "/nsm/server/list"
                  (substr "/nsm/server/list"
                     (String.length (s_session_root st) + 1))
                  (fts_order t) "" (s_session_root st) None st1 eq_refl)
      as Hwalk.
    destruct (fts_walk _ _ _ _ _ st1) as [cur st2 | h st2];
      cbn [final] in Hwalk; destruct Hwalk as [ms [-> Hms]].
    + unfold bind, lift, ret. cbn [final]. state_simpl.
      exists (ms ++ [list_reply (Some src) ""]).
      split; [now rewrite app_assoc |].
      intros m Hm. apply in_app_or in Hm. destruct Hm as [Hm | [<- | []]].
      * right. destruct (Hms m Hm) as [t0 [Ht0 ->]]. exists t0.
        split; [exact Ht0 | reflexivity].
      * left. reflexivity.
    + state_simpl. exists ms. split; [reflexivity |].
      intros m Hm. right. destruct (Hms m Hm) as [t0 [Ht0 ->]]. exists t0.
      split; [exact Ht0 | reflexivity].
  - cbn [final stop]. state_simpl. exists []. rewrite app_nil_r.
    split; [reflexivity | intros m []].
Qed.

End DaemonFacts.

(** * Properties of the patch engine *)

Section PatchFacts.

Import jackpatch jackprops.

Context {J : Type}.
Variable lib : Jack J.

Lemma find_known_port_in_spec portname l :
  (In portname (List.map port_name l) ->
   find_known_port_in portname l = portname) /\
  (~ In portname (List.map port_name l) ->
   find_known_port_in portname l = "").
Proof.
  induction l as [| pr r [IHin IHout]]; simpl.
  - split; [intros [] | reflexivity].
  - destruct (String.eqb (port_name pr) portname) eqn:E.
    + apply String.eqb_eq in E. split; [intros _; exact E |].
      intros H. exfalso. apply H. now left.
    + apply String.eqb_neq in E. split.
      * intros [H | H]; [contradiction | now apply IHin].
      * intros H. apply IHout. intros Hin. apply H. now right.
Qed.

Lemma make_client_port_name_not_empty cp :
  make_client_port_name cp <> "".
Proof.
  unfold make_client_port_name. destruct (client cp); discriminate.
Qed.

(** A port name is found exactly when it is known. *)
Lemma known_port_found cp (e : Engine J) :
  negb (String.eqb (find_known_port (make_client_port_name cp) e) "") = true
  <-> known (make_client_port_name cp) e.
Proof.
  unfold find_known_port, known.
  destruct (find_known_port_in_spec (make_client_port_name cp)
              (g_known_ports e)) as [Hin Hout].
  rewrite Bool.negb_true_iff, String.eqb_neq. split.
  - intros Hne.
    destruct (List.in_dec String.string_dec (make_client_port_name cp)
                (List.map port_name (g_known_ports e))) as [H | H];
      [exact H |].
    exfalso. apply Hne. now apply Hout.
  - intros H. rewrite (Hin H). apply make_client_port_name_not_empty.
Qed.







End PatchFacts.

(** * More properties of the daemon *)

Section SessionFacts.
Context {W : Type}.
Variable ext : Externals W.
Variable osc_wait : State W -> result W unit.

Lemma bind_Ok {A B} (m : M A) (k : A -> M B) (st : State W) b st' :
  bind m k st = Ok b st' ->
  exists a st1, m st = Ok a st1 /\ k a st1 = Ok b st'.
Proof.
  unfold bind. destruct (m st) as [a st1 | h st1]; [| discriminate].
  intros H. exists a, st1. split; [reflexivity | exact H].
Qed.

Lemma list_pair_ind {A : Type} (P : list A -> Prop) :
  P [] -> (forall a, P [a]) -> (forall a b r, P r -> P (a :: b :: r)) ->
  forall l, P l.
Proof.
  intros H0 H1 H2.
  assert (H : forall l, P l /\ forall a, P (a :: l)).
  { induction l as [| x l [IH1 IH2]]; split; auto. }
  intros l. apply H.
Qed.

Lemma clear_clients_from_spec (l : list Client) (st : State W) :
  clear_clients_from l st =
  if Nat.even (List.length l) then Ok (every_second l) st
  else Halt (halt_undefined "increment of end()") st.
Proof.
  induction l as [| a | a b r IH] using list_pair_ind;
    [reflexivity | reflexivity |].
  cbn [clear_clients_from]. unfold bind. rewrite IH.
  cbn [List.length Nat.even every_second].
  destruct (Nat.even (List.length r)); reflexivity.
Qed.

Lemma every_second_length {A : Type} (l : list A) :
  List.length (every_second l) = Nat.div2 (List.length l).
Proof.
  induction l as [| a | a b r IH] using list_pair_ind;
    [reflexivity | reflexivity |].
  cbn [every_second List.length Nat.div2]. now rewrite IH.
Qed.

(** X1. [clear_clients] erases a record and then steps over the one
    that follows it: of a list of even length every second record is
    left, half of them, and on a list of odd length the loop increments
    the end iterator. *)
Theorem clear_clients_keeps_every_second (st : State W) :
  clear_clients st =
  (if Nat.even (List.length (s_client_list st))
   then Ok tt (with_client_list (every_second (s_client_list st)) st)
   else Halt (halt_undefined "increment of end()") st)
  /\ List.length (every_second (s_client_list st)) =
     Nat.div2 (List.length (s_client_list st)).
Proof.
  split; [| apply every_second_length].
  unfold clear_clients, bind, gets, lift.
  rewrite clear_clients_from_spec.
  destruct (Nat.even _); reflexivity.
Qed.


(** *** purge_inactive_clients *)

Lemma purge_inactive_from_sublists :
  forall (n : nat) (l : list Client) (st : State W) kept st',
    (List.length l <= n)%nat ->
    purge_inactive_clients_from l st = Ok kept st' ->
    sublist (List.filter m_active l) kept /\ sublist kept l /\
    s_client_list st' = s_client_list st.
Proof.
  induction n as [| n IH]; intros l st kept st' Hlen Hrun.
  - destruct l; [| simpl in Hlen; lia].
    cbn in Hrun. injection Hrun as <- <-.
    split; [constructor | split; [constructor | reflexivity]].
  - destruct l as [| c r].
    { cbn in Hrun. injection Hrun as <- <-.
      split; [constructor | split; [constructor | reflexivity]]. }
    cbn [purge_inactive_clients_from] in Hrun.
    cbn [List.filter].
    destruct (m_active c) eqn:Eactive; cbn [negb] in Hrun.
    + apply bind_Ok in Hrun. destruct Hrun as [kept0 [st1 [Hrec Hret]]].
      cbn in Hret. injection Hret as <- <-.
      destruct (IH r st kept0 st1) as [H1 [H2 H3]];
        [simpl in Hlen; lia | exact Hrec |].
      split; [now constructor | split; [now constructor | exact H3]].
    + apply bind_Ok in Hrun. destruct Hrun as [u [st1 [Hsend Hrest]]].
      unfold lift in Hsend. injection Hsend as _ <-.
      destruct r as [| skipped r']; [discriminate Hrest |].
      apply bind_Ok in Hrest. destruct Hrest as [kept0 [st2 [Hrec Hret]]].
      cbn in Hret. injection Hret as <- <-.
      assert (Hlen' : (List.length r' <= n)%nat) by (simpl in Hlen; lia).
      destruct (IH r' _ kept0 st2 Hlen' Hrec) as [H1 [H2 H3]].
      rewrite client_list_gui_send in H3.
      split; [| split; [| exact H3]].
      * cbn [List.filter]. destruct (m_active skipped).
        -- now constructor.
        -- now apply sublist_cons.
      * apply sublist_cons. now constructor.
Qed.

Lemma purge_inactive_from_skips pre a b r (st : State W) kept st' :
  Forall (fun c => m_active c = true) pre ->
  m_active a = false ->
  purge_inactive_clients_from (pre ++ a :: b :: r) st = Ok kept st' ->
  exists kept', kept = pre ++ b :: kept'.
Proof.
  intros Hpre Ha. revert st kept st'.
  induction Hpre as [| c pre Hc Hpre IH]; intros st kept st' Hrun.
  - cbn [app purge_inactive_clients_from] in Hrun. rewrite Ha in Hrun.
    cbn [negb] in Hrun.
    apply bind_Ok in Hrun. destruct Hrun as [u [st1 [_ Hrest]]].
    apply bind_Ok in Hrest. destruct Hrest as [kept0 [st2 [_ Hret]]].
    cbn in Hret. injection Hret as <- <-. exists kept0. reflexivity.
  - cbn [app purge_inactive_clients_from] in Hrun. rewrite Hc in Hrun.
    cbn [negb] in Hrun.
    apply bind_Ok in Hrun. destruct Hrun as [kept0 [st1 [Hrec Hret]]].
    cbn in Hret. injection Hret as <- <-.
    destruct (IH _ _ _ Hrec) as [kept' ->]. exists kept'. reflexivity.
Qed.

(** X2. [purge_inactive_clients]: when the loop comes to its end, every
    active record is still in the list, in its place; nothing was added;
    and the record that follows the first removed one is still there,
    active or not. *)
Theorem purge_inactive_keeps_what_follows (st st' : State W) :
  purge_inactive_clients st = Ok tt st' ->
  sublist (List.filter m_active (s_client_list st)) (s_client_list st') /\
  sublist (s_client_list st') (s_client_list st) /\
  forall pre a b r,
    s_client_list st = pre ++ a :: b :: r ->
    Forall (fun c => m_active c = true) pre ->
    m_active a = false ->
    exists kept', s_client_list st' = pre ++ b :: kept'.
Proof.
  unfold purge_inactive_clients. intros Hrun.
  apply bind_Ok in Hrun. destruct Hrun as [l [st0 [Hl Hrun]]].
  unfold gets in Hl. injection Hl as <- <-.
  apply bind_Ok in Hrun. destruct Hrun as [kept [st1 [Hrun Hret]]].
  unfold lift in Hret. injection Hret as <-. state_simpl.
  destruct (purge_inactive_from_sublists _ _ _ _ _ (Nat.le_refl _) Hrun)
    as [H1 [H2 _]].
  split; [exact H1 | split; [exact H2 |]].
  intros pre a b r Hl Hpre Ha. rewrite Hl in Hrun.
  exact (purge_inactive_from_skips _ _ _ _ _ _ _ Hpre Ha Hrun).
Qed.


(** *** The latch *)

Lemma resets_bind {A B} (m : M A) (k : A -> M B) :
  (forall a, resets (W := W) (k a)) -> resets (W := W) (bind m k).
Proof.
  intros Hk st b st' Hrun. apply bind_Ok in Hrun.
  destruct Hrun as [a [st1 [_ Hrun]]]. exact (Hk a st1 b st' Hrun).
Qed.

Lemma resets_tail (rc : Z) :
  resets (W := W)
    (bind (lift (with_pending_operation nsm.none)) (fun _ => ret rc)).
Proof. intros st a st' Hrun. cbn in Hrun. now injection Hrun as <- <-. Qed.

Lemma resets_abandon src path code text :
  resets (W := W) (abandon src path code text).
Proof. intros st a st' Hrun. cbn in Hrun. now injection Hrun as <- <-. Qed.

Ltac resets_step :=
  first
    [ apply resets_abandon
    | apply resets_tail
    | match goal with
      | |- resets (if ?b then _ else _) => destruct b
      | |- resets (match ?e with _ => _ end) => destruct e
      end
    | apply resets_bind; intros ? ].

Lemma guarded_resets src path (body : M Z) (st : State W) rc st' :
  resets (W := W) body ->
  s_pending_operation st = nsm.none ->
  bind (gets latch_is_free)
    (fun free => if negb free then refuse_pending src path else body) st
  = Ok rc st' ->
  s_pending_operation st' = nsm.none.
Proof.
  intros Hbody Hfree Hrun. unfold bind at 1, gets at 1 in Hrun.
  unfold latch_is_free in Hrun. rewrite Hfree in Hrun.
  cbn [nsm.command_eqb negb] in Hrun. exact (Hbody _ _ _ Hrun).
Qed.

Lemma osc_save_resets src (st : State W) rc st' :
  s_pending_operation st = nsm.none ->
  osc_save ext osc_wait src st = Ok rc st' ->
  s_pending_operation st' = nsm.none.
Proof.
  intros Hfree Hrun. unfold osc_save in Hrun.
  eapply guarded_resets; [| exact Hfree | exact Hrun].
  repeat resets_step.
Qed.

Lemma osc_duplicate_resets src name (st : State W) rc st' :
  s_pending_operation st = nsm.none ->
  osc_duplicate ext osc_wait src name st = Ok rc st' ->
  s_pending_operation st' = nsm.none.
Proof.
  intros Hfree Hrun. unfold osc_duplicate in Hrun.
  eapply guarded_resets; [| exact Hfree | exact Hrun].
  repeat resets_step.
Qed.

Lemma osc_newsrv_resets src name (st : State W) rc st' :
  s_pending_operation st = nsm.none ->
  osc_newsrv ext osc_wait src name st = Ok rc st' ->
  s_pending_operation st' = nsm.none.
Proof.
  intros Hfree Hrun. unfold osc_newsrv in Hrun.
  eapply guarded_resets; [| exact Hfree | exact Hrun].
  repeat resets_step.
Qed.

Lemma osc_abort_resets src (st : State W) rc st' :
  s_pending_operation st = nsm.none ->
  osc_abort ext osc_wait src st = Ok rc st' ->
  s_pending_operation st' = nsm.none.
Proof.
  intros Hfree Hrun. unfold osc_abort in Hrun.
  eapply guarded_resets; [| exact Hfree | exact Hrun].
  repeat resets_step.
Qed.

Lemma osc_close_resets src (st : State W) rc st' :
  s_pending_operation st = nsm.none ->
  osc_close ext osc_wait src st = Ok rc st' ->
  s_pending_operation st' = nsm.none.
Proof.
  intros Hfree Hrun. unfold osc_close in Hrun.
  eapply guarded_resets; [| exact Hfree | exact Hrun].
  repeat resets_step.
Qed.

Lemma osc_open_resets src name (st : State W) rc st' :
  s_pending_operation st = nsm.none ->
  osc_open ext osc_wait src name st = Ok rc st' ->
  s_pending_operation st' = nsm.none.
Proof.
  intros Hfree Hrun. unfold osc_open in Hrun.
  apply bind_Ok in Hrun. destruct Hrun as [u [st1 [Hmsg Hrun]]].
  unfold lift in Hmsg. injection Hmsg as _ <-.
  eapply guarded_resets; [| | exact Hrun].
  - repeat resets_step.
  - now rewrite latch_gui_msg.
Qed.


Ltac split_ifs :=
  repeat (state_simpl;
          match goal with
          | |- context [if ?b then _ else _] => destruct b eqn:?
          end);
  state_simpl.

Lemma osc_announce_keeps_latch src a :
  keeps_latch (W := W) (osc_announce ext src a).
Proof.
  intros st rc st'. unfold osc_announce.
  assert (Hl : s_pending_operation
                 (gui_msg ("Announce from " +:+ an_client_name a) st)
               = s_pending_operation st) by apply latch_gui_msg.
  set (st0 := gui_msg ("Announce from " +:+ an_client_name a) st) in *.
  clearbody st0.
  destruct (String.eqb (s_session_path st0) "").
  { intros H. injection H as _ <-. exact Hl. }
  destruct (expected_slot (an_executable a) (s_client_list st0)) as [ci |].
  - destruct (an_api_major a >? NSM_API_VERSION_MAJOR).
    { intros H. injection H as _ <-. exact Hl. }
    intros H. injection H as _ <-. unfold gui_send. split_ifs; exact Hl.
  - destruct (generate_client_id ext "n----" (world st0)) as [id w].
    destruct (an_api_major a >? NSM_API_VERSION_MAJOR).
    { intros H. injection H as _ <-. exact Hl. }
    intros H. injection H as _ <-. unfold gui_send. split_ifs; exact Hl.
Qed.

Lemma osc_broadcast_keeps_latch src argv :
  keeps_latch (W := W) (osc_broadcast ext src argv).
Proof.
  intros st rc st'. unfold osc_broadcast.
  destruct argv as [| [to_path | | |] rest];
    try (intros H; injection H as _ <-; reflexivity).
  destruct (negb (strncompare ext to_path "/nsm/")).
  { intros H. injection H as _ <-. reflexivity. }
  unfold bind, lift, ret, for_each_client.
  destruct (relay_loop_spec (lo_address_get_url src) to_path
              (List.filter forwarded rest) (s_client_list st) st)
    as [ms [Hsnd _]].
  destruct (for_each _ _ _) as [l st1]. cbn [snd] in Hsnd. subst st1.
  intros H. injection H as _ <-. split_ifs; reflexivity.
Qed.

Lemma client_of_source_Ok src (st : State W) found st' :
  client_of_source src st = Ok found st' -> st' = st.
Proof.
  unfold client_of_source, bind, gets.
  destruct (get_client_by_address src (s_client_list st));
    cbn; intros H; [now injection H | now injection H | discriminate].
Qed.

(** The state a list request ends in: replies have been added, and the
    address of the requester is kept. *)
Lemma osc_list_frame src (st : State W) :
  exists ms,
    final (osc_list ext src st) =
    with_sent (sent st ++ ms) (with_list_response_address (Some src) st).
Proof.
  unfold osc_list.
  destruct (gui_msg_adds "Listing sessions" st) as [ms0 [Hs0 _]].
  unfold bind at 1, lift at 1. unfold bind at 1, lift at 1.
  unfold bind at 1, gets at 1. unfold bind at 1, gets at 1.
  rewrite Hs0. state_simpl.
  set (st1 := with_list_response_address (Some src)
                (with_sent (sent st ++ ms0) st)).
  destruct (fts_open ext (s_session_root st) (world st)) as [t |].
  - rewrite final_bind.
    pose proof (fts_walk_replies "/nsm/server/list"
                  (substr "/nsm/server/list"
                     (String.length (s_session_root st) + 1))
                  (fts_order t) "" (s_session_root st) None st1 eq_refl)
      as Hwalk.
    destruct (fts_walk _ _ _ _ _ st1) as [cur st2 | h st2];
      cbn [final] in Hwalk; destruct Hwalk as [ms [-> Hms]].
    + unfold bind, lift, ret. cbn [final]. state_simpl.
      eexists ((ms0 ++ ms) ++ [_]). subst st1. unfold with_sent,
        with_list_response_address. cbn. rewrite !app_assoc. reflexivity.
    + exists (ms0 ++ ms). subst st1. unfold with_sent,
        with_list_response_address. cbn. rewrite !app_assoc. reflexivity.
  - cbn [final stop]. exists ms0. reflexivity.
Qed.

Lemma osc_list_keeps_latch src :
  keeps_latch (W := W) (osc_list ext src).
Proof.
  intros st rc st' Hrun.
  destruct (osc_list_frame src st) as [ms Hfinal].
  rewrite Hrun in Hfinal. cbn [final] in Hfinal. subst st'. reflexivity.
Qed.

Lemma close_session_Ok (st st1 : State W) :
  close_session ext osc_wait st = Ok tt st1 ->
  s_session_path st1 = "" /\
  (s_session_path st <> "" -> s_session_name st1 = "").
Proof.
  unfold close_session. unfold bind at 1, gets at 1.
  destruct (String.eqb (s_session_path st) "") eqn:Epath; cbn [negb].
  - apply String.eqb_eq in Epath. intros H. injection H as <-.
    split; [exact Epath | intros Hne; contradiction].
  - intros Hrun.
    repeat (apply bind_Ok in Hrun;
            let a := fresh "a" in
            let s := fresh "s" in
            let H1 := fresh "Hstep" in
            destruct Hrun as [a [s [H1 Hrun]]]).
    unfold lift in *.
    injection Hrun as <-. injection Hstep5 as _ <-.
    injection Hstep4 as _ <-.
    unfold gui_send. split; [| intros _]; split_ifs; reflexivity.
Qed.

Lemma osc_quit_not_Ok (st : State W) rc st' :
  osc_quit ext osc_wait st <> Ok rc st'.
Proof.
  intros Hrun. unfold osc_quit, handle_signal_clean_exit in Hrun.
  repeat (apply bind_Ok in Hrun;
          let a := fresh "a" in
          let s := fresh "s" in
          let H1 := fresh "Hstep" in
          destruct Hrun as [a [s [H1 Hrun]]]).
  discriminate Hrun.
Qed.

(** X3. [OSC_HANDLER (quit)] does not return: it ends in [exit (0)] of
    [handle_signal_clean_exit] or earlier. When the first
    [close_session] returns, the second finds no session open, the
    daemon file is deleted and the exit status is 0. *)
Theorem quit_never_returns (st : State W) :
  (forall rc st', osc_quit ext osc_wait st <> Ok rc st') /\
  (forall st1,
     close_session ext osc_wait st = Ok tt st1 ->
     osc_quit ext osc_wait st =
     Halt (halt_exit 0)
       (with_world (snd (file_delete ext (s_daemon_file st1) (world st1)))
          st1)).
Proof.
  split.
  - intros rc st'. apply osc_quit_not_Ok.
  - intros st1 Hclose. unfold osc_quit, handle_signal_clean_exit.
    unfold bind at 1. rewrite Hclose.
    destruct (close_session_Ok _ _ Hclose) as [Hpath _].
    unfold bind at 1. unfold close_session at 1.
    unfold bind at 1, gets at 1. rewrite Hpath. cbn [String.eqb negb].
    reflexivity.
Qed.


(** *** Lookup by address *)

Lemma get_client_by_address_null addr l :
  get_client_by_address addr l = lookup_null <->
  silent_record_first addr l.
Proof.
  unfold silent_record_first. induction l as [| c r IH]; cbn.
  - split; [discriminate |].
    intros [before [c [after [H _]]]]. destruct before; discriminate H.
  - destruct (m_addr c) as [a |] eqn:Eaddr.
    + destruct (address_matches a addr) eqn:Ematch.
      * split; [discriminate |].
        intros [before [c0 [after [Hl [Hnone Hbefore]]]]].
        destruct before as [| x before]; cbn in Hl; injection Hl as -> ->.
        -- congruence.
        -- destruct (Hbefore x (or_introl eq_refl)) as [a0 [Ha0 Hport]].
           rewrite Eaddr in Ha0. injection Ha0 as <-.
           apply address_matches_port in Ematch. contradiction.
      * rewrite IH. split.
        -- intros [before [c0 [after [-> [Hnone Hbefore]]]]].
           exists (c :: before), c0, after.
           split; [reflexivity | split; [exact Hnone |]].
           intros x [<- | Hx]; [| now apply Hbefore].
           exists a. split; [exact Eaddr |].
           intros Hport. apply address_matches_port in Hport. congruence.
        -- intros [before [c0 [after [Hl [Hnone Hbefore]]]]].
           destruct before as [| x before]; cbn in Hl; injection Hl as -> ->.
           ++ congruence.
           ++ exists before, c0, after.
              split; [reflexivity | split; [exact Hnone |]].
              intros y Hy. apply Hbefore. now right.
    + split; [intros _ | reflexivity].
      exists [], c, r. split; [reflexivity | split; [exact Eaddr |]].
      intros x [].
Qed.

Lemma client_of_source_Halt src (st : State W) h st' :
  client_of_source src st = Halt h st' ->
  h = halt_throw "std::logic_error" /\ st' = st /\
  get_client_by_address src (s_client_list st) = lookup_null.
Proof.
  unfold client_of_source, bind, gets.
  destruct (get_client_by_address src (s_client_list st));
    cbn; intros H; try discriminate H.
  injection H as <- <-. repeat split.
Qed.

Lemma client_of_source_null src (st : State W) :
  get_client_by_address src (s_client_list st) = lookup_null ->
  client_of_source src st = Halt (halt_throw "std::logic_error") st.
Proof.
  intros H. unfold client_of_source, bind, gets. now rewrite H.
Qed.

(** *** Answers of the clients *)

Lemma store_client_selfs c l :
  List.map self (store_client c l) = List.map self l.
Proof.
  unfold store_client. rewrite List.map_map. apply List.map_ext.
  intros x. destruct (Nat.eqb (self x) (self c)) eqn:E; [| reflexivity].
  symmetry. now apply Nat.eqb_eq.
Qed.


Lemma get_client_by_address_found addr l c :
  get_client_by_address addr l = lookup_found c -> In c l.
Proof.
  induction l as [| x r IH]; cbn; [discriminate |].
  destruct (m_addr x) as [a |]; [| discriminate].
  destruct (address_matches a addr).
  - intros H. injection H as ->. now left.
  - intros H. right. now apply IH.
Qed.


Lemma client_of_source_found src (st : State W) c st' :
  client_of_source src st = Ok (Some c) st' ->
  get_client_by_address src (s_client_list st) = lookup_found c.
Proof.
  unfold client_of_source, bind, gets.
  destruct (get_client_by_address src (s_client_list st));
    cbn; intros H; try discriminate H.
  now injection H as -> _.
Qed.




(** *** purge_dead_clients *)

Lemma find_by_self_in (p : nat) (l : list Client) :
  In p (List.map self l) ->
  exists c, List.find (fun c => Nat.eqb (self c) p) l = Some c /\
            self c = p /\ In c l.
Proof.
  induction l as [| x r IH]; cbn; [intros [] |].
  destruct (Nat.eqb (self x) p) eqn:E.
  - intros _. exists x. apply Nat.eqb_eq in E. repeat split; auto.
  - intros [H | H]; [apply Nat.eqb_neq in E; contradiction |].
    destruct (IH H) as [c [Hf [Hs Hin]]]. exists c. repeat split; auto.
Qed.

(** [handle_client_process_death] stops in one way only. *)
Lemma process_death_Halt pid (st : State W) h st' :
  handle_client_process_death pid st = Halt h st' ->
  h = halt_undefined "write to a deleted Client" /\
  exists c, get_client_by_pid pid (s_client_list st) = Some c /\
            m_pending_command c = nsm.quit.
Proof.
  unfold handle_client_process_death.
  destruct (get_client_by_pid pid (s_client_list st)) as [c |];
    [| discriminate].
  destruct (nsm.command_eqb (m_pending_command c) nsm.quit) eqn:Eq;
    [| discriminate].
  intros H. injection H as <- _. split; [reflexivity |].
  exists c. split; [reflexivity | now apply command_eqb_eq].
Qed.

(** What a death that is handled to the end leaves of the list. *)
Lemma process_death_Ok pid (st st' : State W) :
  handle_client_process_death pid st = Ok tt st' ->
  world st' = world st /\
  match get_client_by_pid pid (s_client_list st) with
  | None => s_client_list st' = s_client_list st
  | Some c =>
      m_pending_command c <> nsm.quit /\
      exists c',
        s_client_list st' = store_client c' (s_client_list st) /\
        self c' = self c /\ m_pending_command c' = nsm.none /\
        m_active c' = false /\ m_pid c' = 0 /\ m_status c' = "stopped"
  end.
Proof.
  intros Hrun.
  destruct (get_client_by_pid pid (s_client_list st)) as [c |] eqn:Efind.
  - destruct (process_death_outcome pid st c Efind) as [Hquit Hstay].
    destruct (nsm.command_eqb (m_pending_command c) nsm.quit) eqn:Eq.
    + apply command_eqb_eq in Eq. destruct (Hquit Eq) as [st1 [Hhalt _]].
      rewrite Hhalt in Hrun. discriminate Hrun.
    + apply command_eqb_neq in Eq.
      destruct (Hstay Eq) as [st1 [c' [Hok Hrest]]].
      rewrite Hok in Hrun. injection Hrun as <-.
      split; [| split; [exact Eq | exists c'; exact Hrest]].
      unfold handle_client_process_death in Hok. rewrite Efind in Hok.
      apply command_eqb_neq in Eq. rewrite Eq in Hok.
      injection Hok as <-. unfold gui_msg, gui_send.
      destruct (nsm.command_eqb (m_pending_command c) nsm.kill || false);
        destruct (s_gui_is_active st) eqn:Eg; state_simpl;
        try rewrite Eg; state_simpl; try rewrite Eg; state_simpl;
        try reflexivity.
  - unfold handle_client_process_death in Hrun. rewrite Efind in Hrun.
    injection Hrun as <-. split; reflexivity.
Qed.

(** A record that has the quit command pending had it before the
    death was handled. *)
Lemma process_death_quit pid (st st' : State W) :
  handle_client_process_death pid st = Ok tt st' ->
  List.map self (s_client_list st') = List.map self (s_client_list st) /\
  forall x, In x (s_client_list st') ->
    m_pending_command x = nsm.quit -> In x (s_client_list st).
Proof.
  intros Hrun. destruct (process_death_Ok _ _ _ Hrun) as [_ Hlist].
  destruct (get_client_by_pid pid (s_client_list st)) as [c |].
  - destruct Hlist as [_ [c' [Hl [_ [Hnone _]]]]]. rewrite Hl.
    split; [apply store_client_selfs |].
    intros x Hx Hq. apply in_store_client in Hx.
    destruct Hx as [-> | [Hx _]]; [| exact Hx].
    rewrite Hnone in Hq. discriminate Hq.
  - rewrite Hlist. split; [reflexivity | auto].
Qed.

(** The walk of [purge_dead_clients]: it comes to its end with every
    record in its place, or it stops where the record that was told to
    quit has been deleted. *)
Lemma purge_dead_clients_from_runs (quitters : list Client)
  (tmp : list nat) :
  forall (st : State W) (pre : list nat),
    List.map self (s_client_list st) = pre ++ tmp ->
    (forall x, In x (s_client_list st) ->
       m_pending_command x = nsm.quit -> In x quitters) ->
    match purge_dead_clients_from ext tmp st with
    | Ok _ st' =>
        List.map self (s_client_list st') = List.map self (s_client_list st)
    | Halt h _ =>
        h = halt_undefined "write to a deleted Client" /\
        exists c, In c quitters /\ m_pending_command c = nsm.quit /\
                  m_pid c <> 0
    end.
Proof.
  induction tmp as [| p r IH]; intros st pre Hsplit Hquit.
  - reflexivity.
  - cbn [purge_dead_clients_from]. unfold bind at 1, gets at 1.
    destruct (find_by_self_in p (s_client_list st)) as [c [Hfind [Hself Hin]]].
    { rewrite Hsplit. apply in_or_app. right. now left. }
    rewrite Hfind.
    assert (Hnext : forall st1 : State W,
              List.map self (s_client_list st1)
                = List.map self (s_client_list st) ->
              (forall x, In x (s_client_list st1) ->
                 m_pending_command x = nsm.quit ->
                 In x (s_client_list st)) ->
              match purge_dead_clients_from ext r st1 with
              | Ok _ st' =>
                  List.map self (s_client_list st')
                    = List.map self (s_client_list st)
              | Halt h _ =>
                  h = halt_undefined "write to a deleted Client" /\
                  exists c, In c quitters /\
                            m_pending_command c = nsm.quit /\ m_pid c <> 0
              end).
    { intros st1 Hl Hq1.
      specialize (IH st1 (pre ++ [p])).
      destruct (purge_dead_clients_from ext r st1) as [u st' | h st'].
      - rewrite <- Hl. apply IH.
        + rewrite Hl, Hsplit, <- app_assoc. reflexivity.
        + intros x Hx Hxq. apply Hquit; [now apply Hq1 | exact Hxq].
      - apply IH.
        + rewrite Hl, Hsplit, <- app_assoc. reflexivity.
        + intros x Hx Hxq. apply Hquit; [now apply Hq1 | exact Hxq]. }
    destruct (negb (m_pid c =? 0)) eqn:Epid.
    + unfold bind at 1. unfold process_is_running.
      destruct (kill ext (m_pid c) 0 (world st)) as [rc w].
      destruct (rc =? 0).
      * apply Hnext; [reflexivity | auto].
      * set (st1 := with_world w st).
        destruct (handle_client_process_death (m_pid c) st1)
          as [u st2 | h st2] eqn:Edeath.
        -- destruct u.
           destruct (process_death_quit _ _ _ Edeath) as [Hselfs Hq2].
           apply Hnext; [exact Hselfs | exact Hq2].
        -- destruct (process_death_Halt _ _ _ _ Edeath)
             as [-> [c0 [Hc0 Hq0]]].
           split; [reflexivity |].
           destruct (get_client_by_pid_Some _ _ _ Hc0) as [Hin0 Hpid0].
           exists c0. split; [now apply Hquit |]. split; [exact Hq0 |].
           rewrite Hpid0. apply Bool.negb_true_iff in Epid.
           now apply Z.eqb_neq.
    + unfold bind at 1. cbn [ret]. apply Hnext; [reflexivity | auto].
Qed.

(** X6. [purge_dead_clients] walks a copy of the list of pointers. It
    comes to its end with every record in the list and in its place, or
    it stops in [handle_client_process_death], which writes to the
    record it has just deleted: that happens only for a record that
    has a PID and the quit command pending. The walk itself never
    comes to a record that was deleted. *)
Theorem purge_dead_clients_meets_no_deleted_record (st : State W) :
  match purge_dead_clients ext st with
  | Ok _ st' =>
      List.map self (s_client_list st') = List.map self (s_client_list st)
  | Halt h _ =>
      h = halt_undefined "write to a deleted Client" /\
      exists c, In c (s_client_list st) /\
                m_pending_command c = nsm.quit /\ m_pid c <> 0
  end.
Proof.
  unfold purge_dead_clients, bind, gets.
  exact (purge_dead_clients_from_runs (s_client_list st) _ st [] eq_refl
           (fun x Hx _ => Hx)).
Qed.


(** *** launch *)

Lemma get_client_by_id_in l id c :
  get_client_by_id l id = Some c -> In c l.
Proof.
  unfold get_client_by_id, get_client_by_name.
  destruct (is_a_client_id id); intros H; apply List.find_some in H;
    tauto.
Qed.

Lemma world_gui_send msg s1 s2 (st : State W) :
  world (gui_send msg s1 s2 st) = world st.
Proof. unfold gui_send. destruct (s_gui_is_active st); reflexivity. Qed.

(** X7. [launch] in the daemon (the parent of the fork): the call answers
    true whatever [fork] returned, a failure (-1) included, and that
    value is the PID of the record. The record is the one
    [get_client_by_id] finds for the id, which keeps its place, its id
    and its executable; or a new one at the end of the list, named after
    the base name of the executable. The only other way the call ends is
    in the child (the record is taken to be allocated: [new] does not
    fail). *)
Theorem launch_in_the_parent (executable clientid : string)
  (st : State W) :
  (forall x, In x (s_client_list st) -> self x <> next_object st) ->
  match launch ext executable clientid st with
  | Halt h _ => h = halt_child
  | Ok rc st' =>
      rc = true /\
      exists c w0,
        In c (s_client_list st') /\
        m_pid c = fst (fork ext w0) /\ world st' = snd (fork ext w0) /\
        m_pid c <> 0 /\
        m_pending_command c = nsm.start /\ m_status c = "launch" /\
        m_launch_error c = 0 /\
        match get_client_by_id (s_client_list st) clientid with
        | Some c0 =>
            self c = self c0 /\
            List.map self (s_client_list st') =
              List.map self (s_client_list st) /\
            m_exe_path c = m_exe_path c0 /\
            m_client_id c = m_client_id c0 /\
            w0 = world st
        | None =>
            s_client_list st' = s_client_list st ++ [c] /\
            self c = next_object st /\
            m_name c = basename executable /\
            m_exe_path c = executable /\
            m_active c = false /\ m_addr c = None /\
            (clientid <> "" -> m_client_id c = clientid /\ w0 = world st)
        end
  end.
Proof.
  intros Hfresh. unfold launch.
  destruct (get_client_by_id (s_client_list st) clientid) as [c0 |] eqn:Eid.
  - destruct (fork ext (world st)) as [pid w] eqn:Efork.
    destruct (pid =? 0) eqn:Epid; [reflexivity |].
    apply Z.eqb_neq in Epid.
    split; [reflexivity |].
    eexists. exists (world st).
    rewrite !client_list_gui_send, !world_gui_send. state_simpl.
    split.
    { apply store_client_in with (c0 := c0);
        [now apply get_client_by_id_in in Eid | reflexivity]. }
    rewrite Efork. cbn [fst snd]. client_simpl.
    do 6 (split; [reflexivity || exact Epid |]).
    split; [reflexivity |]. split; [apply store_client_selfs |].
    repeat split.
  - destruct (String.eqb clientid "") eqn:Eempty.
    + destruct (generate_client_id ext "n----" (world st)) as [id w1].
      state_simpl.
      destruct (fork ext w1) as [pid w] eqn:Efork.
      destruct (pid =? 0) eqn:Epid; [reflexivity |].
      apply Z.eqb_neq in Epid.
      split; [reflexivity |].
      eexists. exists w1.
      rewrite !client_list_gui_send, !world_gui_send. state_simpl.
      rewrite store_client_app, store_client_fresh by exact Hfresh.
      cbn [store_client List.map]. client_simpl. rewrite Nat.eqb_refl.
      split; [apply in_or_app; right; now left |].
      rewrite Efork. cbn [fst snd].
      do 12 (split; [reflexivity || exact Epid |]).
      apply String.eqb_eq in Eempty. intros Hne. contradiction.
    + state_simpl.
      destruct (fork ext (world st)) as [pid w] eqn:Efork.
      destruct (pid =? 0) eqn:Epid; [reflexivity |].
      apply Z.eqb_neq in Epid.
      split; [reflexivity |].
      eexists. exists (world st).
      rewrite !client_list_gui_send, !world_gui_send. state_simpl.
      rewrite store_client_app, store_client_fresh by exact Hfresh.
      cbn [store_client List.map]. client_simpl. rewrite Nat.eqb_refl.
      split; [apply in_or_app; right; now left |].
      rewrite Efork. cbn [fst snd].
      do 12 (split; [reflexivity || exact Epid |]).
      intros _. split; reflexivity.
Qed.


(** *** Session names *)

Lemma substr_cut (root name : string) :
  substr (root +:+ "/" +:+ name) (String.length root + 1) = Some name.
Proof.
  induction root as [| c r IH].
  - change (substr name 0 = Some name). now destruct name.
  - exact IH.
Qed.

Lemma substr_empty (n : nat) : substr "" (n + 1) = None.
Proof. now rewrite Nat.add_1_r. Qed.

Lemma prefix_app (part b : string) : String.prefix part (part +:+ b) = true.
Proof.
  induction part as [| c p IH].
  - now destruct b.
  - change (String c p +:+ b) with (String c (p +:+ b)). cbn [String.prefix].
    destruct (Ascii.ascii_dec c c) as [_ | Hne]; [exact IH | contradiction].
Qed.

Lemma prefix_split (part s : string) :
  String.prefix part s = true -> exists b, s = part +:+ b.
Proof.
  revert s. induction part as [| c p IH]; intros s.
  - intros _. now exists s.
  - destruct s as [| d s]; cbn [String.prefix]; [discriminate |].
    destruct (Ascii.ascii_dec c d) as [-> | _]; [| discriminate].
    intros H. destruct (IH s H) as [b ->]. now exists b.
Qed.

(** [util::contains (s, part)] is true exactly when [part] lies somewhere
    in [s]. *)
Lemma contains_spec (s part : string) :
  contains s part = true <-> exists a b, s = a +:+ part +:+ b.
Proof.
  split.
  - induction s as [| c r IH]; cbn [contains].
    + rewrite Bool.orb_false_r. intros H.
      destruct (prefix_split _ _ H) as [b ->]. now exists "", b.
    + intros H. apply Bool.orb_true_iff in H. destruct H as [H | H].
      * destruct (prefix_split _ _ H) as [b Hb]. exists "", b. exact Hb.
      * destruct (IH H) as [a [b ->]]. now exists (String c a), b.
  - intros [a [b ->]]. induction a as [| c a IH].
    + change ("" +:+ part +:+ b) with (part +:+ b).
      destruct (part +:+ b) eqn:E; cbn [contains]; rewrite <- E;
        now rewrite prefix_app.
    + change (String c a +:+ part +:+ b)
        with (String c (a +:+ part +:+ b)).
      cbn [contains]. rewrite IH. apply Bool.orb_true_r.
Qed.

Lemma world_gui_msg text (st : State W) :
  world (gui_msg text st) = world st.
Proof. unfold gui_msg. destruct (s_gui_is_active st); reflexivity. Qed.

Lemma release_latch (st : State W) ms op :
  s_pending_operation st = nsm.none ->
  with_pending_operation nsm.none
    (with_sent (sent st ++ ms) (with_pending_operation op st))
  = with_sent (sent st ++ ms) st.
Proof.
  intros Hfree. destruct st. cbn in *. now rewrite Hfree.
Qed.

Lemma refusal_releases_latch src path code text op (st : State W) :
  s_pending_operation st = nsm.none ->
  with_pending_operation nsm.none
    (error_send_ex src path code text (with_pending_operation op st))
  = with_sent (sent st ++ [error_message src path code text]) st.
Proof.
  intros Hfree. destruct st. cbn in *. now rewrite Hfree.
Qed.

(** X8. A session name in which two dots follow each other, wherever they
    stand, is refused by [new] and, when a session is open, by
    [duplicate]: the requester gets [create_failed] with "Invalid session
    name", and that reply is all that has happened. *)
Theorem name_with_two_dots_is_refused (src : lo_address)
  (a b : string) (st : State W) :
  s_pending_operation st = nsm.none ->
  let name := a +:+ ".." +:+ b in
  path_is_valid name = false /\
  osc_newsrv ext osc_wait src name st =
    Ok osc_msg_handled
      (with_sent
         (sent st ++
          [error_message src "/nsm/server/new" nsm.create_failed
             "Invalid session name"]) st) /\
  (s_session_path st <> "" ->
   osc_duplicate ext osc_wait src name st =
     Ok osc_msg_handled
       (with_sent
          (sent st ++
           [error_message src "/nsm/server/duplicate" nsm.create_failed
              "Invalid session name"]) st)).
Proof.
  intros Hfree name.
  assert (Hinvalid : path_is_valid name = false).
  { unfold path_is_valid. apply Bool.negb_false_iff.
    apply contains_spec. now exists a, b. }
  split; [exact Hinvalid | split].
  - unfold osc_newsrv. unfold bind at 1, gets at 1.
    unfold latch_is_free. rewrite Hfree. cbn [nsm.command_eqb negb].
    unfold bind at 1, lift at 1. fold name. rewrite Hinvalid. cbn [negb].
    unfold abandon, bind, lift, ret.
    now rewrite refusal_releases_latch.
  - intros Hopen. apply String.eqb_neq in Hopen.
    unfold osc_duplicate. unfold bind at 1, gets at 1.
    unfold latch_is_free. rewrite Hfree. cbn [nsm.command_eqb negb].
    unfold bind at 1, lift at 1. unfold bind at 1, gets at 1.
    state_simpl. rewrite Hopen. fold name. rewrite Hinvalid. cbn [negb].
    unfold abandon, bind, lift, ret.
    now rewrite refusal_releases_latch.
Qed.

(** X9. A request to open a session that has no [session.nsm] below the
    session root, made while no session is open: the requester gets
    [no_such_file], and nothing else has changed but for the note to the
    GUI. *)
Theorem open_of_a_missing_session (src : lo_address) (name : string)
  (st : State W) :
  s_pending_operation st = nsm.none ->
  s_session_path st = "" ->
  session_already_exists ext name st = false ->
  let st0 := gui_msg ("Opening session " +:+ name) st in
  load_session_file ext osc_wait (s_session_root st +:+ "/" +:+ name) st
    = Ok nsm.no_such_file st /\
  osc_open ext osc_wait src name st =
    Ok osc_msg_handled
      (with_sent
         (sent st0 ++
          [error_message src "/nsm/server/open" nsm.no_such_file
             "The named session does not exist"]) st0).
Proof.
  intros Hfree Hclosed Hmissing st0.
  assert (Hload : forall st1 : State W,
            s_session_root st1 = s_session_root st ->
            world st1 = world st ->
            load_session_file ext osc_wait
              (s_session_root st +:+ "/" +:+ name) st1
            = Ok nsm.no_such_file st1).
  { intros st1 Hroot Hworld. unfold load_session_file.
    rewrite Hroot, substr_cut. unfold session_already_exists in *.
    rewrite Hroot, Hworld, Hmissing. reflexivity. }
  split; [now apply Hload |].
  unfold osc_open. unfold bind at 1, lift at 1. fold st0.
  assert (Hfree0 : s_pending_operation st0 = nsm.none)
    by (subst st0; now rewrite latch_gui_msg).
  assert (Hroot0 : s_session_root st0 = s_session_root st).
  { subst st0. unfold gui_msg. now destruct (s_gui_is_active st). }
  assert (Hpath0 : s_session_path st0 = "").
  { subst st0. unfold gui_msg. now destruct (s_gui_is_active st). }
  assert (Hworld0 : world st0 = world st) by apply world_gui_msg.
  unfold bind at 1, gets at 1. unfold latch_is_free. rewrite Hfree0.
  cbn [nsm.command_eqb negb].
  unfold bind at 1. unfold open_saves_first.
  unfold bind at 1, lift at 1. unfold bind at 1, gets at 1.
  state_simpl. rewrite Hpath0. cbn [String.eqb negb ret].
  unfold bind at 1, gets at 1. state_simpl. rewrite Hroot0.
  unfold bind at 1. rewrite Hload by (state_simpl; assumption).
  unfold bind, lift, ret.
  now rewrite refusal_releases_latch.
Qed.


(** *** The GUI *)

Ltac state_simpl' :=
  cbn [s_client_list s_gui_address s_gui_is_active s_session_root
       s_session_path s_session_name s_lockfile_directory s_daemon_file
       s_pending_operation s_list_response_address server_url next_object
       sent world send with_sent with_client_list with_world
       with_next_object with_session_path with_session_name
       with_pending_operation with_list_response_address store push_back
       error_send reply_send error_send_ex reply_send_ex
       with_gui_address with_gui_is_active].

Lemma bind_lift {B} (f : State W -> State W) (k : unit -> M B)
  (st : State W) :
  bind (lift f) k st = k tt (f st).
Proof. reflexivity. Qed.

Lemma with_sent_app a b (st : State W) :
  with_sent (sent (with_sent (sent st ++ a) st) ++ b)
    (with_sent (sent st ++ a) st)
  = with_sent (sent st ++ a ++ b) st.
Proof. unfold with_sent. cbn. now rewrite app_assoc. Qed.

Lemma gui_client_report_adds c (st : State W) :
  exists ms,
    gui_client_report c st = with_sent (sent st ++ ms) st /\
    (1 <= List.length ms <= 5)%nat /\
    (forall m, In m ms -> out_to m = Some (s_gui_address st)) /\
    List.hd_error ms =
      Some (gui_message (s_gui_address st) "/nsm/gui/client/new"
              [arg_s (m_client_id c); arg_s (m_exe_path c)]).
Proof.
  unfold gui_client_report.
  set (m1 := gui_message (s_gui_address st) "/nsm/gui/client/new"
               [arg_s (m_client_id c); arg_s (m_exe_path c)]).
  set (m2 := gui_message (s_gui_address st) "/nsm/gui/client/status"
               [arg_s (m_client_id c); arg_s (m_status c)]).
  set (m3 := gui_message (s_gui_address st)
               "/nsm/gui/client/has_optional_gui" [arg_s (m_client_id c)]).
  set (m4 := gui_message (s_gui_address st) "/nsm/gui/client/label"
               [arg_s (m_client_id c); arg_s (m_label c)]).
  set (m5 := gui_message (s_gui_address st) "/nsm/gui/client/new"
               [arg_s (m_client_id c); arg_s (m_name c)]).
  exists (m1 ::
          (if negb (String.eqb (m_status c) "") then [m2] else []) ++
          (if is_capable_of c ":optional-gui:" then [m3] else []) ++
          (if negb (String.eqb (m_label c) "") then [m4] else []) ++
          (if m_active c then [m5] else [])).
  split; [| split; [| split; [| reflexivity]]].
  - destruct (negb (String.eqb (m_status c) ""));
      destruct (is_capable_of c ":optional-gui:");
      destruct (negb (String.eqb (m_label c) ""));
      destruct (m_active c); unfold with_sent, send; cbn;
      rewrite <- ?app_assoc; reflexivity.
  - destruct (negb (String.eqb (m_status c) ""));
      destruct (is_capable_of c ":optional-gui:");
      destruct (negb (String.eqb (m_label c) ""));
      destruct (m_active c); cbn; lia.
  - intros m Hm.
    destruct (negb (String.eqb (m_status c) ""));
      destruct (is_capable_of c ":optional-gui:");
      destruct (negb (String.eqb (m_label c) ""));
      destruct (m_active c); cbn in Hm;
      repeat (destruct Hm as [<- | Hm]; [reflexivity |]);
      destruct Hm.
Qed.

Lemma gui_client_reports_add l (st : State W) :
  exists ms,
    fold_left (fun s c => gui_client_report c s) l st
      = with_sent (sent st ++ ms) st /\
    (List.length l <= List.length ms <= 5 * List.length l)%nat /\
    (forall m, In m ms -> out_to m = Some (s_gui_address st)).
Proof.
  revert st. induction l as [| c r IH]; intros st; cbn [fold_left].
  - exists []. rewrite app_nil_r, with_sent_same.
    split; [reflexivity | split; [cbn; lia | intros m []]].
  - destruct (gui_client_report_adds c st) as [ms1 [-> [Hlen1 [Hto1 _]]]].
    destruct (IH (with_sent (sent st ++ ms1) st)) as [ms2 [-> [Hlen2 Hto2]]].
    exists (ms1 ++ ms2). rewrite with_sent_app.
    split; [reflexivity | split].
    + rewrite List.length_app. cbn [List.length]. lia.
    + intros m Hm. apply in_app_or in Hm.
      destruct Hm as [Hm | Hm]; [now apply Hto1 | now apply Hto2].
Qed.

Lemma announce_gui_runs (addr : lo_address) (is_reply : bool)
  (st : State W) :
  let greeting :=
    gui_message addr
      (if is_reply then "/nsm/gui/gui_announce"
       else "/nsm/gui/server_announce") [arg_s "hi"] in
  let root :=
    gui_message addr "/nsm/gui/session/root" [arg_s (s_session_root st)] in
  let attached := with_gui_is_active true (with_gui_address addr st) in
  exists reports,
    (List.length (s_client_list st) <= List.length reports
     <= 5 * List.length (s_client_list st))%nat /\
    (forall m, In m reports -> out_to m = Some addr) /\
    announce_gui addr is_reply st =
    if String.eqb (s_session_name st) "" then
      Ok tt (with_sent
               (sent st ++
                [greeting; root;
                 gui_message addr "/nsm/gui/session/name"
                   [arg_s ""; arg_s ""]]) attached)
    else
      match substr (s_session_path st)
              (String.length (s_session_root st) + 1) with
      | Some relativepath =>
          Ok tt (with_sent
                   (sent st ++ greeting :: root :: reports ++
                    [gui_message addr "/nsm/gui/session/name"
                       [arg_s (s_session_name st); arg_s relativepath]])
                   attached)
      | None =>
          Halt (halt_throw "std::out_of_range")
            (with_sent (sent st ++ greeting :: root :: reports) attached)
      end.
Proof.
  intros greeting root attached.
  set (st2 := with_sent (sent st ++ [greeting; root]) attached).
  destruct (gui_client_reports_add (s_client_list st2) st2)
    as [reports [Hfold [Hlen Hto]]].
  exists reports. split; [exact Hlen | split; [exact Hto |]].
  unfold announce_gui.
  rewrite !bind_lift.
  match goal with
  | |- bind _ _ ?x = _ =>
      assert (Hst2 : x = st2)
        by (unfold st2, attached, greeting, root, with_sent, send,
              gui_message; cbn; rewrite <- ?app_assoc; reflexivity);
      rewrite Hst2
  end.
  unfold bind at 1, gets at 1.
  change (s_session_name st2) with (s_session_name st).
  destruct (String.eqb (s_session_name st) "").
  - unfold lift, send, st2, with_sent, attached, gui_message. cbn.
    rewrite <- ?app_assoc. reflexivity.
  - unfold bind at 1, lift at 1. rewrite Hfold.
    unfold bind at 1, gets at 1. unfold bind at 1, gets at 1.
    state_simpl'.
    change (s_session_path st2) with (s_session_path st).
    change (s_session_root st2) with (s_session_root st).
    destruct (substr (s_session_path st)
                (String.length (s_session_root st) + 1)).
    + unfold lift, send, st2, with_sent, attached, gui_message. cbn.
      rewrite <- ?app_assoc. reflexivity.
    + unfold stop, st2, with_sent, attached. cbn.
      rewrite <- ?app_assoc. reflexivity.
Qed.

(** X10. What a GUI that announces itself is told. The daemon takes the
    sender for its GUI, greets it and names the session root. With no
    session name set one more message follows, the empty session. With a
    session name set every record is reported with one to five messages
    and the session is named last, by its path below the session root;
    when the session path is shorter than the root, [substr] throws
    [std::out_of_range] after the records have been reported. Every
    message goes to the GUI. *)
Theorem gui_announce_report (addr : lo_address) (is_reply : bool)
  (st : State W) :
  let greeting :=
    gui_message addr
      (if is_reply then "/nsm/gui/gui_announce"
       else "/nsm/gui/server_announce") [arg_s "hi"] in
  let root :=
    gui_message addr "/nsm/gui/session/root" [arg_s (s_session_root st)] in
  let attached := with_gui_is_active true (with_gui_address addr st) in
  exists ms,
    final (announce_gui addr is_reply st) =
      with_sent (sent st ++ greeting :: root :: ms) attached /\
    (forall m, In m ms -> out_to m = Some addr) /\
    (s_session_name st = "" ->
     announce_gui addr is_reply st =
       Ok tt (with_sent
                (sent st ++
                 [greeting; root;
                  gui_message addr "/nsm/gui/session/name"
                    [arg_s ""; arg_s ""]]) attached)) /\
    (s_session_name st <> "" ->
     (List.length (s_client_list st) <= List.length ms
      <= 5 * List.length (s_client_list st) + 1)%nat /\
     match substr (s_session_path st)
             (String.length (s_session_root st) + 1) with
     | Some relativepath =>
         exists st' reports,
           announce_gui addr is_reply st = Ok tt st' /\
           ms = reports ++
                [gui_message addr "/nsm/gui/session/name"
                   [arg_s (s_session_name st); arg_s relativepath]]
     | None =>
         exists st',
           announce_gui addr is_reply st =
             Halt (halt_throw "std::out_of_range") st'
     end).
Proof.
  intros greeting root attached.
  destruct (announce_gui_runs addr is_reply st)
    as [reports [Hlen [Hto Hrun]]].
  fold greeting root attached in Hrun. rewrite Hrun.
  destruct (String.eqb (s_session_name st) "") eqn:Ename.
  - apply String.eqb_eq in Ename.
    exists [gui_message addr "/nsm/gui/session/name" [arg_s ""; arg_s ""]].
    cbn [final]. split; [reflexivity | split].
    + intros m [<- | []]. reflexivity.
    + split; [intros _; reflexivity | intros Hne; contradiction].
  - apply String.eqb_neq in Ename.
    destruct (substr (s_session_path st)
                (String.length (s_session_root st) + 1))
      as [relativepath |].
    + exists (reports ++
              [gui_message addr "/nsm/gui/session/name"
                 [arg_s (s_session_name st); arg_s relativepath]]).
      cbn [final]. split; [reflexivity | split; [| split]].
      * intros m Hm. apply in_app_or in Hm.
        destruct Hm as [Hm | [<- | []]]; [now apply Hto | reflexivity].
      * intros H. contradiction.
      * intros _. split.
        -- rewrite List.length_app. cbn [List.length]. lia.
        -- eexists. exists reports. split; reflexivity.
    + exists reports. cbn [final]. split; [reflexivity | split; [| split]].
      * exact Hto.
      * intros H. contradiction.
      * intros _. split; [lia |]. eexists. reflexivity.
Qed.


(** X11. A session that is locked by another daemon is asked for while no
    session is open. The request is refused, and [load_session_file] has
    set the session name before it looked at the lock: the daemon is left
    with a session name and no session path. A GUI that announces itself
    then makes [announce_gui] cut the empty session path at the length of
    the session root plus one, and [substr] throws [std::out_of_range]. *)
Theorem refused_open_then_gui_announce (src gui : lo_address)
  (name : string) (st : State W) :
  s_pending_operation st = nsm.none ->
  s_session_path st = "" ->
  session_already_exists ext name st = true ->
  let spath := s_session_root st +:+ "/" +:+ name in
  file_exists ext
    (get_lock_file_name ext (s_lockfile_directory st)
       (filename_base ext spath) spath) (world st) = true ->
  filename_base ext spath <> "" ->
  exists st1 st2,
    osc_open ext osc_wait src name st = Ok osc_msg_handled st1 /\
    s_session_path st1 = "" /\
    s_session_name st1 = filename_base ext spath /\
    s_pending_operation st1 = nsm.none /\
    osc_gui_announce gui st1 = Halt (halt_throw "std::out_of_range") st2.
Proof.
  intros Hfree Hclosed Hexists spath Hlocked Hname.
  set (st0 := gui_msg ("Opening session " +:+ name) st).
  assert (Hfree0 : s_pending_operation st0 = nsm.none)
    by (subst st0; now rewrite latch_gui_msg).
  assert (Hframe0 : s_session_root st0 = s_session_root st /\
                    s_session_path st0 = "" /\
                    s_session_name st0 = s_session_name st /\
                    s_lockfile_directory st0 = s_lockfile_directory st).
  { subst st0. unfold gui_msg. destruct (s_gui_is_active st); cbn; tauto. }
  destruct Hframe0 as [Hroot0 [Hpath0 [Hname0 Hdir0]]].
  assert (Hworld0 : world st0 = world st) by apply world_gui_msg.
  set (st1 :=
         with_pending_operation nsm.none
           (error_send_ex src "/nsm/server/open" nsm.session_locked
              "Session is locked by another process"
              (set_name ext spath (with_pending_operation nsm.open st0)))).
  assert (Hopen : osc_open ext osc_wait src name st
                  = Ok osc_msg_handled st1).
  { unfold osc_open. rewrite bind_lift. fold st0.
    unfold bind at 1, gets at 1. unfold latch_is_free. rewrite Hfree0.
    cbn [nsm.command_eqb negb].
    unfold bind at 1. unfold open_saves_first.
    rewrite bind_lift. unfold bind at 1, gets at 1.
    state_simpl. rewrite Hpath0. cbn [String.eqb negb ret].
    unfold bind at 1, gets at 1. state_simpl. rewrite Hroot0. fold spath.
    unfold bind at 1. unfold load_session_file. state_simpl.
    rewrite Hroot0. unfold spath at 1. rewrite substr_cut.
    unfold session_already_exists in *. state_simpl.
    rewrite Hroot0, Hworld0, Hexists. cbn [negb].
    unfold release_own_lock. state_simpl. rewrite Hpath0.
    cbn [String.eqb negb andb]. unfold set_name. state_simpl.
    fold spath. rewrite Hdir0, Hworld0, Hlocked.
    reflexivity. }
  exists st1.
  destruct (announce_gui_runs gui true st1) as [reports [_ [_ Hrun]]].
  assert (Hname1 : s_session_name st1 = filename_base ext spath)
    by reflexivity.
  assert (Hpath1 : s_session_path st1 = "") by exact Hpath0.
  rewrite Hname1, Hpath1 in Hrun.
  apply String.eqb_neq in Hname. rewrite Hname in Hrun.
  rewrite substr_empty in Hrun.
  eexists. split; [exact Hopen |]. split; [exact Hpath1 |].
  split; [exact Hname1 |]. split; [reflexivity |].
  unfold osc_gui_announce, bind. rewrite Hrun. reflexivity.
Qed.



(** *** What the clients tell about themselves *)

Lemma same_self_same_record (l : list Client) x y :
  List.NoDup (List.map self l) -> In x l -> In y l -> self x = self y ->
  x = y.
Proof.
  induction l as [| a r IH]; cbn [List.map]; intros Hnd Hx Hy Hs;
    [destruct Hx |].
  inversion Hnd as [| ? ? Hnot Hnd']; subst.
  destruct Hx as [-> | Hx], Hy as [-> | Hy].
  - reflexivity.
  - exfalso. apply Hnot. rewrite Hs. now apply List.in_map.
  - exfalso. apply Hnot. rewrite <- Hs. now apply List.in_map.
  - now apply IH.
Qed.

Lemma store_keeps_control_view c c' l :
  List.NoDup (List.map self l) -> In c l ->
  self c' = self c -> control_view c' = control_view c ->
  List.map control_view (store_client c' l) = List.map control_view l.
Proof.
  intros Hnd Hin Hself Hview. unfold store_client.
  rewrite List.map_map. apply List.map_ext_in. intros x Hx.
  destruct (Nat.eqb (self x) (self c')) eqn:E; [| reflexivity].
  apply Nat.eqb_eq in E. rewrite Hself in E.
  now rewrite (same_self_same_record l x c Hnd Hx Hin E).
Qed.

Lemma to_gui_adds path args (st : State W) :
  exists ms,
    to_gui path args st = with_sent (sent st ++ ms) st /\
    (List.length ms <= 1)%nat /\
    forall m, In m ms ->
      s_gui_is_active st = true /\ out_to m = Some (s_gui_address st).
Proof.
  unfold to_gui. destruct (s_gui_is_active st) eqn:E.
  - eexists [_]. split; [reflexivity |]. split; [cbn; lia |].
    intros m [<- | []]. split; reflexivity.
  - exists []. rewrite app_nil_r, with_sent_same.
    split; [reflexivity |]. split; [cbn; lia | intros m []].
Qed.

Lemma takes_note_none (st : State W) :
  List.map control_view (s_client_list st)
    = List.map control_view (s_client_list st) /\
  exists ms,
    st = with_sent (sent st ++ ms) (with_client_list (s_client_list st) st)
    /\ (List.length ms <= 1)%nat /\
    forall m, In m ms ->
      s_gui_is_active st = true /\ out_to m = Some (s_gui_address st).
Proof.
  split; [reflexivity |]. exists [].
  split; [destruct st; cbn; now rewrite app_nil_r |].
  split; [cbn; lia | intros m []].
Qed.

Lemma client_tells_takes_note src write gui_path gui_args :
  (forall c, self (write c) = self c /\
             control_view (write c) = control_view c) ->
  takes_note (W := W) (client_tells src write gui_path gui_args).
Proof.
  intros Hwrite st rc st' Hnd Hrun. unfold client_tells in Hrun.
  apply bind_Ok in Hrun. destruct Hrun as [found [st1 [Hfound Hrun]]].
  pose proof (client_of_source_Ok _ _ _ _ Hfound) as ->.
  destruct found as [c |]; cbn in Hrun; injection Hrun as _ <-;
    [| apply takes_note_none].
  pose proof (client_of_source_found _ _ _ _ Hfound) as Hlook.
  pose proof (get_client_by_address_found _ _ _ Hlook) as Hin.
  destruct (Hwrite c) as [Hself Hview].
  destruct (to_gui_adds gui_path
              (arg_s (m_client_id (write c)) :: gui_args (write c))
              (store (write c) st)) as [ms [-> [Hlen Hto]]].
  state_simpl. split.
  - now apply store_keeps_control_view with (c := c).
  - exists ms. split; [reflexivity | split; [exact Hlen | exact Hto]].
Qed.

(** X12. What a client tells about itself (progress, dirtiness, the
    visibility of its GUI, a message, a label) is noted in its record and
    passed on to the GUI, and changes nothing that the orchestration
    reads: no pending command, no activity flag, no PID, no status, no
    reply code. *)
Theorem client_notes_leave_the_orchestration_alone (src : lo_address)
  (progress priority : Z) (text : string) (argv : list lo_arg) :
  takes_note (W := W) (osc_progress src progress) /\
  takes_note (W := W) (osc_is_dirty src) /\
  takes_note (W := W) (osc_is_clean src) /\
  takes_note (W := W) (osc_gui_is_hidden src) /\
  takes_note (W := W) (osc_gui_is_shown src) /\
  takes_note (W := W) (osc_message src priority text) /\
  takes_note (W := W) (osc_label src argv).
Proof.
  repeat match goal with |- _ /\ _ => split end;
    try (apply client_tells_takes_note; intros c; split; reflexivity).
  - intros st rc st' Hnd Hrun. unfold osc_message in Hrun.
    apply bind_Ok in Hrun. destruct Hrun as [found [st1 [Hfound Hrun]]].
    pose proof (client_of_source_Ok _ _ _ _ Hfound) as ->.
    destruct found as [c |]; cbn in Hrun; injection Hrun as _ <-;
      [| apply takes_note_none].
    destruct (to_gui_adds "/nsm/gui/client/message"
                [arg_s (m_client_id c); arg_i priority; arg_s text] st)
      as [ms [-> [Hlen Hto]]].
    split; [reflexivity |]. exists ms.
    split; [destruct st; reflexivity | split; [exact Hlen | exact Hto]].
  - intros st rc st' Hnd Hrun. unfold osc_label in Hrun.
    destruct argv as [| a rest].
    { injection Hrun as _ <-. apply takes_note_none. }
    apply bind_Ok in Hrun. destruct Hrun as [found [st1 [Hfound Hrun]]].
    pose proof (client_of_source_Ok _ _ _ _ Hfound) as ->.
    destruct found as [c |];
      [| injection Hrun as _ <-; apply takes_note_none].
    destruct (negb (strcompare (typespec (a :: rest)) "s")).
    { injection Hrun as _ <-. apply takes_note_none. }
    destruct a as [label | | |];
      try (injection Hrun as _ <-; apply takes_note_none).
    unfold bind, lift, ret in Hrun. injection Hrun as _ <-.
    pose proof (client_of_source_found _ _ _ _ Hfound) as Hlook.
    pose proof (get_client_by_address_found _ _ _ Hlook) as Hin.
    destruct (to_gui_adds "/nsm/gui/client/label"
                [arg_s (m_client_id c); arg_s label]
                (store (set_m_label label c) st)) as [ms [-> [Hlen Hto]]].
    state_simpl. split.
    + now apply store_keeps_control_view with (c := c).
    + exists ms. split; [reflexivity | split; [exact Hlen | exact Hto]].
Qed.

(** *** Removal of a record on request *)

Lemma client_list_to_gui path args (st : State W) :
  s_client_list (to_gui path args st) = s_client_list st.
Proof. unfold to_gui. now destruct (s_gui_is_active st). Qed.

Lemma remove_after_store c1 c l :
  self c1 = self c ->
  remove_client (self c) (store_client c1 l) = remove_client (self c) l.
Proof.
  intros Hself. unfold remove_client, store_client. rewrite Hself.
  induction l as [| x r IH]; [reflexivity |]. cbn [List.map List.filter].
  destruct (Nat.eqb (self x) (self c)) eqn:E.
  - rewrite Hself, Nat.eqb_refl. cbn [negb]. exact IH.
  - rewrite E. cbn [negb]. now rewrite IH.
Qed.

(** X13. [OSC_HANDLER (remove)] takes a record out of the list only when
    it is the record of the sender's port, has no PID and is not active;
    every other record stays as it is and where it is. *)
Theorem remove_takes_only_a_stopped_record (src : lo_address)
  (st : State W) (rc : Z) (st' : State W) :
  List.NoDup (List.map self (s_client_list st)) ->
  osc_remove src st = Ok rc st' ->
  rc = osc_msg_handled /\
  sublist (s_client_list st') (s_client_list st) /\
  forall x, In x (s_client_list st) -> ~ In x (s_client_list st') ->
    get_client_by_address src (s_client_list st) = lookup_found x /\
    m_pid x = 0 /\ m_active x = false.
Proof.
  intros Hnd Hrun. unfold osc_remove in Hrun.
  apply bind_Ok in Hrun. destruct Hrun as [found [st1 [Hfound Hrun]]].
  pose proof (client_of_source_Ok _ _ _ _ Hfound) as ->.
  destruct found as [c |].
  - pose proof (client_of_source_found _ _ _ _ Hfound) as Hlook.
    pose proof (get_client_by_address_found _ _ _ Hlook) as Hin.
    destruct ((m_pid c =? 0) && negb (m_active c)) eqn:Estopped.
    + cbn in Hrun. injection Hrun as <- <-.
      assert (Hlist :
        s_client_list
          (to_gui "/reply" [arg_s "Client removed"]
             (with_client_list
                (remove_client (self c)
                   (s_client_list
                      (gui_send "/nsm/gui/client/status" (m_client_id c)
                         "removed" (store (set_m_status "removed" c) st))))
                (gui_send "/nsm/gui/client/status" (m_client_id c)
                   "removed" (store (set_m_status "removed" c) st))))
        = remove_client (self c) (s_client_list st)).
      { rewrite client_list_to_gui. state_simpl.
        rewrite client_list_gui_send. state_simpl.
        now apply remove_after_store. }
      rewrite Hlist. split; [reflexivity |]. split.
      * unfold remove_client. clear.
        induction (s_client_list st) as [| x r IH]; cbn; [constructor |].
        destruct (negb (Nat.eqb (self x) (self c)));
          [now constructor | now apply sublist_cons].
      * intros x Hx Hgone.
        assert (Hsame : self x = self c).
        { destruct (Nat.eq_dec (self x) (self c)) as [E | E]; [exact E |].
          exfalso. apply Hgone. now apply in_remove_client. }
        rewrite (same_self_same_record _ x c Hnd Hx Hin Hsame).
        apply Bool.andb_true_iff in Estopped.
        destruct Estopped as [Hpid Hactive].
        apply Z.eqb_eq in Hpid. apply Bool.negb_true_iff in Hactive.
        repeat split; assumption.
    + cbn in Hrun. injection Hrun as <- <-.
      split; [reflexivity |]. split; [reflexivity |].
      intros x Hx Hgone. contradiction.
  - cbn in Hrun. injection Hrun as <- <-.
    assert (Hlist : s_client_list
                      (to_gui "/error"
                         [arg_i (-10); arg_s "No such client"] st)
                    = s_client_list st).
    { apply client_list_to_gui. }
    rewrite Hlist. split; [reflexivity |]. split; [reflexivity |].
    intros x Hx Hgone. contradiction.
Qed.



(** *** The children that were reaped *)

Lemma record_in_its_place (l : list Client) c :
  List.NoDup (List.map self l) -> In c l ->
  exists l1 l2,
    l = l1 ++ c :: l2 /\
    (forall x, In x l1 -> self x <> self c) /\
    (forall x, In x l2 -> self x <> self c).
Proof.
  intros Hnd Hin. apply List.in_split in Hin.
  destruct Hin as [l1 [l2 ->]]. exists l1, l2.
  split; [reflexivity |].
  rewrite List.map_app in Hnd. cbn [List.map] in Hnd.
  pose proof (List.NoDup_remove_2 _ _ _ Hnd) as Hnot.
  split; intros x Hx Hs; apply Hnot; apply in_or_app;
    [left | right]; rewrite <- Hs; now apply List.in_map.
Qed.

Lemma store_in_place l1 l2 c c' :
  (forall x, In x l1 -> self x <> self c) ->
  (forall x, In x l2 -> self x <> self c) ->
  self c' = self c ->
  store_client c' (l1 ++ c :: l2) = l1 ++ c' :: l2.
Proof.
  intros H1 H2 Hself. rewrite store_client_app.
  rewrite store_client_fresh by (intros x Hx; rewrite Hself; now apply H1).
  change (store_client c' (c :: l2))
    with ((if Nat.eqb (self c) (self c') then c' else c)
          :: store_client c' l2).
  rewrite Hself, Nat.eqb_refl.
  rewrite (store_client_fresh c' l2)
    by (intros x Hx; rewrite Hself; now apply H2).
  reflexivity.
Qed.

Lemma pids_held_app l1 l2 :
  pids_held (l1 ++ l2) = pids_held l1 ++ pids_held l2.
Proof. unfold pids_held. now rewrite List.filter_app, List.map_app. Qed.

Lemma pids_held_cons c l :
  pids_held (c :: l) =
  (if m_pid c =? 0 then [] else [m_pid c]) ++ pids_held l.
Proof.
  unfold pids_held. cbn [List.filter]. now destruct (m_pid c =? 0).
Qed.

Lemma pid_is_held l c : In c l -> m_pid c <> 0 -> In (m_pid c) (pids_held l).
Proof.
  intros Hin Hpid. unfold pids_held. apply List.in_map.
  apply List.filter_In. split; [exact Hin |].
  apply Bool.negb_true_iff. now apply Z.eqb_neq.
Qed.

(** What one reaped child leaves of the list when its death is handled
    to the end: the record that held its PID holds none, and the others
    are as they were. *)
Lemma reaped_child_in_place (pid status : Z) (st st1 : State W) :
  List.NoDup (List.map self (s_client_list st)) ->
  handle_reaped_child (pid, status) st = Ok tt st1 ->
  let l' := s_client_list st1 in
  (get_client_by_pid pid (s_client_list st) = None /\
   l' = s_client_list st) \/
  exists l1 c l2,
    s_client_list st = l1 ++ c :: l2 /\ m_pid c = pid /\
    (forall x, In x l1 -> self x <> self c) /\
    (forall x, In x l2 -> self x <> self c) /\
    exists c', l' = l1 ++ c' :: l2 /\ self c' = self c /\ m_pid c' = 0 /\
               m_pending_command c' = nsm.none.
Proof.
  intros Hnd Hrun l'. subst l'.
  unfold handle_reaped_child, bind, lift in Hrun.
  destruct (get_client_by_pid pid (s_client_list st)) as [c |] eqn:Efind.
  - right.
    destruct (get_client_by_pid_Some _ _ _ Efind) as [Hin Hpid].
    destruct (record_in_its_place _ c Hnd Hin) as [l1 [l2 [Hl [H1 H2]]]].
    exists l1, c, l2.
    split; [exact Hl |]. split; [exact Hpid |].
    split; [exact H1 |]. split; [exact H2 |].
    set (c0 := if WIFEXITED status && (WEXITSTATUS status =? 255)
               then set_m_launch_error 1 c else c).
    set (st0 := if WIFEXITED status && (WEXITSTATUS status =? 255)
                then store (set_m_launch_error 1 c) st else st) in Hrun.
    assert (Hl1 : s_client_list st0 = l1 ++ c0 :: l2).
    { subst st0 c0. destruct (WIFEXITED status && _).
      - state_simpl. rewrite Hl. now apply store_in_place.
      - exact Hl. }
    assert (Hself0 : self c0 = self c)
      by (subst c0; now destruct (WIFEXITED status && _)).
    assert (Hfind1 : get_client_by_pid pid (s_client_list st0) = Some c0).
    { subst st0 c0. destruct (WIFEXITED status && _); [| exact Efind].
      state_simpl. now apply get_client_by_pid_store with (c := c). }
    destruct (process_death_Ok _ _ _ Hrun) as [_ Hdeath].
    rewrite Hfind1 in Hdeath.
    destruct Hdeath as [_ [c' [Hlist [Hself' [Hnone [_ [Hpid' _]]]]]]].
    exists c'. rewrite Hlist, Hl1.
    split; [| split; [congruence | split; [exact Hpid' | exact Hnone]]].
    apply store_in_place; [| | exact Hself'];
      intros x Hx; rewrite Hself0; auto.
  - left. split; [reflexivity |].
    destruct (process_death_Ok _ _ _ Hrun) as [_ Hdeath].
    now rewrite Efind in Hdeath.
Qed.

Lemma reaped_child_step (pid status : Z) (st st1 : State W) :
  List.NoDup (List.map self (s_client_list st)) ->
  List.NoDup (pids_held (s_client_list st)) ->
  handle_reaped_child (pid, status) st = Ok tt st1 ->
  let l' := s_client_list st1 in
  List.NoDup (List.map self l') /\
  List.NoDup (pids_held l') /\
  (pid <> 0 -> forall c, In c l' -> m_pid c <> pid) /\
  (forall q, q <> 0 ->
     (forall c, In c (s_client_list st) -> m_pid c <> q) ->
     forall c, In c l' -> m_pid c <> q).
Proof.
  intros Hnd Hpids Hrun l'.
  destruct (reaped_child_in_place pid status st st1 Hnd Hrun)
    as [[Hnone Hsame] | [l1 [c [l2 [Hl [Hpid [H1 [H2 Hafter]]]]]]]];
    fold l' in Hsame || fold l' in Hafter.
  - rewrite Hsame. split; [exact Hnd |]. split; [exact Hpids |].
    split; [| auto].
    intros _ c Hc Heq. unfold get_client_by_pid in Hnone.
    pose proof (List.find_none _ _ Hnone c Hc) as Hf. cbn in Hf.
    apply Z.eqb_neq in Hf. contradiction.
  - rewrite Hl in Hnd, Hpids.
    rewrite List.map_app in Hnd. cbn [List.map] in Hnd.
    rewrite pids_held_app, pids_held_cons in Hpids.
    assert (Hrest : List.NoDup (pids_held l1 ++ pids_held l2) /\
                    (pid <> 0 -> ~ In pid (pids_held l1 ++ pids_held l2))).
    { rewrite Hpid in Hpids. destruct (pid =? 0) eqn:E.
      - apply Z.eqb_eq in E. split; [exact Hpids | intros; contradiction].
      - cbn [app] in Hpids. split.
        + exact (List.NoDup_remove_1 _ _ _ Hpids).
        + intros _. exact (List.NoDup_remove_2 _ _ _ Hpids). }
    destruct Hrest as [Hrest Hfree].
    assert (Hothers : forall q, q <> 0 -> forall x,
              In x (l1 ++ l2) -> m_pid x = q ->
              In q (pids_held l1 ++ pids_held l2)).
    { intros q Hq x Hx <-. rewrite <- pids_held_app.
      now apply pid_is_held. }
    destruct Hafter as [c' [-> [Hself' [Hpid' _]]]].
    split; [| split; [| split]].
    + rewrite List.map_app. cbn [List.map]. now rewrite Hself'.
    + rewrite pids_held_app, pids_held_cons, Hpid'. exact Hrest.
    + intros Hp x Hx Heq. apply in_app_or in Hx.
      destruct Hx as [Hx | [<- | Hx]].
      * apply (Hfree Hp). apply (Hothers pid Hp x); [| exact Heq].
        apply in_or_app. now left.
      * congruence.
      * apply (Hfree Hp). apply (Hothers pid Hp x); [| exact Heq].
        apply in_or_app. now right.
    + intros q Hq Hbefore x Hx. apply in_app_or in Hx.
      destruct Hx as [Hx | [<- | Hx]].
      * apply Hbefore. rewrite Hl. apply in_or_app. now left.
      * congruence.
      * apply Hbefore. rewrite Hl. apply in_or_app. right. now right.
Qed.

(** A record that has the quit command pending when the launch error
    of a child has been noted stands for one that had it before. *)
Lemma noted_launch_error_quit (pid status : Z) (st : State W) :
  let st0 :=
    match get_client_by_pid pid (s_client_list st) with
    | Some c =>
        if WIFEXITED status && (WEXITSTATUS status =? 255)
        then store (set_m_launch_error 1 c) st
        else st
    | None => st
    end in
  forall x, In x (s_client_list st0) -> m_pending_command x = nsm.quit ->
    exists y, In y (s_client_list st) /\ m_pending_command y = nsm.quit.
Proof.
  intros st0 x Hx Hq. subst st0.
  destruct (get_client_by_pid pid (s_client_list st)) as [c |] eqn:Efind;
    [| now exists x].
  destruct (WIFEXITED status && (WEXITSTATUS status =? 255));
    [| now exists x].
  cbn [s_client_list store with_client_list] in Hx.
  apply in_store_client in Hx. destruct Hx as [-> | [Hin _]].
  - exists c. split; [| exact Hq].
    exact (proj1 (get_client_by_pid_Some _ _ _ Efind)).
  - now exists x.
Qed.

(** The loop of [handle_sigchld]: it comes to its end with the PIDs of
    the reaped children out of the list, or it stops where a record
    that was told to quit has been deleted. *)
Lemma reaped_children_run (children : list (Z * Z)) :
  forall st : State W,
    List.NoDup (List.map self (s_client_list st)) ->
    List.NoDup (pids_held (s_client_list st)) ->
    match handle_reaped_children children st with
    | Ok _ st' =>
        List.NoDup (List.map self (s_client_list st')) /\
        List.NoDup (pids_held (s_client_list st')) /\
        (forall q, q <> 0 ->
           (forall c, In c (s_client_list st) -> m_pid c <> q) ->
           forall c, In c (s_client_list st') -> m_pid c <> q) /\
        forall pid status, In (pid, status) children -> pid <> 0 ->
          forall c, In c (s_client_list st') -> m_pid c <> pid
    | Halt h _ =>
        h = halt_undefined "write to a deleted Client" /\
        exists y, In y (s_client_list st) /\ m_pending_command y = nsm.quit
    end.
Proof.
  induction children as [| [pid status] r IH]; intros st Hnd Hpids;
    cbn [handle_reaped_children].
  - cbn [ret]. split; [exact Hnd |]. split; [exact Hpids |].
    split; [auto |]. intros pid status [].
  - unfold bind at 1.
    destruct (handle_reaped_child (pid, status) st) as [u st1 | h st1]
      eqn:Echild.
    + destruct u.
      destruct (reaped_child_step pid status st st1 Hnd Hpids Echild)
        as [Hnd1 [Hpids1 [Hgone1 Hkeep1]]].
      specialize (IH st1 Hnd1 Hpids1).
      destruct (handle_reaped_children r st1) as [u' st' | h st'].
      * destruct IH as [Hnd' [Hpids' [Hkeep' Hgone']]].
        split; [exact Hnd' |]. split; [exact Hpids' |]. split.
        -- intros q Hq Hbefore. apply (Hkeep' q Hq). now apply Hkeep1.
        -- intros p s [Heq | Hin] Hp.
           ++ injection Heq as <- <-. apply (Hkeep' pid Hp).
              now apply Hgone1.
           ++ now apply (Hgone' p s).
      * destruct IH as [-> [y [Hy Hq]]]. split; [reflexivity |].
        unfold handle_reaped_child, bind, lift in Echild.
        destruct (process_death_quit _ _ _ Echild) as [_ Hback].
        exact (noted_launch_error_quit pid status st y (Hback y Hy Hq) Hq).
    + unfold handle_reaped_child, bind, lift in Echild.
      destruct (process_death_Halt _ _ _ _ Echild) as [-> [c0 [Hc0 Hq0]]].
      split; [reflexivity |].
      apply (noted_launch_error_quit pid status st c0); [| exact Hq0].
      exact (proj1 (get_client_by_pid_Some _ _ _ Hc0)).
Qed.

(** X14. [handle_sigchld]: when no two records hold the same PID and
    the loop comes to its end, no record holds the PID of a child that
    was reaped: each such record is stopped without a PID, and the
    records keep their identities apart and their PIDs apart. The loop
    does not come to its end when [handle_client_process_death] writes
    to the record it has just deleted, which needs a record that has the
    quit command pending. *)
Theorem no_record_holds_a_reaped_pid (st : State W) :
  List.NoDup (List.map self (s_client_list st)) ->
  List.NoDup (pids_held (s_client_list st)) ->
  match handle_sigchld ext st with
  | Ok _ st' =>
      List.NoDup (List.map self (s_client_list st')) /\
      List.NoDup (pids_held (s_client_list st')) /\
      forall pid status,
        In (pid, status) (fst (waitpid_all ext (world st))) -> pid <> 0 ->
        forall c, In c (s_client_list st') -> m_pid c <> pid
  | Halt h _ =>
      h = halt_undefined "write to a deleted Client" /\
      exists y, In y (s_client_list st) /\ m_pending_command y = nsm.quit
  end.
Proof.
  intros Hnd Hpids. unfold handle_sigchld.
  destruct (waitpid_all ext (world st)) as [children w]. cbn [fst].
  pose proof (reaped_children_run children (with_world w st) Hnd Hpids)
    as Hrun.
  destruct (handle_reaped_children children (with_world w st))
    as [u st' | h st'].
  - destruct Hrun as [Hnd' [Hpids' [_ Hgone]]].
    split; [exact Hnd' |]. split; [exact Hpids' | exact Hgone].
  - exact Hrun.
Qed.

(** *** What the GUI asks for one client *)

Lemma get_client_by_address_other_ports addr l :
  Forall (fun c => exists a, m_addr c = Some a /\ lo_port a <> lo_port addr)
    l ->
  get_client_by_address addr l = lookup_none.
Proof.
  induction 1 as [| c r [a [Haddr Hport]] _ IH]; [reflexivity |].
  cbn [get_client_by_address]. rewrite Haddr.
  unfold address_matches, lo_address_get_port.
  destruct (String.eqb_spec (lo_port a) (lo_port addr)) as [E | _];
    [contradiction | exact IH].
Qed.

Lemma client_of_source_other_ports src (st : State W) :
  Forall (fun c => exists a, m_addr c = Some a /\ lo_port a <> lo_port src)
    (s_client_list st) ->
  client_of_source src st = Ok None st.
Proof.
  intros Hports. unfold client_of_source, bind, gets.
  now rewrite (get_client_by_address_other_ports _ _ Hports).
Qed.

Lemma found_at_the_port addr l c :
  get_client_by_address addr l = lookup_found c ->
  exists a, m_addr c = Some a /\ lo_port a = lo_port addr.
Proof.
  induction l as [| x r IH]; cbn [get_client_by_address]; [discriminate |].
  destruct (m_addr x) as [a |] eqn:Haddr; [| discriminate].
  unfold address_matches, lo_address_get_port.
  destruct (String.eqb_spec (lo_port a) (lo_port addr)) as [E | _];
    [| exact IH].
  intros H. injection H as <-. now exists a.
Qed.

(** X15. What the GUI asks for one client (to stop it, to remove it, to
    resume it, to save it, to show or to hide its GUI) is looked up by
    the address of the sender of the request: when every record has an
    address and none has the port of the sender, [stop] and [remove]
    tell the GUI that there is no such client, the other four say
    nothing, and nothing is done. A request to show or to hide the
    optional GUI that is passed on goes to an address with the port of
    the sender. *)
Theorem gui_operations_look_for_the_senders_port (src : lo_address)
  (st : State W) :
  (Forall (fun c => exists a, m_addr c = Some a /\ lo_port a <> lo_port src)
     (s_client_list st) ->
   osc_stop ext src st =
     Ok osc_msg_handled
       (to_gui "/error" [arg_i (-10); arg_s "No such client."] st) /\
   osc_remove src st =
     Ok osc_msg_handled
       (to_gui "/error" [arg_i (-10); arg_s "No such client"] st) /\
   osc_resume ext src st = Ok osc_msg_handled st /\
   osc_client_save src st = Ok osc_msg_handled st /\
   osc_client_show_optional_gui src st = Ok osc_msg_handled st /\
   osc_client_hide_optional_gui src st = Ok osc_msg_handled st)
  /\
  (forall rc st',
     osc_client_show_optional_gui src st = Ok rc st' ->
     st' = st \/
     exists a, lo_port a = lo_port src /\
               st' = send (Some a) "/nsm/client/show_optional_gui" [] st)
  /\
  (forall rc st',
     osc_client_hide_optional_gui src st = Ok rc st' ->
     st' = st \/
     exists a, lo_port a = lo_port src /\
               st' = send (Some a) "/nsm/client/hide_optional_gui" [] st).
Proof.
  split; [| split].
  - intros Hports.
    pose proof (client_of_source_other_ports src st Hports) as Hnone.
    unfold osc_stop, osc_remove, osc_resume, osc_client_save,
      osc_client_show_optional_gui, osc_client_hide_optional_gui.
    repeat match goal with |- _ /\ _ => split end;
      unfold bind at 1; rewrite Hnone; reflexivity.
  - intros rc st' Hrun. unfold osc_client_show_optional_gui in Hrun.
    apply bind_Ok in Hrun. destruct Hrun as [found [st1 [Hlook Hrun]]].
    pose proof (client_of_source_Ok _ _ _ _ Hlook) as ->.
    destruct found as [c |]; [| injection Hrun as _ <-; now left].
    apply client_of_source_found in Hlook.
    destruct (found_at_the_port _ _ _ Hlook) as [a [Haddr Hport]].
    destruct (m_active c); [| injection Hrun as _ <-; now left].
    unfold bind, lift, ret in Hrun. injection Hrun as _ <-.
    right. exists a. rewrite Haddr. split; [exact Hport | reflexivity].
  - intros rc st' Hrun. unfold osc_client_hide_optional_gui in Hrun.
    apply bind_Ok in Hrun. destruct Hrun as [found [st1 [Hlook Hrun]]].
    pose proof (client_of_source_Ok _ _ _ _ Hlook) as ->.
    destruct found as [c |]; [| injection Hrun as _ <-; now left].
    apply client_of_source_found in Hlook.
    destruct (found_at_the_port _ _ _ Hlook) as [a [Haddr Hport]].
    destruct (m_active c); [| injection Hrun as _ <-; now left].
    unfold bind, lift, ret in Hrun. injection Hrun as _ <-.
    right. exists a. rewrite Haddr. split; [exact Hport | reflexivity].
Qed.

(** *** The handlers that leave the latch alone *)

Lemma keeps_latch_bind {A B} (m : M A) (k : A -> M B) :
  keeps_latch (W := W) m -> (forall a, keeps_latch (W := W) (k a)) ->
  keeps_latch (W := W) (bind m k).
Proof.
  intros Hm Hk st b st' Hrun. apply bind_Ok in Hrun.
  destruct Hrun as [a [st1 [H1 H2]]].
  rewrite (Hk a _ _ _ H2). exact (Hm _ _ _ H1).
Qed.

Lemma keeps_latch_ret {A} (a : A) : keeps_latch (W := W) (ret a).
Proof. intros st b st' H. now injection H as _ <-. Qed.

Lemma keeps_latch_gets {A} (f : State W -> A) :
  keeps_latch (W := W) (gets f).
Proof. intros st b st' H. now injection H as _ <-. Qed.

Lemma keeps_latch_stop {A} h : keeps_latch (W := W) (A := A) (stop h).
Proof. intros st b st' H. discriminate H. Qed.

Lemma keeps_latch_lift (f : State W -> State W) :
  (forall st, s_pending_operation (f st) = s_pending_operation st) ->
  keeps_latch (W := W) (lift f).
Proof. intros Hf st b st' H. injection H as _ <-. apply Hf. Qed.

Lemma latch_gui_send msg s1 s2 (st : State W) :
  s_pending_operation (gui_send msg s1 s2 st) = s_pending_operation st.
Proof. unfold gui_send. destruct (s_gui_is_active st); reflexivity. Qed.

Lemma latch_to_gui path args (st : State W) :
  s_pending_operation (to_gui path args st) = s_pending_operation st.
Proof. unfold to_gui. destruct (s_gui_is_active st); reflexivity. Qed.

Lemma client_of_source_keeps_latch src :
  keeps_latch (W := W) (client_of_source src).
Proof.
  intros st found st' H. now rewrite (client_of_source_Ok _ _ _ _ H).
Qed.

Lemma latch_command_client_to_stop c (st : State W) :
  s_pending_operation (snd (command_client_to_stop ext c st))
  = s_pending_operation st.
Proof.
  unfold command_client_to_stop, send_signal.
  destruct (m_pid c >? 0); cbn [snd];
    rewrite ?latch_gui_send; state_simpl; apply latch_gui_msg.
Qed.

Lemma latch_command_client_to_save c (st : State W) :
  s_pending_operation (snd (command_client_to_save c st))
  = s_pending_operation st.
Proof.
  unfold command_client_to_save.
  destruct (m_active c); [| destruct (is_dumb_client c && (m_pid c >? 0))];
    cbn [snd]; rewrite ?latch_gui_send; reflexivity.
Qed.

Lemma launch_keeps_latch executable clientid :
  keeps_latch (W := W) (launch ext executable clientid).
Proof.
  intros st rc st'. unfold launch.
  destruct (get_client_by_id (s_client_list st) clientid) as [c |].
  - destruct (fork ext (world st)) as [pid w].
    destruct (pid =? 0); [discriminate |].
    intros H. injection H as _ <-.
    rewrite !latch_gui_send. reflexivity.
  - destruct (String.eqb clientid "").
    + destruct (generate_client_id ext "n----" (world st)) as [id w0].
      state_simpl. destruct (fork ext w0) as [pid w].
      destruct (pid =? 0); [discriminate |].
      intros H. injection H as _ <-.
      rewrite !latch_gui_send. reflexivity.
    + state_simpl. destruct (fork ext (world st)) as [pid w].
      destruct (pid =? 0); [discriminate |].
      intros H. injection H as _ <-.
      rewrite !latch_gui_send. reflexivity.
Qed.

Lemma announce_gui_keeps_latch addr is_reply :
  keeps_latch (W := W) (announce_gui addr is_reply).
Proof.
  intros st u st' Hrun.
  destruct (announce_gui_runs addr is_reply st) as [reports [_ [_ Heq]]].
  rewrite Heq in Hrun. clear Heq.
  destruct (String.eqb (s_session_name st) "").
  - injection Hrun as _ <-. reflexivity.
  - destruct (substr _ _); [| discriminate].
    injection Hrun as _ <-. reflexivity.
Qed.

Ltac latch_step :=
  first
    [ apply keeps_latch_ret
    | apply keeps_latch_gets
    | apply keeps_latch_stop
    | apply client_of_source_keeps_latch
    | apply launch_keeps_latch
    | apply announce_gui_keeps_latch
    | apply keeps_latch_lift; intros ?;
      first
        [ apply latch_to_gui
        | apply latch_gui_send
        | apply latch_gui_msg
        | reflexivity ]
    | match goal with
      | |- keeps_latch (if ?b then _ else _) => destruct b
      | |- keeps_latch (match ?e with _ => _ end) => destruct e
      end
    | apply keeps_latch_bind; [| intros ?] ].

Lemma client_tells_keeps_latch src write gui_path gui_args :
  keeps_latch (W := W) (client_tells src write gui_path gui_args).
Proof. unfold client_tells. repeat latch_step. Qed.

Lemma osc_message_keeps_latch src priority text :
  keeps_latch (W := W) (osc_message src priority text).
Proof. unfold osc_message. repeat latch_step. Qed.

Lemma osc_label_keeps_latch src argv :
  keeps_latch (W := W) (osc_label src argv).
Proof. unfold osc_label. repeat latch_step. Qed.

Lemma osc_gui_announce_keeps_latch src :
  keeps_latch (W := W) (osc_gui_announce src).
Proof. unfold osc_gui_announce. repeat latch_step. Qed.

Lemma osc_stop_keeps_latch src :
  keeps_latch (W := W) (osc_stop ext src).
Proof.
  unfold osc_stop. repeat latch_step.
  apply keeps_latch_lift. intros st.
  pose proof (latch_command_client_to_stop c st) as Hstop.
  destruct (command_client_to_stop ext c st) as [c' st1]. exact Hstop.
Qed.

Lemma osc_remove_keeps_latch src :
  keeps_latch (W := W) (osc_remove src).
Proof. unfold osc_remove. repeat latch_step. Qed.

Lemma osc_resume_keeps_latch src :
  keeps_latch (W := W) (osc_resume ext src).
Proof. unfold osc_resume. repeat latch_step. Qed.

Lemma osc_client_save_keeps_latch src :
  keeps_latch (W := W) (osc_client_save src).
Proof.
  unfold osc_client_save. repeat latch_step.
  apply keeps_latch_lift. intros st.
  pose proof (latch_command_client_to_save c st) as Hsave.
  destruct (command_client_to_save c st) as [c' st1]. exact Hsave.
Qed.

Lemma osc_client_show_optional_gui_keeps_latch src :
  keeps_latch (W := W) (osc_client_show_optional_gui src).
Proof. unfold osc_client_show_optional_gui. repeat latch_step. Qed.

Lemma osc_client_hide_optional_gui_keeps_latch src :
  keeps_latch (W := W) (osc_client_hide_optional_gui src).
Proof. unfold osc_client_hide_optional_gui. repeat latch_step. Qed.

Lemma osc_ping_keeps_latch src path :
  keeps_latch (W := W) (osc_ping src path).
Proof. unfold osc_ping. repeat latch_step. Qed.

Lemma osc_add_keeps_latch src clientname :
  keeps_latch (W := W) (osc_add ext src clientname).
Proof. unfold osc_add. repeat latch_step. Qed.

Lemma osc_null_keeps_latch : keeps_latch (W := W) osc_null.
Proof. unfold osc_null. repeat latch_step. Qed.

(** *** The latch while the daemon waits *)

Lemma process_death_keeps_latch pid :
  keeps_latch (W := W) (handle_client_process_death pid).
Proof.
  intros st u st'. unfold handle_client_process_death.
  destruct (get_client_by_pid pid (s_client_list st)) as [c |].
  - destruct (nsm.command_eqb (m_pending_command c) nsm.quit);
      [discriminate |].
    intros H. injection H as _ <-. state_simpl.
    destruct (s_gui_is_active _); rewrite ?latch_gui_send;
      destruct (_ || _); apply latch_gui_msg.
  - intros H. now injection H as _ <-.
Qed.

Lemma reaped_child_keeps_latch child :
  keeps_latch (W := W) (handle_reaped_child child).
Proof.
  destruct child as [pid status]. unfold handle_reaped_child.
  apply keeps_latch_bind; [| intros _; apply process_death_keeps_latch].
  apply keeps_latch_lift. intros st.
  destruct (get_client_by_pid pid (s_client_list st)); [| reflexivity].
  now destruct (WIFEXITED status && _).
Qed.

Lemma reaped_children_keep_latch children :
  keeps_latch (W := W) (handle_reaped_children children).
Proof.
  induction children as [| child r IH]; cbn [handle_reaped_children].
  - apply keeps_latch_ret.
  - apply keeps_latch_bind; [apply reaped_child_keeps_latch |].
    intros _. exact IH.
Qed.

Lemma handle_child_signal_keeps_latch :
  keeps_latch (W := W) (handle_child_signal ext).
Proof.
  intros st u st'. unfold handle_child_signal, handle_sigchld.
  destruct (read_sigchld ext (world st)) as [got w].
  destruct got.
  - state_simpl. destruct (waitpid_all ext w) as [children w1].
    intros H. now rewrite (reaped_children_keep_latch _ _ _ _ H).
  - intros H. now injection H as _ <-.
Qed.

Lemma purge_dead_clients_keeps_latch :
  keeps_latch (W := W) (purge_dead_clients ext).
Proof.
  unfold purge_dead_clients.
  apply keeps_latch_bind; [apply keeps_latch_gets |]. intros tmp.
  induction tmp as [| p r IH]; cbn [purge_dead_clients_from].
  - apply keeps_latch_ret.
  - apply keeps_latch_bind; [apply keeps_latch_gets |]. intros [c |];
      [| apply keeps_latch_stop].
    apply keeps_latch_bind; [| intros _; exact IH].
    destruct (negb (m_pid c =? 0)); [| apply keeps_latch_ret].
    intros st u st'. unfold process_is_running.
    destruct (kill ext (m_pid c) 0 (world st)) as [rc w].
    destruct (rc =? 0).
    + intros H. now injection H as _ <-.
    + intros H. now rewrite (process_death_keeps_latch _ _ _ _ H).
Qed.

(** *** The lookup of the sender *)

Lemma halts_as_child_bind {A B} (m : M A) (k : A -> M B) :
  halts_as_child (W := W) m -> (forall a, halts_as_child (W := W) (k a)) ->
  halts_as_child (W := W) (bind m k).
Proof.
  intros Hm Hk st h st'. unfold bind.
  destruct (m st) as [a st1 | h1 st1] eqn:E.
  - apply Hk.
  - intros H. injection H as <- _. exact (Hm _ _ _ E).
Qed.

Lemma halts_as_child_ret {A} (a : A) : halts_as_child (W := W) (ret a).
Proof. intros st h st' H. discriminate H. Qed.

Lemma halts_as_child_lift (f : State W -> State W) :
  halts_as_child (W := W) (lift f).
Proof. intros st h st' H. discriminate H. Qed.

Lemma launch_halts_as_child executable clientid :
  halts_as_child (W := W) (launch ext executable clientid).
Proof.
  intros st h st'. unfold launch.
  destruct (get_client_by_id (s_client_list st) clientid) as [c |].
  - destruct (fork ext (world st)) as [pid w].
    destruct (pid =? 0); [| discriminate].
    intros H. now injection H as <- _.
  - destruct (String.eqb clientid "").
    + destruct (generate_client_id ext "n----" (world st)) as [id w0].
      state_simpl. destruct (fork ext w0) as [pid w].
      destruct (pid =? 0); [| discriminate].
      intros H. now injection H as <- _.
    + state_simpl. destruct (fork ext (world st)) as [pid w].
      destruct (pid =? 0); [| discriminate].
      intros H. now injection H as <- _.
Qed.

Ltac child_step :=
  first
    [ apply halts_as_child_ret
    | apply halts_as_child_lift
    | apply launch_halts_as_child
    | match goal with
      | |- halts_as_child (if ?b then _ else _) => destruct b
      | |- halts_as_child (match ?e with _ => _ end) => destruct e
      end
    | apply halts_as_child_bind; [| intros ?] ].

(** What a handler does that begins with the lookup of the sender and
    throws nothing of its own. *)
Lemma lookup_of_the_sender src (k : option Client -> M Z) (st : State W) :
  (forall found, halts_as_child (k found)) ->
  ((exists st',
      bind (client_of_source src) k st
      = Halt (halt_throw "std::logic_error") st') <->
   silent_record_first src (s_client_list st)) /\
  (silent_record_first src (s_client_list st) ->
   bind (client_of_source src) k st
   = Halt (halt_throw "std::logic_error") st).
Proof.
  intros Hk. rewrite <- get_client_by_address_null.
  assert (Hthrow :
    get_client_by_address src (s_client_list st) = lookup_null ->
    bind (client_of_source src) k st
    = Halt (halt_throw "std::logic_error") st).
  { intros Hnull. unfold bind.
    now rewrite (client_of_source_null _ _ Hnull). }
  split; [split |]; [| eauto | exact Hthrow].
  intros [st' Hrun]. unfold bind in Hrun.
  destruct (client_of_source src st) as [found st1 | h1 st1] eqn:E.
  - apply Hk in Hrun. discriminate Hrun.
  - now apply client_of_source_Halt in E.
Qed.

(** X4. Thirteen of the handlers that [add_methods] registers begin
    with the lookup of the record of the sender: those of progress,
    is_dirty, is_clean, message, gui_is_hidden, gui_is_shown, label (for
    a message with an argument), stop, remove, resume, client_save,
    client_show_optional_gui and client_hide_optional_gui. Such a
    message makes the daemon throw [std::logic_error] exactly when a
    record without an address (a client that was launched and has not
    announced itself) stands in the list before the first record with
    the port of the sender; nothing has been written or sent then. *)
Theorem sender_lookup_throws_behind_a_silent_record (m : osc_in)
  (src : lo_address) (st : State W) :
  sender_looked_up m = Some src ->
  ((exists st',
      dispatch ext osc_wait m st
      = Halt (halt_throw "std::logic_error") st') <->
   silent_record_first src (s_client_list st)) /\
  (silent_record_first src (s_client_list st) ->
   dispatch ext osc_wait m st = Halt (halt_throw "std::logic_error") st).
Proof.
  intros Hm.
  destruct m; try discriminate Hm;
    try (destruct argv; [discriminate Hm |]);
    injection Hm as ->; cbn [dispatch];
    unfold osc_progress, osc_is_dirty, osc_is_clean, osc_gui_is_hidden,
      osc_gui_is_shown, client_tells, osc_message, osc_label, osc_stop,
      osc_remove, osc_resume, osc_client_save,
      osc_client_show_optional_gui, osc_client_hide_optional_gui;
    apply lookup_of_the_sender; intros found; repeat child_step.
Qed.

End SessionFacts.

Section ServerFacts.

Context {W : Type}.
Variable ext : Externals W.

Lemma dispatch_keeps_the_latch_free osc_wait (m : osc_in)
  (st : State W) rc st' :
  s_pending_operation st = nsm.none ->
  dispatch ext osc_wait m st = Ok rc st' ->
  s_pending_operation st' = nsm.none.
Proof.
  intros Hfree Hrun. destruct m; cbn [dispatch] in Hrun.
  - rewrite (client_tells_keeps_latch _ _ _ _ _ _ _ Hrun). exact Hfree.
  - rewrite (client_tells_keeps_latch _ _ _ _ _ _ _ Hrun). exact Hfree.
  - rewrite (client_tells_keeps_latch _ _ _ _ _ _ _ Hrun). exact Hfree.
  - rewrite (osc_message_keeps_latch _ _ _ _ _ _ Hrun). exact Hfree.
  - rewrite (client_tells_keeps_latch _ _ _ _ _ _ _ Hrun). exact Hfree.
  - rewrite (client_tells_keeps_latch _ _ _ _ _ _ _ Hrun). exact Hfree.
  - rewrite (osc_label_keeps_latch _ _ _ _ _ Hrun). exact Hfree.
  - rewrite (osc_gui_announce_keeps_latch _ _ _ _ Hrun). exact Hfree.
  - rewrite (osc_stop_keeps_latch _ _ _ _ _ Hrun). exact Hfree.
  - rewrite (osc_remove_keeps_latch _ _ _ _ Hrun). exact Hfree.
  - rewrite (osc_resume_keeps_latch _ _ _ _ _ Hrun). exact Hfree.
  - rewrite (osc_client_save_keeps_latch _ _ _ _ Hrun). exact Hfree.
  - rewrite (osc_client_show_optional_gui_keeps_latch _ _ _ _ Hrun).
    exact Hfree.
  - rewrite (osc_client_hide_optional_gui_keeps_latch _ _ _ _ Hrun).
    exact Hfree.
  - rewrite (osc_ping_keeps_latch _ _ _ _ _ Hrun). exact Hfree.
  - rewrite (osc_announce_keeps_latch _ _ _ _ _ _ Hrun). exact Hfree.
  - rewrite (osc_broadcast_keeps_latch _ _ _ _ _ _ Hrun). exact Hfree.
  - exact (osc_duplicate_resets _ _ _ _ _ _ _ Hfree Hrun).
  - exact (osc_abort_resets _ _ _ _ _ _ Hfree Hrun).
  - rewrite (osc_list_keeps_latch _ _ _ _ _ Hrun). exact Hfree.
  - rewrite (osc_add_keeps_latch _ _ _ _ _ _ Hrun). exact Hfree.
  - exact (osc_newsrv_resets _ _ _ _ _ _ _ Hfree Hrun).
  - exact (osc_save_resets _ _ _ _ _ _ Hfree Hrun).
  - exact (osc_open_resets _ _ _ _ _ _ _ Hfree Hrun).
  - exact (osc_close_resets _ _ _ _ _ _ Hfree Hrun).
  - exfalso. exact (osc_quit_not_Ok ext osc_wait _ _ _ Hrun).
  - rewrite (osc_null_keeps_latch _ _ _ Hrun). exact Hfree.
Qed.

Lemma dispatch_all_keeps_the_latch_free osc_wait (ms : list osc_in) :
  forall (st st' : State W),
    s_pending_operation st = nsm.none ->
    dispatch_all ext osc_wait ms st = Ok tt st' ->
    s_pending_operation st' = nsm.none.
Proof.
  induction ms as [| m r IH]; intros st st' Hfree Hrun.
  - cbn in Hrun. now injection Hrun as <-.
  - cbn [dispatch_all] in Hrun. apply bind_Ok in Hrun.
    destruct Hrun as [rc [st1 [Hm Hrest]]].
    apply (IH st1 st'); [| exact Hrest].
    exact (dispatch_keeps_the_latch_free _ _ _ _ _ Hfree Hm).
Qed.

Lemma osc_server_wait_keeps_the_latch_free (depth : nat)
  (st st' : State W) :
  s_pending_operation st = nsm.none ->
  osc_server_wait ext depth st = Ok tt st' ->
  s_pending_operation st' = nsm.none.
Proof.
  intros Hfree Hrun. destruct depth as [| d]; cbn [osc_server_wait] in Hrun.
  - now injection Hrun as <-.
  - destruct (osc_recv ext (world st)) as [ms w].
    exact (dispatch_all_keeps_the_latch_free _ ms (with_world w st) _
             Hfree Hrun).
Qed.

(** X16. The pending-operation latch is free whenever the daemon has
    waited and goes on: [wait] looks after the children that have died,
    lets the server hand every message that has come to the handler
    that [add_methods] registered for it, and looks for the clients
    whose process is gone. Every handler that takes the latch gives it
    up before it returns, whatever is served while it waits itself; the
    quit handler does not return; and neither the other handlers nor
    the care for the children touch the latch. *)
Theorem latch_is_free_between_requests (depth : nat) (st st' : State W) :
  s_pending_operation st = nsm.none ->
  wait ext (osc_server_wait ext depth) st = Ok tt st' ->
  s_pending_operation st' = nsm.none.
Proof.
  intros Hfree Hrun. unfold wait in Hrun.
  apply bind_Ok in Hrun. destruct Hrun as [u1 [st1 [Hsignal Hrun]]].
  apply bind_Ok in Hrun. destruct Hrun as [u2 [st2 [Hserve Hpurge]]].
  rewrite (purge_dead_clients_keeps_latch _ _ _ _ Hpurge).
  destruct u2.
  apply (osc_server_wait_keeps_the_latch_free depth st1 st2);
    [| exact Hserve].
  rewrite (handle_child_signal_keeps_latch _ _ _ _ Hsignal). exact Hfree.
Qed.

End ServerFacts.

(** * The walk over the session root *)

Section FtsFacts.
Context {W : Type}.

Lemma fts_walk_dir {A : Type}
  (visit : FTSENT -> A -> State W -> result W (A * bool))
  parent path name entries acc :
  fts_walk visit parent path (fs_dir name entries) acc =
  bind (visit {| fts_info := FTS_D; fts_path := path; fts_name := name;
                 fts_parent := parent |} acc)
    (fun r =>
       bind (if snd r then ret (fst r)
             else walk_entries visit path entries (fst r))
         (fun acc =>
            bind (visit {| fts_info := FTS_DP; fts_path := path;
                           fts_name := name; fts_parent := parent |} acc)
              (fun r => ret (fst r)))).
Proof. reflexivity. Qed.


(** **** The order of the entries *)

Lemma fts_insert_file name l :
  fts_insert (fs_file name) l = fs_file name :: l.
Proof. destruct l; reflexivity. Qed.

Lemma fts_insert_past_files x F D :
  is_file x = false -> Forall (fun n => is_file n = true) F ->
  fts_insert x (F ++ D) = F ++ fts_insert x D.
Proof.
  intros Hx HF. induction HF as [| f F Hf HF IH]; [reflexivity |].
  destruct x as [xn | xn xe]; [discriminate |].
  destruct f as [fname | fname fe]; [| discriminate].
  cbn [app fts_insert]. cbn. now rewrite <- IH.
Qed.

Lemma fts_insert_dirs x D :
  is_file x = false -> Forall (fun n => is_file n = false) D ->
  Forall (fun n => is_file n = false) (fts_insert x D).
Proof.
  intros Hx HD. induction HD as [| d D Hd HD IH]; cbn [fts_insert].
  - now constructor.
  - destruct (_ <=? 0); repeat constructor; assumption.
Qed.

Lemma fts_insert_perm x l : Permutation (x :: l) (fts_insert x l).
Proof.
  induction l as [| y r IH]; cbn [fts_insert]; [reflexivity |].
  destruct (_ <=? 0); [reflexivity |].
  etransitivity; [apply perm_swap |]. now apply perm_skip.
Qed.

Lemma fts_sort_perm l : Permutation l (fts_sort l).
Proof.
  induction l as [| x r IH]; cbn [fts_sort fold_right]; [reflexivity |].
  etransitivity; [| apply fts_insert_perm]. now apply perm_skip.
Qed.

(** The entries of a directory come out files first, in the order they
    were in, and directories after them. *)
Lemma fts_sort_shape l :
  exists D,
    fts_sort l = List.filter is_file l ++ D /\
    Forall (fun n => is_file n = false) D /\
    Permutation D (List.filter is_dir l).
Proof.
  induction l as [| x r [D [Hsort [HD Hperm]]]].
  - exists []. repeat split; constructor.
  - change (fts_sort (x :: r)) with (fts_insert x (fts_sort r)).
    rewrite Hsort. cbn [List.filter]. destruct x as [name | name entries].
    + exists D. cbn [is_file is_dir negb]. rewrite fts_insert_file.
      repeat split; assumption.
    + exists (fts_insert (fs_dir name entries) D).
      cbn [is_file is_dir negb].
      rewrite fts_insert_past_files;
        [| reflexivity
         | apply List.Forall_forall; intros n Hn;
           now apply List.filter_In in Hn].
      split; [reflexivity |]. split; [now apply fts_insert_dirs |].
      etransitivity; [symmetry; apply fts_insert_perm |].
      now apply perm_skip.
Qed.


(** **** The walk *)

Lemma with_replies_O text (st : State W) : with_replies text 0 st = st.
Proof.
  unfold with_replies. cbn [List.repeat]. rewrite app_nil_r.
  apply with_sent_same.
Qed.

Lemma with_replies_add text a b (st : State W) :
  with_replies text b (with_replies text a st)
  = with_replies text (a + b) st.
Proof.
  unfold with_replies, with_sent. cbn.
  now rewrite List.repeat_app, app_assoc.
Qed.

Lemma basename_from_cut cur p name :
  basename_from cur (p +:+ "/" +:+ name) = basename_from "" name.
Proof.
  revert cur. induction p as [| c p IH]; intros cur.
  - reflexivity.
  - change (String c p +:+ "/" +:+ name)
      with (String c (p +:+ "/" +:+ name)).
    cbn [basename_from]. destruct (Ascii.eqb c "/"); apply IH.
Qed.

Lemma basename_of_entry p name :
  basename (p +:+ "/" +:+ name) = basename name.
Proof. apply basename_from_cut. Qed.

Lemma path_is_not_its_entry p name :
  String.eqb p (p +:+ "/" +:+ name) = false.
Proof.
  induction p as [| c p IH]; [reflexivity |].
  change (String c p +:+ "/" +:+ name) with (String c (p +:+ "/" +:+ name)).
  cbn [String.eqb]. now rewrite Ascii.eqb_refl.
Qed.

Section Walk.

Variable req : string.
Variable tail : string.

Let answers (st : State W) : Prop :=
  substr req (String.length (s_session_root st) + 1) = Some tail.

Lemma answers_with_replies k (st : State W) :
  answers st -> answers (with_replies tail k st).
Proof. intros H. exact H. Qed.

Lemma visit_file p name parent cur (st : State W) :
  answers st ->
  list_visit req {| fts_info := FTS_F; fts_path := p; fts_name := name;
                    fts_parent := parent |} cur st =
  if strcompare "session.nsm" (basename p)
  then Ok (Some parent, false) (with_replies tail 1 st)
  else Ok (cur, false) st.
Proof.
  intros Hans. unfold list_visit. cbn [fts_info fts_path fts_parent].
  change (negb (Z.land FTS_F FTS_D =? 0)) with false.
  change (negb (Z.land FTS_F FTS_DP =? 0)) with false.
  change (negb (Z.land FTS_F FTS_F =? 0)) with true. cbv iota.
  destruct (strcompare "session.nsm" (basename p)); [| reflexivity].
  unfold bind, gets. unfold answers in Hans. rewrite Hans. reflexivity.
Qed.

Lemma visit_D p name parent cur (st : State W) :
  list_visit req {| fts_info := FTS_D; fts_path := p; fts_name := name;
                    fts_parent := parent |} cur st =
  Ok (cur, match cur with Some _ => true | None => false end) st.
Proof. unfold list_visit. cbn. now destruct cur. Qed.

Lemma visit_DP p name parent cur (st : State W) :
  list_visit req {| fts_info := FTS_DP; fts_path := p; fts_name := name;
                    fts_parent := parent |} cur st =
  Ok (if same_entry cur p then None else cur, false) st.
Proof.
  unfold list_visit. cbn [fts_info fts_path].
  change (negb (Z.land FTS_DP FTS_D =? 0)) with false.
  change (negb (Z.land FTS_DP FTS_DP =? 0)) with true. cbv iota.
  now destruct (same_entry cur p).
Qed.

Lemma walk_entries_app
  (visit : FTSENT -> option string -> M (option string * bool))
  path l1 l2 cur (st : State W) :
  walk_entries visit path (l1 ++ l2) cur st =
  bind (walk_entries visit path l1 cur)
    (fun cur => walk_entries visit path l2 cur) st.
Proof.
  revert cur st. induction l1 as [| e r IH]; intros cur st.
  - reflexivity.
  - cbn [app walk_entries]. unfold bind.
    destruct (fts_walk visit path _ e cur st) as [cur1 st1 | h st1];
      [| reflexivity].
    rewrite IH. reflexivity.
Qed.

(** The files of a directory: each [session.nsm] is answered, and the
    directory is the current session from the first one on. *)
Lemma walk_files path F :
  Forall (fun n => is_file n = true) F ->
  forall cur (st : State W),
    answers st ->
    walk_entries (list_visit req) path F cur st =
    Ok (if (0 <? own F)%nat then Some path else cur)
      (with_replies tail (own F) st).
Proof.
  intros HF. induction HF as [| f F Hf HF IH]; intros cur st Hans.
  - cbn. now rewrite with_replies_O.
  - destruct f as [name | name entries]; [| discriminate].
    cbn [walk_entries fts_walk node_name]. unfold bind, ret.
    rewrite visit_file by exact Hans. rewrite basename_of_entry.
    unfold own. cbn [List.filter is_session_file].
    destruct (strcompare "session.nsm" (basename name)).
    + cbn [fst]. rewrite IH by exact Hans.
      rewrite with_replies_add. cbn [List.length].
      fold (own F). destruct (0 <? own F)%nat; reflexivity.
    + cbn [fst]. now rewrite IH.
Qed.

(** The directories that follow a [session.nsm] are stepped over. *)
Lemma walk_skipped path D :
  Forall (fun n => is_file n = false) D ->
  forall st : State W,
    walk_entries (list_visit req) path D (Some path) st = Ok (Some path) st.
Proof.
  intros HD. induction HD as [| d D Hd HD IH]; intros st; [reflexivity |].
  destruct d as [name | name entries]; [discriminate |].
  cbn [walk_entries]. rewrite fts_walk_dir. cbn [node_name].
  unfold bind, ret. rewrite visit_D. cbn [snd fst]. rewrite visit_DP.
  cbn [same_entry fst]. rewrite path_is_not_its_entry.
  apply IH.
Qed.

(** The directories of a directory that holds no [session.nsm]. *)
Lemma walk_open path (count : fsnode -> nat) D :
  Forall (fun d =>
            forall parent p (st : State W),
              answers st ->
              fts_walk (list_visit req) parent p d None st =
              Ok None (with_replies tail (count d) st)) D ->
  forall st : State W,
    answers st ->
    walk_entries (list_visit req) path D None st =
    Ok None (with_replies tail (list_sum (List.map count D)) st).
Proof.
  intros HD. induction HD as [| d D Hd HD IH]; intros st Hans.
  - cbn. now rewrite with_replies_O.
  - cbn [walk_entries]. unfold bind. rewrite Hd by exact Hans.
    rewrite IH by exact Hans. rewrite with_replies_add. reflexivity.
Qed.

(** One directory whose entries are in the order of the walk. *)
Lemma walk_directory parent path name (count : fsnode -> nat) F D :
  Forall (fun n => is_file n = true) F ->
  Forall (fun n => is_file n = false) D ->
  Forall (fun d =>
            forall parent p (st : State W),
              answers st ->
              fts_walk (list_visit req) parent p d None st =
              Ok None (with_replies tail (count d) st)) D ->
  forall st : State W,
    answers st ->
    fts_walk (list_visit req) parent path (fs_dir name (F ++ D)) None st =
    Ok None
      (with_replies tail
         (if (0 <? own F)%nat then own F
          else list_sum (List.map count D)) st).
Proof.
  intros HF HD Hcount st Hans. rewrite fts_walk_dir.
  unfold bind at 1. rewrite visit_D. cbn [snd fst].
  unfold bind at 1. rewrite walk_entries_app.
  unfold bind at 1. rewrite walk_files by assumption.
  destruct (0 <? own F)%nat eqn:Eown.
  - rewrite walk_skipped by assumption.
    unfold bind, ret. rewrite visit_DP. cbn [same_entry fst].
    rewrite String.eqb_refl. reflexivity.
  - apply Nat.ltb_ge in Eown.
    assert (Hnone : own F = 0%nat) by lia. rewrite Hnone.
    rewrite with_replies_O.
    rewrite (walk_open path count D Hcount) by exact Hans.
    unfold bind, ret. rewrite visit_DP. reflexivity.
Qed.

End Walk.


(** **** What the order leaves as it is *)

Lemma is_file_order e : is_file (fts_order e) = is_file e.
Proof. now destruct e. Qed.

Lemma is_session_file_order e :
  is_session_file (fts_order e) = is_session_file e.
Proof. now destruct e. Qed.

Lemma count_fts_insert (f : fsnode -> bool) x l :
  List.length (List.filter f (fts_insert x l))
  = List.length (List.filter f (x :: l)).
Proof.
  induction l as [| y r IH]; cbn [fts_insert]; [reflexivity |].
  destruct (_ <=? 0); [reflexivity |].
  cbn [List.filter] in *.
  destruct (f y), (f x); cbn [List.length] in *; lia.
Qed.

Lemma count_fts_sort (f : fsnode -> bool) l :
  List.length (List.filter f (fts_sort l)) = List.length (List.filter f l).
Proof.
  induction l as [| x r IH]; [reflexivity |].
  change (fts_sort (x :: r)) with (fts_insert x (fts_sort r)).
  rewrite count_fts_insert. cbn [List.filter].
  destruct (f x); cbn [List.length]; now rewrite IH.
Qed.

Lemma sum_fts_insert (g : fsnode -> nat) x l :
  list_sum (List.map g (fts_insert x l)) = (g x + list_sum (List.map g l))%nat.
Proof.
  induction l as [| y r IH]; cbn [fts_insert]; [reflexivity |].
  destruct (_ <=? 0); [reflexivity |].
  unfold list_sum in *. cbn [List.map fold_right] in *. rewrite IH. lia.
Qed.

Lemma sum_fts_sort (g : fsnode -> nat) l :
  list_sum (List.map g (fts_sort l)) = list_sum (List.map g l).
Proof.
  induction l as [| x r IH]; [reflexivity |].
  change (fts_sort (x :: r)) with (fts_insert x (fts_sort r)).
  rewrite sum_fts_insert. unfold list_sum in *. cbn [List.map fold_right].
  now rewrite IH.
Qed.

Lemma own_order entries : own (List.map fts_order entries) = own entries.
Proof.
  unfold own. induction entries as [| e r IH]; [reflexivity |].
  cbn [List.map List.filter]. rewrite is_session_file_order.
  destruct (is_session_file e); cbn [List.length]; now rewrite IH.
Qed.

Lemma sessions_found_order n : sessions_found (fts_order n) = sessions_found n.
Proof.
  induction n as [name | name entries IH] using fsnode_rect_nested;
    [reflexivity |].
  cbn [fts_order sessions_found].
  rewrite count_fts_sort. fold (own (List.map fts_order entries)).
  rewrite own_order. fold (own entries).
  rewrite sum_fts_sort, List.map_map.
  replace (List.map (fun e => sessions_found (fts_order e)) entries)
    with (List.map sessions_found entries); [reflexivity |].
  induction IH as [| e r He Hr IHr]; [reflexivity |].
  cbn [List.map]. now rewrite He, IHr.
Qed.

Lemma own_files_first F D :
  Forall (fun n => is_file n = false) D -> own (F ++ D) = own F.
Proof.
  intros HD. unfold own. rewrite List.filter_app, List.length_app.
  replace (List.filter is_session_file D) with (@nil fsnode);
    [cbn; lia |].
  induction HD as [| d D Hd HD IH]; [reflexivity |].
  destruct d; [discriminate | exact IH].
Qed.

Lemma sum_files_first F D :
  Forall (fun n => is_file n = true) F ->
  list_sum (List.map sessions_found (F ++ D))
  = list_sum (List.map sessions_found D).
Proof.
  intros HF. induction HF as [| f F Hf HF IH]; [reflexivity |].
  destruct f; [exact IH | discriminate].
Qed.

(** The walk of a directory in the order fts gives it: one answer for
    each session that no other session lies above, and no session is
    current when the walk leaves the directory. *)
Lemma walk_counts_sessions req tail (n : fsnode) :
  is_file n = false ->
  forall parent path (st : State W),
    substr req (String.length (s_session_root st) + 1) = Some tail ->
    fts_walk (list_visit req) parent path (fts_order n) None st =
    Ok None (with_replies tail (sessions_found n) st).
Proof.
  induction n as [name | name entries IH] using fsnode_rect_nested;
    [discriminate |].
  intros _ parent path st Hans.
  rewrite <- (sessions_found_order (fs_dir name entries)).
  cbn [fts_order].
  destruct (fts_sort_shape (List.map fts_order entries))
    as [D [Hsort [HD Hperm]]].
  rewrite Hsort.
  assert (HF : Forall (fun n => is_file n = true)
                 (List.filter is_file (List.map fts_order entries))).
  { apply List.Forall_forall. intros x Hx.
    now apply List.filter_In in Hx. }
  assert (Hcount :
    Forall (fun d =>
              forall parent p (st : State W),
                substr req (String.length (s_session_root st) + 1)
                = Some tail ->
                fts_walk (list_visit req) parent p d None st =
                Ok None (with_replies tail (sessions_found d) st)) D).
  { apply List.Forall_forall. intros d Hd.
    assert (Hin : In d (List.map fts_order entries)).
    { apply (Permutation_in _ Hperm) in Hd.
      now apply List.filter_In in Hd. }
    apply List.in_map_iff in Hin. destruct Hin as [e [<- He]].
    intros parent0 p st0 Hans0.
    rewrite sessions_found_order.
    rewrite List.Forall_forall in IH. apply (IH e He); [| exact Hans0].
    rewrite <- is_file_order.
    rewrite List.Forall_forall in HD. now apply HD. }
  rewrite (walk_directory req tail parent path name sessions_found _ D
             HF HD Hcount st Hans).
  cbn [sessions_found].
  fold (own (List.filter is_file (List.map fts_order entries) ++ D)).
  rewrite own_files_first by exact HD.
  rewrite sum_files_first by exact HF. reflexivity.
Qed.


Section ListFacts.

Variable ext : Externals W.

(** X17. The answers to a list request, when the session root is a
    directory and the request path is longer than the session root: one
    reply for each session that no other session lies above (a directory
    that holds [session.nsm]; what lies below it is not looked at), each
    with the tail of the request path, and then the reply with the empty
    string. *)
Theorem list_answers_once_for_each_session (src : lo_address)
  (st : State W) (name : string) (entries : list fsnode) (tail : string) :
  fts_open ext (s_session_root st) (world st) = Some (fs_dir name entries) ->
  substr "/nsm/server/list" (String.length (s_session_root st) + 1)
    = Some tail ->
  let st0 := gui_msg "Listing sessions" st in
  osc_list ext src st =
  Ok osc_msg_handled
    (with_sent
       (sent st0 ++
        List.repeat (list_reply (Some src) tail)
          (sessions_found (fs_dir name entries)) ++
        [list_reply (Some src) ""])
       (with_list_response_address (Some src) st0)).
Proof.
  intros Htree Htail st0. unfold osc_list.
  unfold bind at 1, lift at 1. fold st0.
  unfold bind at 1, lift at 1.
  unfold bind at 1, gets at 1. unfold bind at 1, gets at 1.
  assert (Hroot : s_session_root
                    (with_list_response_address (Some src) st0)
                  = s_session_root st).
  { subst st0. unfold gui_msg. now destruct (s_gui_is_active st). }
  assert (Hworld : world (with_list_response_address (Some src) st0)
                   = world st).
  { subst st0. unfold gui_msg. now destruct (s_gui_is_active st). }
  rewrite Hroot, Hworld, Htree.
  unfold bind at 1.
  rewrite (walk_counts_sessions "/nsm/server/list" tail
             (fs_dir name entries) eq_refl)
    by (rewrite Hroot; exact Htail).
  unfold bind, lift, ret, with_replies, send, with_sent. cbn.
  rewrite <- !app_assoc. reflexivity.
Qed.

End ListFacts.

(** **** The order of the names *)

Lemma strcmp_antisym a b : strcmp a b > 0 -> strcmp b a <= 0.
Proof.
  unfold strcmp. rewrite (String.compare_antisym b a).
  destruct (String.compare a b); cbn; lia.
Qed.

Lemma fts_insert_sorted x D :
  is_file x = false ->
  Forall (fun n => is_file n = false) D ->
  Sorted name_le D -> Sorted name_le (fts_insert x D).
Proof.
  intros Hx HD Hsorted.
  induction Hsorted as [| d D Hsorted IH Hhd]; cbn [fts_insert].
  - repeat constructor.
  - inversion HD as [| ? ? Hd HD']; subst.
    destruct x as [xn | xn xe]; [discriminate |].
    destruct d as [dn | dn de]; [discriminate |].
    unfold fts_comparer_to_process_files_before_dirs.
    cbn [node_info node_name].
    change (negb (Z.land FTS_D FTS_F =? 0)) with false. cbv iota.
    destruct (strcmp xn dn <=? 0) eqn:Ecmp.
    + apply Z.leb_le in Ecmp. constructor.
      * now constructor.
      * constructor. exact Ecmp.
    + apply Z.leb_gt in Ecmp. constructor; [now apply IH |].
      assert (Hdx : name_le (fs_dir dn de) (fs_dir xn xe)).
      { unfold name_le. cbn [node_name]. apply strcmp_antisym. lia. }
      destruct D as [| e D]; cbn [fts_insert].
      * now constructor.
      * destruct (_ <=? 0); constructor; [exact Hdx |].
        now inversion Hhd.
Qed.

Lemma fts_sort_shape_sorted l :
  exists D,
    fts_sort l = List.filter is_file l ++ D /\
    Forall (fun n => is_file n = false) D /\
    Permutation D (List.filter is_dir l) /\
    Sorted name_le D.
Proof.
  induction l as [| x r [D [Hsort [HD [Hperm Hsorted]]]]].
  - exists []. repeat split; constructor.
  - change (fts_sort (x :: r)) with (fts_insert x (fts_sort r)).
    rewrite Hsort. cbn [List.filter]. destruct x as [name | name entries].
    + exists D. cbn [is_file is_dir negb]. rewrite fts_insert_file.
      repeat split; assumption.
    + exists (fts_insert (fs_dir name entries) D).
      cbn [is_file is_dir negb].
      rewrite fts_insert_past_files;
        [| reflexivity
         | apply List.Forall_forall; intros n Hn;
           now apply List.filter_In in Hn].
      split; [reflexivity |]. split; [now apply fts_insert_dirs |].
      split.
      * etransitivity; [symmetry; apply fts_insert_perm |].
        now apply perm_skip.
      * now apply fts_insert_sorted.
Qed.

(** X18. The order in which the entries of a directory are walked, as
    [fts_comparer_to_process_files_before_dirs] decides it: the regular
    files first and the directories after them, by name. No entry is
    lost or doubled. Among themselves the regular files are not ordered
    by the comparison: of two files it calls the first the smaller,
    whichever it is. Two directories are compared by [strcmp] of their
    names. *)
Theorem files_are_walked_before_directories (name : string)
  (entries : list fsnode) :
  exists F D,
    fts_order (fs_dir name entries) = fs_dir name (F ++ D) /\
    Permutation F (List.filter is_file entries) /\
    Forall (fun n => is_file n = false) D /\
    Permutation D (List.map fts_order (List.filter is_dir entries)) /\
    Sorted name_le D /\
    (forall first second,
       is_file first = true ->
       fts_comparer_to_process_files_before_dirs first second < 0 /\
       (is_file second = false ->
        fts_comparer_to_process_files_before_dirs second first > 0)) /\
    (forall first second,
       is_file first = false -> is_file second = false ->
       fts_comparer_to_process_files_before_dirs first second
       = strcmp (node_name first) (node_name second)).
Proof.
  destruct (fts_sort_shape_sorted (List.map fts_order entries))
    as [D [Hsort [HD [Hperm Hsorted]]]].
  exists (List.filter is_file entries), D. cbn [fts_order]. rewrite Hsort.
  assert (Hfiles : List.filter is_file (List.map fts_order entries)
                   = List.filter is_file entries).
  { clear. induction entries as [| e r IH]; [reflexivity |].
    cbn [List.map List.filter]. rewrite is_file_order.
    destruct e; cbn [is_file fts_order]; now rewrite IH. }
  assert (Hdirs : List.filter is_dir (List.map fts_order entries)
                  = List.map fts_order (List.filter is_dir entries)).
  { clear. induction entries as [| e r IH]; [reflexivity |].
    cbn [List.map List.filter]. unfold is_dir in *. rewrite is_file_order.
    destruct (is_file e); cbn [negb List.map]; now rewrite IH. }
  rewrite Hfiles. rewrite Hdirs in Hperm.
  repeat (split; [assumption || reflexivity |]).
  split.
  - intros first second Hfirst.
    destruct first as [fname | fname fe]; [| discriminate].
    split; [reflexivity |].
    intros Hsecond. destruct second as [sn | sn se]; [discriminate |].
    reflexivity.
  - intros first second Hfirst Hsecond.
    destruct first as [fname | fname fe]; [discriminate |].
    destruct second as [sn | sn se]; [discriminate |].
    reflexivity.
Qed.

End FtsFacts.

(** * More properties of the patch engine *)

Section MorePatchFacts.

Import jackpatch jackprops.

Context {J : Type}.
Variable lib : Jack J.

Lemma patch_names_ends pr pr' :
  ends pr' = ends pr -> patch_names pr' = patch_names pr.
Proof.
  unfold ends, patch_names. intros H. injection H as -> ->. reflexivity.
Qed.

Lemma map_patch_names l l' :
  List.map ends l' = List.map ends l ->
  List.map patch_names l' = List.map patch_names l.
Proof.
  revert l'. induction l as [| pr r IH]; intros [| pr' r'] H;
    try discriminate H; [reflexivity |].
  cbn [List.map] in *.
  assert (H1 : ends pr' = ends pr) by congruence.
  assert (H2 : List.map ends r' = List.map ends r) by congruence.
  now rewrite (patch_names_ends _ _ H1), (IH _ H2).
Qed.

(** One call of [connect_path]. *)
Lemma connect_path_step pr (e : Engine J) :
  let pr' := fst (connect_path lib pr e) in
  let e' := snd (connect_path lib pr e) in
  g_known_ports e' = g_known_ports e /\
  g_patch_list e' = g_patch_list e /\
  ends pr' = ends pr /\
  ((connect_calls e' = connect_calls e /\
    ~ (pr_active pr = false /\
       known (fst (patch_names pr)) e /\ known (snd (patch_names pr)) e))
   \/
   (connect_calls e' = connect_calls e ++ [patch_names pr] /\
    pr_active pr = false /\
    known (fst (patch_names pr)) e /\ known (snd (patch_names pr)) e)).
Proof.
  cbv zeta. unfold connect_path, patch_names. cbn [fst snd].
  pose proof (known_port_found (pr_src pr) e) as Hsrc.
  pose proof (known_port_found (pr_dst pr) e) as Hdst.
  destruct (pr_active pr) eqn:Ea.
  { cbn [fst snd]. repeat (split; [reflexivity |]). left.
    split; [reflexivity |]. intros [H _]. discriminate H. }
  destruct (negb (String.eqb (find_known_port
                                (make_client_port_name (pr_src pr)) e) ""))
    eqn:Es;
    destruct (negb (String.eqb (find_known_port
                                  (make_client_port_name (pr_dst pr)) e) ""))
      eqn:Ed; cbn [negb orb fst snd].
  - unfold call_jack_connect.
    destruct (jack_connect lib _ _ (jack e)) as [rc j].
    destruct ((rc =? 0) || (rc =? EEXIST)); cbn [fst snd];
      (repeat (split; [reflexivity |])); right;
      (split; [reflexivity |]); (split; [reflexivity |]);
      (split; [now apply Hsrc | now apply Hdst]).
  - repeat (split; [reflexivity |]). left. split; [reflexivity |].
    intros [_ [_ H]]. apply Hdst in H. congruence.
  - repeat (split; [reflexivity |]). left. split; [reflexivity |].
    intros [_ [H _]]. apply Hsrc in H. congruence.
  - repeat (split; [reflexivity |]). left. split; [reflexivity |].
    intros [_ [H _]]. apply Hsrc in H. congruence.
Qed.

Lemma known_same_ports x (e e' : Engine J) :
  g_known_ports e' = g_known_ports e -> (known x e' <-> known x e).
Proof. unfold known. now intros ->. Qed.

(** The loop of [activate_patch]. *)
Lemma for_matching_connect client port l :
  forall e : Engine J,
    let l' := fst (for_matching client port (connect_path lib) l e) in
    let e' := snd (for_matching client port (connect_path lib) l e) in
    g_known_ports e' = g_known_ports e /\
    g_patch_list e' = g_patch_list e /\
    List.map ends l' = List.map ends l /\
    exists new,
      connect_calls e' = connect_calls e ++ new /\
      (forall sd, In sd new ->
         In sd (List.map patch_names l) /\
         known (fst sd) e /\ known (snd sd) e) /\
      (forall pr, In pr l -> ends_at client port pr = true ->
         pr_active pr = false ->
         known (fst (patch_names pr)) e ->
         known (snd (patch_names pr)) e ->
         In (patch_names pr) new).
Proof.
  induction l as [| pr r IH]; intros e; cbv zeta.
  - cbn. repeat (split; [reflexivity |]). exists [].
    rewrite app_nil_r. split; [reflexivity |].
    split; [intros sd [] | intros pr []].
  - cbn [for_matching]. fold (ends_at client port pr).
    destruct (ends_at client port pr) eqn:Ematch.
    + pose proof (connect_path_step pr e) as Hstep. cbv zeta in Hstep.
      destruct (connect_path lib pr e) as [pr1 e1]. cbn [fst snd] in Hstep.
      destruct Hstep as [Hk1 [Hp1 [He1 Hcalls]]].
      specialize (IH e1). cbv zeta in IH.
      destruct (for_matching client port (connect_path lib) r e1)
        as [r' e2]. cbn [fst snd List.map] in *.
      destruct IH as [Hk2 [Hp2 [He2 [new [Hnew [Hin Hall]]]]]].
      split; [congruence |]. split; [congruence |].
      split; [now rewrite He1, He2 |].
      assert (Hknown : forall x, known x e1 <-> known x e)
        by (intros x; now apply known_same_ports).
      destruct Hcalls as [[Hsame Hnot] | [Hcall [Hinactive [Hks Hkd]]]].
      * exists new. split; [congruence |]. split.
        -- intros sd Hsd. destruct (Hin sd Hsd) as [H1 [H2 H3]].
           split; [now right |]. split; now apply Hknown.
        -- intros p [<- | Hp] Hm Ha Hs Hd.
           ++ exfalso. apply Hnot. auto.
           ++ apply Hall; try assumption; now apply Hknown.
      * exists (patch_names pr :: new). split.
        -- rewrite Hnew, Hcall, <- app_assoc. reflexivity.
        -- split.
           ++ intros sd [<- | Hsd].
              ** split; [now left |]. split; assumption.
              ** destruct (Hin sd Hsd) as [H1 [H2 H3]].
                 split; [now right |]. split; now apply Hknown.
           ++ intros p [<- | Hp] Hm Ha Hs Hd; [now left |].
              right. apply Hall; try assumption; now apply Hknown.
    + specialize (IH e). cbv zeta in IH.
      destruct (for_matching client port (connect_path lib) r e)
        as [r' e2]. cbn [fst snd List.map] in *.
      destruct IH as [Hk2 [Hp2 [He2 [new [Hnew [Hin Hall]]]]]].
      split; [exact Hk2 |]. split; [exact Hp2 |].
      split; [now rewrite He2 |].
      exists new. split; [exact Hnew |]. split.
      * intros sd Hsd. destruct (Hin sd Hsd) as [H1 H2].
        split; [now right | exact H2].
      * intros p [<- | Hp] Hm Ha Hs Hd; [congruence |].
        now apply Hall.
Qed.

(** The loop of [inactivate_patch]. *)
Lemma for_matching_inactivate client port l (e : Engine J) :
  for_matching client port inactivate_path l e =
  (List.map
     (fun pr => if ends_at client port pr then set_pr_active false pr
                else pr) l, e).
Proof.
  induction l as [| pr r IH]; [reflexivity |].
  cbn [for_matching List.map]. fold (ends_at client port pr).
  destruct (ends_at client port pr); cbn [inactivate_path];
    now rewrite IH.
Qed.


Lemma known_after_enqueue x p (e : Engine J) :
  known x (enqueue_known_port p e) <-> known x e \/ x = p.
Proof.
  unfold known, enqueue_known_port. cbn [g_known_ports with_known_ports].
  rewrite List.map_app, List.in_app_iff. cbn. intuition congruence.
Qed.

(** A port registers. *)
Lemma handle_new_port_step p (e : Engine J) :
  let e' := handle_new_port lib p e in
  g_known_ports e' = g_known_ports e ++ [ {| port_name := p |} ] /\
  List.map ends (g_patch_list e') = List.map ends (g_patch_list e) /\
  exists new,
    connect_calls e' = connect_calls e ++ new /\
    forall sd, In sd new ->
      In sd (List.map patch_names (g_patch_list e)) /\
      (known (fst sd) e \/ fst sd = p) /\
      (known (snd sd) e \/ snd sd = p).
Proof.
  cbv zeta. unfold handle_new_port, activate_patch, do_for_matching_patches.
  destruct (extract_client_port lib p) as [[c q] |].
  - pose proof (for_matching_connect c q
                  (g_patch_list (enqueue_known_port p e))
                  (enqueue_known_port p e)) as H. cbv zeta in H.
    destruct (for_matching c q (connect_path lib) _ _) as [l e1].
    cbn [fst snd] in H.
    destruct H as [Hk [_ [He [new [Hnew [Hin _]]]]]].
    cbn [g_known_ports g_patch_list connect_calls with_patch_list].
    split; [exact Hk |]. split; [exact He |].
    exists new. split; [exact Hnew |].
    intros sd Hsd. destruct (Hin sd Hsd) as [H1 [H2 H3]].
    split; [exact H1 |]. split; now apply known_after_enqueue.
  - split; [reflexivity |]. split; [reflexivity |].
    exists []. rewrite app_nil_r. split; [reflexivity | intros sd []].
Qed.

Lemma in_erase_first_other x p l :
  x <> p -> In x (List.map port_name l) ->
  In x (List.map port_name (erase_first p l)).
Proof.
  intros Hne. induction l as [| r l IH]; cbn [erase_first List.map];
    [auto |].
  destruct (String.eqb (port_name r) p) eqn:E.
  - apply String.eqb_eq in E. intros [H | H]; [congruence | exact H].
  - cbn [List.map]. intros [H | H]; [now left | right; now apply IH].
Qed.

(** A port unregisters. *)
Lemma remove_known_port_step p (e : Engine J) :
  let e' := remove_known_port lib p e in
  g_known_ports e' = erase_first p (g_known_ports e) /\
  connect_calls e' = connect_calls e /\ jack e' = jack e /\
  g_patch_list e' =
    match extract_client_port lib p with
    | Some (c, q) =>
        List.map (fun pr => if ends_at c q pr then set_pr_active false pr
                            else pr) (g_patch_list e)
    | None => g_patch_list e
    end.
Proof.
  cbv zeta.
  unfold remove_known_port, inactivate_patch, do_for_matching_patches.
  destruct (extract_client_port lib p) as [[c q] |]; [| repeat split].
  rewrite for_matching_inactivate. repeat split.
Qed.

(** What a run of registrations makes of the engine. *)
Lemma new_ports_fold ports :
  forall e : Engine J,
    let e' := fold_left (fun e p => handle_new_port lib p e) ports e in
    List.map ends (g_patch_list e') = List.map ends (g_patch_list e) /\
    (forall x, known x e' <-> known x e \/ In x ports) /\
    exists new,
      connect_calls e' = connect_calls e ++ new /\
      forall sd, In sd new ->
        In sd (List.map patch_names (g_patch_list e)) /\
        (known (fst sd) e \/ In (fst sd) ports) /\
        (known (snd sd) e \/ In (snd sd) ports).
Proof.
  induction ports as [| p r IH]; intros e; cbn [fold_left].
  - split; [reflexivity |]. split; [intros x; cbn; tauto |]. exists [].
    rewrite app_nil_r. split; [reflexivity | intros sd []].
  - destruct (handle_new_port_step p e) as [Hk [He1 [new1 [Hnew1 Hin1]]]].
    set (e1 := handle_new_port lib p e) in *.
    destruct (IH e1) as [He2 [Hk2 [new2 [Hnew2 Hin2]]]].
    assert (Hknown : forall x, known x e1 <-> known x e \/ x = p).
    { intros x. unfold known. rewrite Hk, List.map_app, List.in_app_iff.
      cbn. intuition. }
    split; [congruence |]. split.
    + intros x. rewrite Hk2, Hknown. cbn. intuition.
    + exists (new1 ++ new2). split.
      * rewrite Hnew2, Hnew1, <- app_assoc. reflexivity.
      * intros sd Hsd. apply in_app_or in Hsd. destruct Hsd as [Hsd | Hsd].
        -- destruct (Hin1 sd Hsd) as [H1 [H2 H3]].
           split; [exact H1 |]. cbn. intuition.
        -- destruct (Hin2 sd Hsd) as [H1 [H2 H3]].
           rewrite !Hknown in *. cbn.
           split; [now rewrite <- (map_patch_names _ _ He1) |].
           intuition.
Qed.

(** X19. When the ports that are there at the start are registered, the
    engine asks JACK only for connections of its patch list, and only
    between ports it has been told of: each call of [jack_connect] that
    [register_prexisting_ports] makes names the two ends of a patch of
    the list, and each of the two was known before or is among the
    ports that [jack_get_ports] lists. Afterwards the known ports are
    those known before and those listed. The patches themselves stay:
    none is added, none is dropped, none changes its ends. *)
Theorem engine_connects_only_what_it_knows
  (jack_get_ports : J -> option (list string)) (e : Engine J) :
  let e' := register_prexisting_ports lib jack_get_ports e in
  List.map ends (g_patch_list e') = List.map ends (g_patch_list e) /\
  (forall x,
     known x e' <-> known x e \/ listed jack_get_ports x (jack e)) /\
  exists new,
    connect_calls e' = connect_calls e ++ new /\
    forall sd, In sd new ->
      In sd (List.map patch_names (g_patch_list e)) /\
      (known (fst sd) e \/ listed jack_get_ports (fst sd) (jack e)) /\
      (known (snd sd) e \/ listed jack_get_ports (snd sd) (jack e)).
Proof.
  cbv zeta. unfold register_prexisting_ports, listed.
  destruct (jack_get_ports (jack e)) as [ports |].
  - destruct (new_ports_fold ports e) as [He [Hk [new [Hnew Hin]]]].
    split; [exact He |]. split.
    + intros x. rewrite Hk. split.
      * intros [Hx | Hx]; [now left | right; now exists ports].
      * intros [Hx | [ps [Hps Hx]]]; [now left |].
        injection Hps as <-. now right.
    + exists new. split; [exact Hnew |].
      intros sd Hsd. destruct (Hin sd Hsd) as [H1 [H2 H3]].
      split; [exact H1 |].
      split; [destruct H2 as [H2 | H2] | destruct H3 as [H3 | H3]];
        try (now left); right; now exists ports.
  - split; [reflexivity |]. split.
    + intros x. split; [now left |].
      intros [Hx | [ps [Hps _]]]; [exact Hx | discriminate Hps].
    + exists []. rewrite app_nil_r. split; [reflexivity | intros sd []].
Qed.

(** X20. A port that goes away and comes back gets its connections again:
    when a port is unregistered and then registered, [jack_connect] is
    called for every patch that has an end at this port and whose two
    ports are known then, whether the patch was active before or not. *)
Theorem port_that_comes_back_is_connected_again (p c q : string)
  (pr : patch_record) (e : Engine J) :
  extract_client_port lib p = Some (c, q) ->
  In pr (g_patch_list e) ->
  ends_at c q pr = true ->
  (known (fst (patch_names pr)) e \/ fst (patch_names pr) = p) ->
  (known (snd (patch_names pr)) e \/ snd (patch_names pr) = p) ->
  let gone := remove_known_port lib p e in
  let back := handle_new_port lib p gone in
  connect_calls gone = connect_calls e /\
  (forall pr', In pr' (g_patch_list gone) -> ends_at c q pr' = true ->
     pr_active pr' = false) /\
  exists new,
    connect_calls back = connect_calls e ++ new /\
    In (patch_names pr) new.
Proof.
  intros Hextract Hin Hends Hsrc Hdst gone back.
  destruct (remove_known_port_step p e) as [Hk [Hc [_ Hl]]].
  fold gone in Hk, Hc, Hl. rewrite Hextract in Hl.
  split; [exact Hc |]. split.
  { intros pr' Hpr' Hm. rewrite Hl in Hpr'.
    apply List.in_map_iff in Hpr'. destruct Hpr' as [pr0 [<- _]].
    destruct (ends_at c q pr0) eqn:E; [reflexivity |].
    congruence. }
  subst back. unfold handle_new_port, activate_patch,
    do_for_matching_patches. rewrite Hextract.
  pose proof (for_matching_connect c q
                (g_patch_list (enqueue_known_port p gone))
                (enqueue_known_port p gone)) as H. cbv zeta in H.
  destruct (for_matching c q (connect_path lib) _ _) as [l e1].
  cbn [fst snd] in H.
  destruct H as [_ [_ [_ [new [Hnew [_ Hall]]]]]].
  cbn [connect_calls with_patch_list].
  exists new. split.
  { rewrite Hnew. cbn [connect_calls enqueue_known_port with_known_ports].
    now rewrite Hc. }
  assert (Hknown : forall x, known x e \/ x = p ->
            known x (enqueue_known_port p gone)).
  { intros x Hx. apply known_after_enqueue.
    destruct (String.eqb_spec x p) as [-> | Hne]; [now right |].
    left. destruct Hx as [Hx | Hx]; [| contradiction].
    unfold known in *. rewrite Hk. now apply in_erase_first_other. }
  rewrite (patch_names_ends (set_pr_active false pr) pr eq_refl).
  apply Hall.
  - cbn [g_patch_list enqueue_known_port with_known_ports]. rewrite Hl.
    apply List.in_map_iff. exists pr. now rewrite Hends.
  - exact Hends.
  - reflexivity.
  - now apply Hknown.
  - now apply Hknown.
Qed.

Lemma copies_erase_first p q l :
  List.length
    (List.filter (fun r => String.eqb (port_name r) p) (erase_first q l))
  = if String.eqb p q
    then Nat.pred
           (List.length
              (List.filter (fun r => String.eqb (port_name r) p) l))
    else List.length
           (List.filter (fun r => String.eqb (port_name r) p) l).
Proof.
  induction l as [| r l IH]; cbn [erase_first List.filter].
  - now destruct (String.eqb p q).
  - destruct (String.eqb (port_name r) q) eqn:Erq.
    + apply String.eqb_eq in Erq. rewrite Erq.
      destruct (String.eqb_spec p q) as [-> | Hne].
      * now rewrite String.eqb_refl.
      * rewrite (proj2 (String.eqb_neq q p)) by congruence. reflexivity.
    + cbn [List.filter].
      destruct (String.eqb (port_name r) p) eqn:Erp.
      * apply String.eqb_eq in Erp.
        assert (Hpq : String.eqb p q = false).
        { apply String.eqb_neq in Erq. apply String.eqb_neq. congruence. }
        rewrite Hpq in *. cbn [List.length]. now rewrite IH.
      * exact IH.
Qed.

(** X21. The known ports are a list with repetition: every registration
    adds a record, whether the name is there or not, and an
    unregistration takes one record away. A port that was registered
    twice is still known after it has been unregistered once. *)
Theorem known_ports_are_counted (p q : string) (e : Engine J) :
  copies p (handle_new_port lib q e)
    = (copies p e + if String.eqb p q then 1 else 0)%nat /\
  copies p (remove_known_port lib q e)
    = (if String.eqb p q then Nat.pred (copies p e) else copies p e) /\
  (known p e <-> (0 < copies p e)%nat) /\
  known p (remove_known_port lib p
             (handle_new_port lib p (handle_new_port lib p e))).
Proof.
  assert (Hknown : forall x (e0 : Engine J),
            known x e0 <-> (0 < copies x e0)%nat).
  { intros x e0. unfold known, copies.
    induction (g_known_ports e0) as [| r l IH]; cbn [List.map List.filter].
    - cbn. split; [intros [] | lia].
    - destruct (String.eqb (port_name r) x) eqn:E.
      + apply String.eqb_eq in E. cbn. split; [lia | now left].
      + apply String.eqb_neq in E. cbn [In]. rewrite <- IH.
        split; [intros [H | H]; [contradiction | exact H] | now right]. }
  assert (Hadd : forall x y (e0 : Engine J),
            copies x (handle_new_port lib y e0)
            = (copies x e0 + if String.eqb x y then 1 else 0)%nat).
  { intros x y e0. unfold copies.
    destruct (handle_new_port_step y e0) as [-> _].
    rewrite List.filter_app, List.length_app. cbn [List.filter port_name].
    rewrite (String.eqb_sym y x). now destruct (String.eqb x y). }
  assert (Hsub : forall x y (e0 : Engine J),
            copies x (remove_known_port lib y e0)
            = if String.eqb x y then Nat.pred (copies x e0)
              else copies x e0).
  { intros x y e0. unfold copies.
    destruct (remove_known_port_step y e0) as [-> _].
    apply copies_erase_first. }
  split; [apply Hadd |]. split; [apply Hsub |]. split; [apply Hknown |].
  apply Hknown. rewrite Hsub, !Hadd, String.eqb_refl. lia.
Qed.


(** *** The patch file *)

Section PatchFile.

Variable nsm_process_patch : string -> patch_line.
Variable unset : nat -> bool.
Variable file_read_lines : string -> option (list string).

Lemma process_patch_step buf (e : Engine J) :
  let r := process_patch nsm_process_patch unset buf e in
  fst r = line_parses nsm_process_patch buf /\
  same_graph e (snd r) /\
  exists added,
    g_patch_list (snd r) = g_patch_list e ++ added /\
    List.map ends added = ends_of_line nsm_process_patch buf /\
    List.map pr_active added =
      List.map unset
        (List.seq (List.length (g_patch_list e)) (List.length added)) /\
    (fst r = false -> snd r = e).
Proof.
  cbv zeta.
  unfold process_patch, line_parses, ends_of_line, same_graph,
    enqueue_unset.
  destruct (pl_dir (nsm_process_patch buf)); cbn [fst snd];
    (split; [reflexivity |]); (split; [repeat split |]).
  - exists []. rewrite app_nil_r. repeat split.
  - eexists. split; [reflexivity |]. split; [reflexivity |].
    split; [reflexivity | discriminate].
  - eexists. split; [reflexivity |]. split; [reflexivity |].
    split; [reflexivity | discriminate].
  - eexists (_ :: _ :: nil).
    split; [cbn; now rewrite <- app_assoc |]. split; [reflexivity |].
    split; [| discriminate].
    cbn [g_patch_list enqueue with_patch_list List.map pr_active
         patch_between List.length List.seq].
    rewrite List.length_app. cbn [List.length].
    now rewrite Nat.add_1_r.
  - exists []. rewrite app_nil_r. repeat split.
Qed.

Lemma read_lines_fold lines :
  forall (ok : bool) (e : Engine J),
    let r := fold_left
               (fun (acc : bool * Engine J) buf =>
                  process_patch nsm_process_patch unset buf (snd acc))
               lines (ok, e) in
    fst r = List.last (List.map (line_parses nsm_process_patch) lines) ok /\
    same_graph e (snd r) /\
    exists added,
      g_patch_list (snd r) = g_patch_list e ++ added /\
      List.map ends added
        = flat_map (ends_of_line nsm_process_patch) lines /\
      List.map pr_active added =
        List.map unset
          (List.seq (List.length (g_patch_list e)) (List.length added)).
Proof.
  induction lines as [| buf rest IH]; intros ok e; cbv zeta.
  - cbn. split; [reflexivity |]. split; [repeat split |].
    exists []. rewrite app_nil_r. repeat split.
  - cbn [fold_left snd].
    pose proof (process_patch_step buf e) as Hstep. cbv zeta in Hstep.
    destruct (process_patch nsm_process_patch unset buf e) as [ok1 e1].
    cbn [fst snd] in Hstep.
    destruct Hstep as [Hok [[Hk1 [Hc1 Hj1]] [a1 [Hl1 [He1 [Hu1 _]]]]]].
    specialize (IH ok1 e1). cbv zeta in IH.
    destruct IH as [Hlast [[Hk2 [Hc2 Hj2]] [a2 [Hl2 [He2 Hu2]]]]].
    split; [| split].
    + rewrite Hlast, Hok. cbn [List.map].
      destruct (List.map (line_parses nsm_process_patch) rest) as [| b l];
        [reflexivity |].
      change (List.last (line_parses nsm_process_patch buf :: b :: l) ok)
        with (List.last (b :: l) ok).
      clear. revert b. induction l as [| x l IHl]; intros b;
        [reflexivity |].
      change (List.last (b :: x :: l) ?d) with (List.last (x :: l) d).
      apply IHl.
    + unfold same_graph. repeat split; congruence.
    + exists (a1 ++ a2). split; [now rewrite Hl2, Hl1, app_assoc |].
      split.
      * rewrite List.map_app, He1, He2. reflexivity.
      * rewrite List.map_app, List.length_app, List.seq_app, List.map_app.
        rewrite Hu1, Hu2, Hl1, List.length_app. reflexivity.
Qed.

(** X22. [read_config]: the patch list is replaced by the patches of the
    lines that can be read as patches, in the order of the file, and the
    answer is that of the last line alone: a line in the middle that is
    no patch is passed over, and a file without lines is read with
    success and leaves no patch. The flag of each patch is what its own
    record held when it was enqueued, since it was never set: the flags
    of one list need not agree. A file that cannot be read leaves
    everything as it was. *)
Theorem read_config_answers_for_the_last_line (file : string)
  (e : Engine J) :
  let r := read_config nsm_process_patch unset file_read_lines file e in
  match file_read_lines file with
  | None => r = (false, e)
  | Some lines =>
      fst r = List.last (List.map (line_parses nsm_process_patch) lines)
                true /\
      List.map ends (g_patch_list (snd r))
        = flat_map (ends_of_line nsm_process_patch) lines /\
      List.map pr_active (g_patch_list (snd r))
        = List.map unset
            (List.seq 0 (List.length (g_patch_list (snd r)))) /\
      same_graph e (snd r)
  end.
Proof.
  cbv zeta. unfold read_config.
  destruct (file_read_lines file) as [lines |]; [| reflexivity].
  pose proof (read_lines_fold lines true (clear_all_patches e)) as H.
  cbv zeta in H.
  destruct H as [Hlast [Hgraph [added [Hl [He Hu]]]]].
  cbn [g_patch_list clear_all_patches with_patch_list app List.length]
    in Hl, Hu.
  split; [exact Hlast |]. rewrite Hl.
  split; [exact He |]. split; [exact Hu | exact Hgraph].
Qed.

(** *** The snapshot *)

Variable jack_get_output_ports : J -> option (list string).
Variable jack_port_by_name : string -> J -> bool.
Variable jack_port_get_all_connections : string -> J -> option (list string).
Variable investigate : bool.

Lemma same_graph_refl (e : Engine J) : same_graph e e.
Proof. repeat split. Qed.

Lemma same_graph_trans (e1 e2 e3 : Engine J) :
  same_graph e1 e2 -> same_graph e2 e3 -> same_graph e1 e3.
Proof.
  unfold same_graph. intros [? [? ?]] [? [? ?]]. repeat split; congruence.
Qed.

Lemma process_remembered_graph table :
  forall e : Engine J,
    same_graph e (process_remembered nsm_process_patch unset table e).
Proof.
  induction table as [| r rest IH]; intros e; cbn [process_remembered].
  - apply same_graph_refl.
  - pose proof (process_patch_step r e) as Hstep. cbv zeta in Hstep.
    destruct (process_patch nsm_process_patch unset r e) as [ok e1].
    cbn [fst snd] in Hstep. destruct Hstep as [_ [Hg _]].
    destruct ok; [| exact Hg].
    exact (same_graph_trans _ _ _ Hg (IH e1)).
Qed.

Lemma save_connections_adds jport connections :
  forall (table : list string) (e : Engine J),
    let r := save_connections nsm_process_patch unset investigate jport
               connections (table, e) in
    same_graph e (snd r) /\
    exists added,
      fst r = table ++ added /\
      forall line, In line added ->
        exists c, In c connections /\
                  line = patch_text investigate jport c.
Proof.
  induction connections as [| c rest IH]; intros table e; cbv zeta.
  - cbn. split; [apply same_graph_refl |]. exists [].
    rewrite app_nil_r. split; [reflexivity | intros line []].
  - cbn [save_connections fst snd].
    pose proof (process_patch_step (patch_text investigate jport c) e)
      as Hstep. cbv zeta in Hstep.
    destruct (process_patch nsm_process_patch unset _ e) as [ok e1].
    cbn [fst snd] in Hstep. destruct Hstep as [_ [Hg _]].
    destruct ok.
    + specialize (IH (table ++ [patch_text investigate jport c]) e1).
      cbv zeta in IH. destruct IH as [Hg2 [added [Hfst Hin]]].
      split; [exact (same_graph_trans _ _ _ Hg Hg2) |].
      exists (patch_text investigate jport c :: added).
      split; [rewrite Hfst, <- app_assoc; reflexivity |].
      intros line [<- | Hline].
      * exists c. split; [now left | reflexivity].
      * destruct (Hin line Hline) as [c0 [Hc0 ->]].
        exists c0. split; [now right | reflexivity].
    + cbn [fst snd]. split; [exact Hg |].
      exists [patch_text investigate jport c].
      split; [reflexivity |].
      intros line [<- | []]. exists c. split; [now left | reflexivity].
Qed.

Lemma save_ports_add jports :
  forall (all : list string) (table : list string) (e : Engine J),
    (forall x, In x jports -> In x all) ->
    let r := fold_left
               (save_port nsm_process_patch unset jack_port_by_name
                  jack_port_get_all_connections investigate)
               jports (table, e) in
    same_graph e (snd r) /\
    exists added,
      fst r = table ++ added /\
      forall line, In line added ->
        live_line jack_port_by_name jack_port_get_all_connections
          investigate (jack e) all line.
Proof.
  induction jports as [| jport rest IH]; intros all table e Hall; cbv zeta.
  - cbn. split; [apply same_graph_refl |]. exists [].
    rewrite app_nil_r. split; [reflexivity | intros line []].
  - cbn [fold_left].
    assert (Hone :
      let r1 := save_port nsm_process_patch unset jack_port_by_name
                  jack_port_get_all_connections investigate (table, e)
                  jport in
      same_graph e (snd r1) /\
      exists added,
        fst r1 = table ++ added /\
        forall line, In line added ->
        live_line jack_port_by_name jack_port_get_all_connections
          investigate (jack e) all line).
    { cbv zeta. unfold save_port. cbn [fst snd].
      destruct (jack_port_by_name jport (jack e)) eqn:Eport.
      - destruct (jack_port_get_all_connections jport (jack e))
          as [connections |] eqn:Econn.
        + destruct (save_connections_adds jport connections table e)
            as [Hg [added [Hfst Hin]]].
          split; [exact Hg |]. exists added. split; [exact Hfst |].
          intros line Hline. destruct (Hin line Hline) as [c [Hc ->]].
          exists jport, c, connections.
          split; [apply Hall; now left |]. repeat split; assumption.
        + cbn [fst snd]. split; [apply same_graph_refl |]. exists [].
          rewrite app_nil_r. split; [reflexivity | intros line []].
      - cbn [fst snd]. split; [apply same_graph_refl |]. exists [].
        rewrite app_nil_r. split; [reflexivity | intros line []]. }
    cbv zeta in Hone.
    destruct (save_port _ _ _ _ _ (table, e) jport) as [table1 e1].
    cbn [fst snd] in Hone. destruct Hone as [Hg1 [added1 [-> Hin1]]].
    destruct (IH all (table ++ added1) e1) as [Hg2 [added2 [Hfst Hin2]]].
    { intros x Hx. apply Hall. now right. }
    split; [exact (same_graph_trans _ _ _ Hg1 Hg2) |].
    exists (added1 ++ added2).
    split; [rewrite Hfst, <- app_assoc; reflexivity |].
    intros line Hline. apply in_app_or in Hline.
    destruct Hline as [Hline | Hline]; [now apply Hin1 |].
    destruct Hg1 as [_ [_ Hj]]. rewrite <- Hj. now apply Hin2.
Qed.

Lemma insert_line_perm s l : Permutation (s :: l) (insert_line s l).
Proof.
  induction l as [| x r IH]; cbn [insert_line]; [reflexivity |].
  destruct (String.leb s x); [reflexivity |].
  etransitivity; [apply perm_swap |]. now apply perm_skip.
Qed.

Lemma sort_lines_perm l : Permutation l (sort_lines l).
Proof.
  induction l as [| x r IH]; cbn [sort_lines fold_right]; [reflexivity |].
  etransitivity; [| apply insert_line_perm]. now apply perm_skip.
Qed.

Lemma insert_line_sorted s l :
  Sorted line_le l -> Sorted line_le (insert_line s l).
Proof.
  intros Hsorted. induction Hsorted as [| x l Hsorted IH Hhd];
    cbn [insert_line].
  - repeat constructor.
  - destruct (String.leb s x) eqn:E.
    + constructor; [now constructor |]. now constructor.
    + constructor; [exact IH |].
      assert (Hxs : line_le x s).
      { destruct (String.leb_total s x) as [H | H]; [congruence | exact H]. }
      destruct l as [| y l]; cbn [insert_line].
      * now constructor.
      * destruct (String.leb s y); constructor; [exact Hxs |].
        now inversion Hhd.
Qed.

Lemma sort_lines_sorted l : Sorted line_le (sort_lines l).
Proof.
  induction l as [| x r IH]; cbn [sort_lines fold_right]; [constructor |].
  now apply insert_line_sorted.
Qed.

(** X23. [snapshot]: without the list of the output ports nothing is
    written and nothing changes. With it, the lines handed to
    [file_write_lines] are in the order of [std::sort]; every patch of
    the list one of whose two ports is no longer in the graph has its
    line among them, so that a connection whose client is away for a
    while is not forgotten; every other line is a connection of an output
    port that is in the graph; and the answer is that of the write. The
    known ports and the graph are as they were. *)
Theorem snapshot_forgets_no_missing_port
  (written : string -> list string -> bool) (file : string)
  (e : Engine J) :
  let r := snapshot nsm_process_patch unset jack_get_output_ports
             jack_port_by_name jack_port_get_all_connections investigate
             written file e in
  match jack_get_output_ports (jack e) with
  | None => r = (false, None, e)
  | Some jports =>
      exists table e',
        r = (written file table, Some table, e') /\
        same_graph e e' /\
        Sorted line_le table /\
        (forall pr, In pr (g_patch_list e) ->
           jack_port_by_name (fst (patch_names pr)) (jack e) = false \/
           jack_port_by_name (snd (patch_names pr)) (jack e) = false ->
           In (patch_text investigate (fst (patch_names pr))
                 (snd (patch_names pr))) table) /\
        (forall line, In line table ->
           In line (remembered jack_port_by_name investigate e) \/
           live_line jack_port_by_name jack_port_get_all_connections
             investigate (jack e) jports line)
  end.
Proof.
  cbv zeta. unfold snapshot.
  destruct (jack_get_output_ports (jack e)) as [jports |]; [| reflexivity].
  set (table0 := remembered jack_port_by_name investigate e).
  set (e1 := process_remembered nsm_process_patch unset table0
               (clear_all_patches e)).
  assert (Hg1 : same_graph e e1).
  { apply same_graph_trans with (e2 := clear_all_patches e);
      [repeat split | apply process_remembered_graph]. }
  destruct (save_ports_add jports jports table0 e1 (fun x H => H))
    as [Hg2 [added [Hfst Hlive]]].
  destruct (fold_left _ jports (table0, e1)) as [table e2].
  cbn [fst snd] in Hfst, Hg2. subst table.
  exists (sort_lines (table0 ++ added)), e2.
  split; [reflexivity |].
  split; [exact (same_graph_trans _ _ _ Hg1 Hg2) |].
  split; [apply sort_lines_sorted |]. split.
  - intros pr Hpr Hmissing.
    apply (Permutation_in _ (sort_lines_perm _)).
    apply in_or_app. left. subst table0. unfold remembered.
    apply List.in_flat_map. exists pr. split; [exact Hpr |].
    unfold patch_names in Hmissing. cbn [fst snd] in Hmissing.
    destruct (jack_port_by_name (make_client_port_name (pr_src pr)) (jack e))
      eqn:Esrc; cbn [negb].
    + destruct Hmissing as [H | H]; [discriminate |].
      rewrite H. cbn [negb]. now left.
    + now left.
  - intros line Hline.
    apply (Permutation_in _ (Permutation_sym (sort_lines_perm _))) in Hline.
    apply in_app_or in Hline. destruct Hline as [Hline | Hline].
    + now left.
    + right. destruct Hg1 as [_ [_ Hj]]. rewrite <- Hj. now apply Hlive.
Qed.

End PatchFile.

End MorePatchFacts.

(** * The code at work on concrete inputs *)

Section Runs.

Import Demo.

(** C1, where the code departs from it. Two clients have announced
    themselves from [addr_a] and [addr_b], and [addr_a] sends a broadcast.
    For the target [/seq/tempo], which does not begin with [/nsm/],
    nothing reaches [addr_b], whatever [util::strncompare] answers; read
    as "starts with", nothing is sent at all. For the target
    [/nsm/server/quit] the request is relayed, back to [addr_a]. *)
Theorem broadcast_misses_the_other_clients :
  (forall cmp : string -> string -> bool,
     returned (osc_broadcast (demo_ext_with cmp) addr_a
                 [arg_s "/seq/tempo"; arg_i 120]
                 (in_song two_clients empty_world))
       = Some osc_msg_handled /\
     forall m,
       In m (sent (final (osc_broadcast (demo_ext_with cmp) addr_a
                            [arg_s "/seq/tempo"; arg_i 120]
                            (in_song two_clients empty_world)))) ->
       out_to m <> Some addr_b)
  /\
  sent (final (osc_broadcast demo_ext addr_a
                 [arg_s "/seq/tempo"; arg_i 120]
                 (in_song two_clients empty_world))) = []
  /\
  sent (final (osc_broadcast demo_ext addr_a [arg_s "/nsm/server/quit"]
                 (in_song two_clients empty_world)))
    = [ {| out_to := Some addr_a; out_path := "/nsm/server/quit";
           out_args := [] |} ].
Proof.
  split; [| split; vm_compute; reflexivity].
  intros cmp. unfold osc_broadcast. cbn [strncompare demo_ext_with].
  destruct (cmp "/seq/tempo" "/nsm/"); cbn [negb].
  - split; [reflexivity |]. vm_compute.
    intros m [<- | []]. discriminate.
  - split; [reflexivity |]. intros m [].
Qed.

(** C2, where the code departs from it. The session root [/data/nsm]
    holds the sessions [A], [B/C] and [B/D]: the three answers all carry
    "r/list", the tail of the request's own path, and then comes the
    terminator. Under a session root with a longer path the first
    session found ends the handler with [std::out_of_range], and nothing
    has been answered. *)
Theorem list_answers_with_the_request_path :
  returned (osc_list demo_ext addr_ctl (idle world_with_tree))
    = Some osc_msg_handled
  /\
  sent (final (osc_list demo_ext addr_ctl (idle world_with_tree)))
    = [reply_to addr_ctl "/nsm/server/list" "r/list";
       reply_to addr_ctl "/nsm/server/list" "r/list";
       reply_to addr_ctl "/nsm/server/list" "r/list";
       reply_to addr_ctl "/nsm/server/list" ""]
  /\
  halted (osc_list demo_ext addr_ctl (far_root (idle world_with_tree)))
    = Some (halt_throw "std::out_of_range")
  /\
  sent (final (osc_list demo_ext addr_ctl
                 (far_root (idle world_with_tree)))) = [].
Proof. repeat split; vm_compute; reflexivity. Qed.

(** C3, where the code departs from it. The session Song is open and the
    latch is free. [addr_a] asks for a save; while the daemon waits for
    the replies of the clients, [addr_b] asks for a save as well. The
    second request is served like the first, and never learns of an
    operation in progress. When the first request is a close, the second
    one is refused with operation_pending (-12). *)
Theorem second_request_during_save_is_served :
  sent (final (osc_save demo_ext (osc_server_wait demo_ext 1) addr_a
                 (in_song [] world_second_request)))
    = [reply_to addr_b "/nsm/server/save" "Saved";
       reply_to addr_a "/nsm/server/save" "Saved"]
  /\
  sent (final (osc_close demo_ext (osc_server_wait demo_ext 1) addr_a
                 (in_song [] world_second_request)))
    = [error_message addr_b "/nsm/server/save" nsm.operation_pending
         "An operation pending";
       reply_to addr_a "/nsm/server/close" "Closed"].
Proof. split; vm_compute; reflexivity. Qed.

(** The announce of scenario 1 comes in while three launched clients are
    expected: the record of the first that runs [qseq66] is taken, with
    its id, and keeps its place between the two others. When only the
    client that runs [xterm] is expected, a record is made for the
    announcer and put at the end. *)
Lemma announce_accepted_witness :
  (exists st' c ms,
     osc_announce demo_ext addr_a seq66_announce
       (in_song expecting world_ids) = Ok osc_msg_handled st' /\
     self c = 1%nat /\ m_client_id c = "nWXYZ" /\
     m_exe_path c = "qseq66" /\
     m_active c = true /\ m_pending_command c = nsm.open /\
     s_client_list st' =
       [launched 0 "xterm" "nCCCC" 101; c;
        launched 2 "qseq66" "nQQQQ" 4243] /\
     sent st' = ms ++ [open_message addr_a "/data/nsm/Song" "Song" c])
  /\
  (exists st' c,
     osc_announce demo_ext addr_a seq66_announce
       (in_song [launched 0 "xterm" "nCCCC" 101] world_ids)
       = Ok osc_msg_handled st' /\
     self c = 1%nat /\ m_client_id c = "nWXYZ" /\
     m_active c = true /\ m_pending_command c = nsm.open /\
     s_client_list st' = [launched 0 "xterm" "nCCCC" 101; c] /\
     sent st' =
       [ {| out_to := Some addr_a; out_path := "/reply";
            out_args := [arg_s "/nsm/server/announce"; arg_s ack_outside;
                         arg_s "Nsmd 66";
                         arg_s ":server-control:broadcast:optional-gui:"] |};
         {| out_to := Some addr_a; out_path := "/nsm/client/open";
            out_args := [arg_s "/data/nsm/Song/seq66.nWXYZ"; arg_s "Song";
                         arg_s "seq66.nWXYZ"] |} ]).
Proof.
  split.
  - destruct (announce_accepted demo_ext addr_a seq66_announce
                (in_song expecting world_ids))
      as [st' [c [ms [Hrun [_ [Hactive [Hpending [_ [_ [_ [_ [Hexe
            [Hfirst [_ Hsent]]]]]]]]]]]]]].
    + vm_compute. discriminate.
    + vm_compute. discriminate.
    + destruct (Hfirst [launched 0 "xterm" "nCCCC" 101]
                  (launched 1 "qseq66" "nWXYZ" 4242)
                  [launched 2 "qseq66" "nQQQQ" 4243])
        as [Hself [Hid Hlist]];
        try (vm_compute; reflexivity).
      { intros x [<- | []] [Hx _]. vm_compute in Hx. discriminate Hx. }
      exists st', c, ([] ++ ms).
      split; [exact Hrun |].
      split; [rewrite Hself; vm_compute; reflexivity |].
      split; [rewrite Hid; vm_compute; reflexivity |].
      split; [rewrite Hexe; vm_compute; reflexivity |].
      split; [exact Hactive |]. split; [exact Hpending |].
      split; [| exact Hsent].
      rewrite Hlist. unfold store_client. rewrite Hself.
      vm_compute. reflexivity.
  - destruct (announce_accepted demo_ext addr_a seq66_announce
                (in_song [launched 0 "xterm" "nCCCC" 101] world_ids))
      as [st' [c [ms [Hrun [_ [Hactive [Hpending [_ [_ [_ [_ [_
            [_ [Hnew _]]]]]]]]]]]]]].
    + vm_compute. discriminate.
    + vm_compute. discriminate.
    + destruct Hnew as [Hself [Hid Hlist]].
      { intros x [<- | []] [Hx _]. vm_compute in Hx. discriminate Hx. }
      exists st', c. split; [exact Hrun |].
      split; [rewrite Hself; vm_compute; reflexivity |].
      split; [rewrite Hid; vm_compute; reflexivity |].
      split; [exact Hactive |]. split; [exact Hpending |].
      split.
      * apply Hlist. intros x [<- | []]. vm_compute. discriminate.
      * vm_compute in Hrun. injection Hrun as <-. reflexivity.
Defined.

(** With the session Song open, the announce of a client built against
    major version 2 is refused. *)
Lemma announce_incompatible_api_witness :
  exists st',
    osc_announce demo_ext addr_a newer_announce (in_song [] world_ids)
      = Ok osc_msg_handled st' /\
    s_client_list st' = [] /\
    sent st' =
      [error_message addr_a "/nsm/server/announce" nsm.incompatible_api
         "Server is using an incompatible API version"].
Proof.
  destruct (announce_incompatible_api demo_ext addr_a newer_announce
              (in_song [] world_ids)) as [st' [Hrun [Hlist Hsent]]].
  - simpl. discriminate.
  - vm_compute. reflexivity.
  - exists st'. split; [exact Hrun |]. split; [exact Hlist | exact Hsent].
Defined.

(** C5 as it was stated fails when no session is open: the announce of
    major version 2 is answered, but with no_session_open, and no
    [/error] reply carries incompatible_api. *)
Lemma announce_without_session_counterexample :
  an_api_major newer_announce > NSM_API_VERSION_MAJOR /\
  sent (final (osc_announce demo_ext addr_a newer_announce
                 (idle world_ids)))
    = [error_message addr_a "/nsm/server/announce" nsm.no_session_open
         "No session open for this application to join"] /\
  ~ (exists m,
       In m (sent (final (osc_announce demo_ext addr_a newer_announce
                            (idle world_ids)))) /\
       is_error_reply addr_a nsm.incompatible_api m).
Proof.
  split; [vm_compute; reflexivity |].
  split; [vm_compute; reflexivity |].
  intros [m [Hin [path [text Hm]]]].
  vm_compute in Hin. destruct Hin as [<- | []].
  unfold error_message in Hm. simpl in Hm. discriminate Hm.
Qed.



(** The daemon has no session open, and Song is locked by another: the
    open request has taken the latch when the load starts. *)
Lemma locked_session_is_refused_witness :
  (exists st1,
     load_session_file demo_ext (osc_server_wait demo_ext 1)
       "/data/nsm/Song"
       (with_pending_operation nsm.open (idle world_locked))
     = Ok nsm.session_locked st1 /\
     s_client_list st1 = [] /\ s_session_path st1 = "")
  /\
  (exists st',
     osc_open demo_ext (osc_server_wait demo_ext 1) addr_ctl "Song"
       (idle world_locked) = Ok osc_msg_handled st' /\
     sent st' =
       [error_message addr_ctl "/nsm/server/open" nsm.session_locked
          "Session is locked by another process"] /\
     s_pending_operation st' = nsm.none).
Proof.
  destruct (locked_session_is_refused demo_ext (osc_server_wait demo_ext 1)
              "/data/nsm/Song" "Song"
              (with_pending_operation nsm.open (idle world_locked)))
    as [[Hload [Hlist [Hpath _]]] Hopen].
  - reflexivity.
  - reflexivity.
  - reflexivity.
  - split.
    + eexists. split; [exact Hload |]. split; [exact Hlist | exact Hpath].
    + destruct (Hopen addr_ctl "Song" (idle world_locked))
        as [st' [Hrun [Hsent [_ Hlatch]]]];
        [reflexivity | reflexivity | reflexivity |].
      exists st'. split; [exact Hrun |]. split; [exact Hsent | exact Hlatch].
Defined.

(** C8 as it was stated fails for the session the daemon has open
    itself: the lock file of Song is there, it is the daemon's own, and
    loading Song again does not return session_locked but loads the
    session. An open request for Song saves the session first, here a
    session without clients, so that no line is left in the manifest: it
    is answered with create_failed, not with session_locked. *)
Lemma own_lock_counterexample :
  file_exists demo_ext song_lock (world (in_song [] world_locked)) = true /\
  returned (load_session_file demo_ext (osc_server_wait demo_ext 1)
              "/data/nsm/Song" (in_song [] world_locked))
    = Some nsm.ok /\
  sent (final (osc_open demo_ext (osc_server_wait demo_ext 1) addr_ctl
                 "Song" (in_song [] world_locked)))
    = [error_message addr_ctl "/nsm/server/open" nsm.create_failed
         "Could not create session file"].
Proof. repeat split; vm_compute; reflexivity. Qed.



(** ** More runs *)

(** The members of a list that is given are distinct. *)
Ltac distinct_by_computation :=
  vm_compute; repeat constructor;
  let H := fresh "H" in
  intros H; repeat (destruct H as [H | H]; [discriminate H |]); exact H.

(** Two records of clients that are gone stand before a running one:
    the first is erased, and the second is stepped over and stays. *)
Lemma purge_inactive_keeps_what_follows_witness :
  purge_inactive_clients (in_song two_gone_one_running empty_world)
    = Ok tt (final (purge_inactive_clients
                      (in_song two_gone_one_running empty_world))) /\
  exists kept',
    s_client_list
      (final (purge_inactive_clients
                (in_song two_gone_one_running empty_world)))
    = launched 1 "jackpatch66" "nDDDD" 0 :: kept'.
Proof.
  assert (Hrun :
    purge_inactive_clients (in_song two_gone_one_running empty_world)
    = Ok tt (final (purge_inactive_clients
                      (in_song two_gone_one_running empty_world))))
    by (vm_compute; reflexivity).
  split; [exact Hrun |].
  destruct (purge_inactive_keeps_what_follows _ _ Hrun) as [_ [_ Hnext]].
  exact (Hnext [] (launched 0 "xterm" "nCCCC" 0)
           (launched 1 "jackpatch66" "nDDDD" 0)
           [announced 2 "seq66" "nAAAA" addr_a 100] eq_refl
           (List.Forall_nil _) eq_refl).
Defined.

(** The launched client of PID 101 is gone when the records are
    checked: the walk comes to its end, and both records are in their
    places. When the client of PID 101 was told to quit, the walk stops
    at the write to its deleted record. *)
Lemma purge_dead_clients_meets_no_deleted_record_witness :
  (exists st',
     purge_dead_clients demo_ext (in_song mixed_clients world_child_gone)
       = Ok tt st' /\
     List.map self (s_client_list st') = [0%nat; 1%nat]) /\
  (exists st',
     purge_dead_clients demo_ext (in_song told_to_quit world_child_gone)
       = Halt (halt_undefined "write to a deleted Client") st').
Proof.
  split.
  - pose proof (purge_dead_clients_meets_no_deleted_record demo_ext
                  (in_song mixed_clients world_child_gone)) as Hwalk.
    destruct (purge_dead_clients demo_ext
                (in_song mixed_clients world_child_gone))
      as [[] st' | h st'] eqn:Erun.
    + exists st'. split; [reflexivity |]. rewrite Hwalk.
      vm_compute. reflexivity.
    + vm_compute in Erun. discriminate Erun.
  - pose proof (purge_dead_clients_meets_no_deleted_record demo_ext
                  (in_song told_to_quit world_child_gone)) as Hwalk.
    destruct (purge_dead_clients demo_ext
                (in_song told_to_quit world_child_gone))
      as [[] st' | h st'] eqn:Erun.
    + vm_compute in Erun. discriminate Erun.
    + exists st'. destruct Hwalk as [-> _]. reflexivity.
Defined.

(** A launch with an id that no record has: the new record is the last
    of the list and holds the PID that [fork] returned. *)
Lemma launch_in_the_parent_witness :
  (forall x, In x (s_client_list (in_song mixed_clients empty_world)) ->
     self x <> next_object (in_song mixed_clients empty_world)) /\
  exists st' c,
    launch demo_ext "qseq66" "nWXYZ" (in_song mixed_clients empty_world)
      = Ok true st' /\
    s_client_list st' = mixed_clients ++ [c] /\
    m_pid c = 4242 /\ m_name c = "qseq66" /\ m_status c = "launch".
Proof.
  assert (Hfresh :
    forall x, In x (s_client_list (in_song mixed_clients empty_world)) ->
      self x <> next_object (in_song mixed_clients empty_world)).
  { intros x [<- | [<- | []]]; discriminate. }
  split; [exact Hfresh |].
  pose proof (launch_in_the_parent demo_ext "qseq66" "nWXYZ"
                (in_song mixed_clients empty_world) Hfresh) as Hlaunch.
  destruct (launch demo_ext "qseq66" "nWXYZ"
              (in_song mixed_clients empty_world)) as [rc st' | h st']
    eqn:Erun.
  - destruct Hlaunch
      as [-> [c [w0 [_ [Hpid [_ [_ [_ [Hstatus [_ Hnew]]]]]]]]]].
    change (get_client_by_id
              (s_client_list (in_song mixed_clients empty_world)) "nWXYZ")
      with (@None Client) in Hnew.
    destruct Hnew as [Hlist [_ [Hname [_ [_ [_ Hid]]]]]].
    destruct Hid as [_ ->]; [discriminate |].
    exists st', c. split; [reflexivity |]. split; [exact Hlist |].
    split; [exact Hpid |]. split; [exact Hname | exact Hstatus].
  - vm_compute in Erun. discriminate Erun.
Defined.

(** A name that would lead out of the session root. *)
Lemma name_with_two_dots_is_refused_witness :
  s_pending_operation (idle empty_world) = nsm.none /\
  path_is_valid "Songs/../../etc" = false /\
  osc_newsrv demo_ext (osc_server_wait demo_ext 1) addr_ctl
    "Songs/../../etc" (idle empty_world) =
    Ok osc_msg_handled
      (with_sent
         [error_message addr_ctl "/nsm/server/new" nsm.create_failed
            "Invalid session name"] (idle empty_world)).
Proof.
  split; [vm_compute; reflexivity |].
  destruct (name_with_two_dots_is_refused demo_ext
              (osc_server_wait demo_ext 1) addr_ctl "Songs/" "/../etc"
              (idle empty_world) eq_refl) as [Hvalid [Hnew _]].
  split; [exact Hvalid | exact Hnew].
Defined.

(** No session Lost exists below the session root. *)
Lemma open_of_a_missing_session_witness :
  s_pending_operation (idle empty_world) = nsm.none /\
  s_session_path (idle empty_world) = "" /\
  session_already_exists demo_ext "Lost" (idle empty_world) = false /\
  osc_open demo_ext (osc_server_wait demo_ext 1) addr_ctl "Lost"
    (idle empty_world) =
    Ok osc_msg_handled
      (with_sent
         [error_message addr_ctl "/nsm/server/open" nsm.no_such_file
            "The named session does not exist"] (idle empty_world)).
Proof.
  split; [vm_compute; reflexivity |].
  split; [vm_compute; reflexivity |].
  split; [vm_compute; reflexivity |].
  exact (proj2 (open_of_a_missing_session demo_ext
                  (osc_server_wait demo_ext 1) addr_ctl "Lost"
                  (idle empty_world) eq_refl eq_refl eq_refl)).
Defined.

(** The session Song is locked by another daemon; after the refusal a
    GUI announces itself. *)
Lemma refused_open_then_gui_announce_witness :
  session_already_exists demo_ext "Song" (idle world_locked) = true /\
  file_exists demo_ext song_lock (world (idle world_locked)) = true /\
  exists st1 st2,
    osc_open demo_ext (osc_server_wait demo_ext 1) addr_ctl "Song"
      (idle world_locked) = Ok osc_msg_handled st1 /\
    s_session_path st1 = "" /\
    s_session_name st1 = "Song" /\
    s_pending_operation st1 = nsm.none /\
    osc_gui_announce gui_addr st1 =
      Halt (halt_throw "std::out_of_range") st2.
Proof.
  split; [vm_compute; reflexivity |]. split; [vm_compute; reflexivity |].
  apply (refused_open_then_gui_announce demo_ext
           (osc_server_wait demo_ext 1) addr_ctl gui_addr "Song"
           (idle world_locked));
    [vm_compute; reflexivity | vm_compute; reflexivity
    | vm_compute; reflexivity | vm_compute; reflexivity |].
  vm_compute. discriminate.
Defined.

(** The stopped client asks to be removed: its record goes, and the
    record of the running client stays. *)
Lemma remove_takes_only_a_stopped_record_witness :
  List.NoDup
    (List.map self (s_client_list (in_song one_stopped empty_world))) /\
  osc_remove addr_b (in_song one_stopped empty_world)
    = Ok osc_msg_handled
        (final (osc_remove addr_b (in_song one_stopped empty_world))) /\
  s_client_list (final (osc_remove addr_b (in_song one_stopped empty_world)))
    = [announced 0 "seq66" "nAAAA" addr_a 100] /\
  forall x,
    In x one_stopped ->
    ~ In x (s_client_list
              (final (osc_remove addr_b
                        (in_song one_stopped empty_world)))) ->
    m_pid x = 0 /\ m_active x = false.
Proof.
  assert (Hdistinct :
    List.NoDup
      (List.map self (s_client_list (in_song one_stopped empty_world)))).
  { distinct_by_computation. }
  split; [exact Hdistinct |].
  assert (Hrun :
    osc_remove addr_b (in_song one_stopped empty_world)
    = Ok osc_msg_handled
        (final (osc_remove addr_b (in_song one_stopped empty_world))))
    by (vm_compute; reflexivity).
  split; [exact Hrun |]. split; [vm_compute; reflexivity |].
  intros x Hin Hout.
  exact (proj2 (proj2 (proj2 (remove_takes_only_a_stopped_record addr_b
                                _ _ _ Hdistinct Hrun)) x Hin Hout)).
Defined.

(** The child of PID 101 is reaped. *)
Lemma no_record_holds_a_reaped_pid_witness :
  List.NoDup
    (List.map self (s_client_list (in_song mixed_clients world_child_gone)))
  /\
  List.NoDup
    (pids_held (s_client_list (in_song mixed_clients world_child_gone))) /\
  exists st',
    handle_sigchld demo_ext (in_song mixed_clients world_child_gone)
      = Ok tt st' /\
    forall c, In c (s_client_list st') -> m_pid c <> 101.
Proof.
  assert (Hdistinct :
    List.NoDup
      (List.map self
         (s_client_list (in_song mixed_clients world_child_gone)))).
  { distinct_by_computation. }
  assert (Hpids :
    List.NoDup
      (pids_held (s_client_list (in_song mixed_clients world_child_gone)))).
  { distinct_by_computation. }
  split; [exact Hdistinct |]. split; [exact Hpids |].
  pose proof (no_record_holds_a_reaped_pid demo_ext
                (in_song mixed_clients world_child_gone) Hdistinct Hpids)
    as Hreaped.
  destruct (handle_sigchld demo_ext
              (in_song mixed_clients world_child_gone))
    as [[] st' | h st'] eqn:Erun.
  - exists st'. split; [reflexivity |].
    destruct Hreaped as [_ [_ Hreaped]].
    apply (Hreaped 101 0); [left; vm_compute; reflexivity | discriminate].
  - vm_compute in Erun. discriminate Erun.
Defined.

(** A save request comes in while the daemon waits: it is served, and
    the latch is free afterwards. *)
Lemma latch_is_free_between_requests_witness :
  s_pending_operation (in_song [] world_second_request) = nsm.none /\
  wait demo_ext (osc_server_wait demo_ext 1)
    (in_song [] world_second_request)
    = Ok tt (final (wait demo_ext (osc_server_wait demo_ext 1)
                      (in_song [] world_second_request))) /\
  sent (final (wait demo_ext (osc_server_wait demo_ext 1)
                 (in_song [] world_second_request)))
    = [reply_to addr_b "/nsm/server/save" "Saved"] /\
  s_pending_operation
    (final (wait demo_ext (osc_server_wait demo_ext 1)
              (in_song [] world_second_request)))
    = nsm.none.
Proof.
  assert (Hrun :
    wait demo_ext (osc_server_wait demo_ext 1)
      (in_song [] world_second_request)
    = Ok tt (final (wait demo_ext (osc_server_wait demo_ext 1)
                      (in_song [] world_second_request))))
    by (vm_compute; reflexivity).
  split; [vm_compute; reflexivity |]. split; [exact Hrun |].
  split; [vm_compute; reflexivity |].
  exact (latch_is_free_between_requests demo_ext 1
           (in_song [] world_second_request) _ eq_refl Hrun).
Defined.

(** The hierarchy of scenario 4 with a session nested below [B/C]:
    three sessions are answered for, the nested one is not. *)
Lemma list_answers_once_for_each_session_witness :
  fts_open demo_ext (s_session_root (idle world_with_tree))
    (world (idle world_with_tree)) = Some session_tree /\
  sessions_found session_tree = 3%nat /\
  osc_list demo_ext addr_ctl (idle world_with_tree) =
  Ok osc_msg_handled
    (with_sent
       (List.repeat (list_reply (Some addr_ctl) "r/list") 3 ++
        [list_reply (Some addr_ctl) ""])
       (with_list_response_address (Some addr_ctl) (idle world_with_tree))).
Proof.
  split; [vm_compute; reflexivity |]. split; [vm_compute; reflexivity |].
  exact (list_answers_once_for_each_session demo_ext addr_ctl
           (idle world_with_tree) _ _ "r/list" eq_refl eq_refl).
Defined.

(** [fluidsynth:midi_in] goes away and comes back while
    [seq66:midi_out] is known. *)
Lemma port_that_comes_back_is_connected_again_witness :
  jackpatch.extract_client_port demo_jack "fluidsynth:midi_in"
    = Some ("fluidsynth", "midi_in") /\
  jackprops.ends_at "fluidsynth" "midi_in" saved_patch = true /\
  exists new,
    jackpatch.connect_calls
      (jackpatch.handle_new_port demo_jack "fluidsynth:midi_in"
         (jackpatch.remove_known_port demo_jack "fluidsynth:midi_in"
            engine_at_startup)) = new /\
    In ("seq66:midi_out", "fluidsynth:midi_in") new.
Proof.
  split; [vm_compute; reflexivity |]. split; [vm_compute; reflexivity |].
  destruct (port_that_comes_back_is_connected_again demo_jack
              "fluidsynth:midi_in" "fluidsynth" "midi_in" saved_patch
              engine_at_startup)
    as [_ [_ [new [Hcalls Hin]]]].
  - vm_compute. reflexivity.
  - left. vm_compute. reflexivity.
  - vm_compute. reflexivity.
  - left. vm_compute. left. reflexivity.
  - right. vm_compute. reflexivity.
  - exists new. split; [exact Hcalls | exact Hin].
Defined.

(** A client at [addr_b], which no record has, says that it is dirty
    while a launched client has not announced itself. *)
Lemma sender_lookup_throws_behind_a_silent_record_witness :
  silent_record_first addr_b mixed_clients /\
  dispatch demo_ext (osc_server_wait demo_ext 1) (in_is_dirty addr_b)
    (in_song mixed_clients empty_world)
    = Halt (halt_throw "std::logic_error")
        (in_song mixed_clients empty_world).
Proof.
  assert (Hsilent : silent_record_first addr_b mixed_clients).
  { exists [announced 0 "seq66" "nAAAA" addr_a 100],
      (launched 1 "xterm" "nCCCC" 101), [].
    split; [vm_compute; reflexivity |]. split; [vm_compute; reflexivity |].
    intros x [<- | []]. exists addr_a.
    split; [vm_compute; reflexivity | discriminate]. }
  split; [exact Hsilent |].
  destruct (sender_lookup_throws_behind_a_silent_record demo_ext
              (osc_server_wait demo_ext 1) (in_is_dirty addr_b) addr_b
              (in_song mixed_clients empty_world) eq_refl)
    as [_ Hthrow].
  exact (Hthrow Hsilent).
Defined.


(** The client at [addr_b] says that it has unsaved changes. *)
Lemma client_notes_leave_the_orchestration_alone_witness :
  osc_is_dirty addr_b (with_gui (in_song two_clients empty_world))
    = Ok osc_msg_handled
        (final (osc_is_dirty addr_b
                  (with_gui (in_song two_clients empty_world)))) /\
  List.map control_view
    (s_client_list
       (final (osc_is_dirty addr_b
                 (with_gui (in_song two_clients empty_world)))))
  = List.map control_view two_clients /\
  List.map m_dirty
    (s_client_list
       (final (osc_is_dirty addr_b
                 (with_gui (in_song two_clients empty_world)))))
  = [false; true].
Proof.
  assert (Hdistinct :
    List.NoDup
      (List.map self
         (s_client_list (with_gui (in_song two_clients empty_world))))).
  { distinct_by_computation. }
  assert (Hrun :
    osc_is_dirty addr_b (with_gui (in_song two_clients empty_world))
    = Ok osc_msg_handled
        (final (osc_is_dirty addr_b
                  (with_gui (in_song two_clients empty_world)))))
    by (vm_compute; reflexivity).
  split; [exact Hrun |].
  destruct (client_notes_leave_the_orchestration_alone
              (W := outside) addr_b 0 0 "" [])
    as [_ [Hdirty _]].
  split; [exact (proj1 (Hdirty _ _ _ Hdistinct Hrun)) |].
  vm_compute. reflexivity.
Defined.

(** The GUI at port 9000 asks for a client to be stopped, and the two
    clients are at the ports 15001 and 15002. *)
Lemma gui_operations_look_for_the_senders_port_witness :
  Forall
    (fun c => exists a, m_addr c = Some a /\ lo_port a <> lo_port gui_addr)
    (s_client_list (with_gui (in_song two_clients empty_world))) /\
  sent (final (osc_stop demo_ext gui_addr
                 (with_gui (in_song two_clients empty_world))))
    = [gui_message gui_addr "/error"
         [arg_i (-10); arg_s "No such client."]] /\
  s_client_list (final (osc_stop demo_ext gui_addr
                          (with_gui (in_song two_clients empty_world))))
    = two_clients.
Proof.
  assert (Hports :
    Forall
      (fun c =>
         exists a, m_addr c = Some a /\ lo_port a <> lo_port gui_addr)
      (s_client_list (with_gui (in_song two_clients empty_world)))).
  { repeat constructor.
    - exists addr_a. split; [vm_compute; reflexivity | discriminate].
    - exists addr_b. split; [vm_compute; reflexivity | discriminate]. }
  split; [exact Hports |].
  destruct (gui_operations_look_for_the_senders_port demo_ext gui_addr
              (with_gui (in_song two_clients empty_world)))
    as [Hnone _].
  destruct (Hnone Hports) as [-> _]. split; vm_compute; reflexivity.
Defined.


End Runs.
